(** * rk-db / clickhouse: entry lifecycle and configuration resolution

    A shallow embedding of the two ClickHouse entry variants of the
    repository:

    - [Early]: [clickhouse/boot.go] (rk-entry v1, locale based);
    - [Later]: the rk-entry v2 revision of the same file (domain based,
      with [closeDB], plugins and the logger adapter).

    The ORM ([gorm]), the SQL driver, the structured logger ([zap]) and
    the host registry ([rkentry.GlobalAppCtx]) are external
    collaborators.  They appear as type classes whose methods are the
    calls the source makes; every call that has an effect on the
    outside world is recorded, in program order, in a trace. *)

From stdpp Require Import base gmap strings list.

Set Default Proof Using "Type".

(** ** Go values shared by both variants *)

(** A Go [error], identified by its message; [nil] is [None]. *)
Definition Err := string.

(** [*sql.DB], the native connection behind an ORM handle. *)
Definition SqlDB := nat.

(** [*gorm.DB]: the handle returned by [gorm.Open] and by [db.Exec],
    with the [Error] field the source reads after [Exec]. *)
Record GormDB := mkGormDB { handle : nat; Error : option Err }.

(** [*zap.Logger]; [WithOptions(zap.WithCaller(true))] sets the flag. *)
Record ZapLogger := mkZap { core : nat; caller : bool }.

Definition WithCaller (l : ZapLogger) : ZapLogger :=
  {| core := core l; caller := true |}.

(** A [zap.Field] restricted to what the source builds:
    [zap.String(k, v)] and [zap.Error(err)]. *)
Definition Field := (string * string)%type.
Definition zap_String (k v : string) : Field := (k, v).
Definition zap_Error (err : Err) : Field := ("error", err).

(** The value [ctx.Value("eventId")] of a [context.Context]: absent
    ([nil]), a string, or a value of another dynamic type. *)
Inductive CtxValue := CtxString (id : string) | CtxOther.
Definition Context := option CtxValue.

(** How a call of the source leaves: by returning, or by
    [ShutdownWithError], which ends the process. *)
Inductive Outcome (A : Type) :=
| Returned (a : A)
| ShutdownWithError (err : Err).
Arguments Returned {A} a.
Arguments ShutdownWithError {A} err.

(** [strings.Join(elems, sep)]. *)
Definition strings_Join (elems : list string) (sep : string) : string :=
  String.concat sep elems.

(** [len(s) > 0] and [len(s) < 1] on Go strings. *)
Definition nonempty (s : string) : bool :=
  match s with EmptyString => false | String _ _ => true end.

(** [gormLogger.LogLevel]. *)
Module gormLogger.
Inductive LogLevel := Silent | Error | Warn | Info.
End gormLogger.

(** [time.Duration]: a signed 64-bit count of nanoseconds. *)
Definition wrap64 (z : Z) : Z := ((z + 2 ^ 63) `mod` 2 ^ 64 - 2 ^ 63)%Z.
Definition time_Millisecond : Z := 1000000%Z.

(** [json.Marshal] on a struct whose serialised fields are strings,
    given the encoder of one string (quoting and escaping are
    [encoding/json]'s): the fields as key and value, in order. *)
Definition json_Marshal (json_string : string → string)
    (fields : list (string * string)) : string :=
  "{" +:+
  strings_Join (map (λ kv, json_string kv.1 +:+ ":" +:+ json_string kv.2)
                  fields) "," +:+
  "}".

(** ** The ORM and the driver

    [C] is the type of [gorm.Config] values of the variant, [W] the
    state of the outside world (server, network, pools); [Opener] is
    the one call that takes a configuration, [Driver] the others.

    - [gorm_Open dsn cfg]: [gorm.Open(clickhouse.Open(dsn), cfg)].  On
      success the handle is not nil; on failure the ORM may still hand
      back a handle next to the error.
    - [gorm_Exec db sql]: [db.Exec(sql)], the returned handle carries
      [Error].
    - [gorm_DB db]: [db.DB()], a getter on the handle: the native
      connection or an error (the ORM returns a nil connection exactly
      when it returns an error).
    - [sql_Close c]: [c.Close()].
    - [sql_Ping c]: [c.Ping()], an observation of the world. *)
Class Opener (C W : Type) := {
  gorm_Open : string → option C → W → (GormDB + option GormDB * Err) * W;
}.

Class Driver (W : Type) := {
  gorm_Exec : GormDB → string → W → GormDB * W;
  gorm_DB : GormDB → SqlDB + Err;
  sql_Close : SqlDB → W → option Err * W;
  sql_Ping : SqlDB → W → option Err;
}.

(** The calls with an outside effect, as they are recorded. *)
Inductive Event (C : Type) :=
| EvOpen (dsn : string) (cfg : option C)
| EvExec (db : GormDB) (sql : string)
| EvClose (c : SqlDB)
| EvInfo (msg : string) (fields : list Field)
| EvError (msg : string) (fields : list Field).
Arguments EvOpen {C} dsn cfg.
Arguments EvExec {C} db sql.
Arguments EvClose {C} c.
Arguments EvInfo {C} msg fields.
Arguments EvError {C} msg fields.

(** ** State passing

    A method with a pointer receiver runs on [Sys]: the receiver
    [self] (the entry behind the pointer), the world and the trace. *)
Record Sys (E C W : Type) := mkSys {
  self : E;
  world : W;
  trace : list (Event C);
}.
Arguments mkSys {E C W} self world trace.
Arguments self {E C W} s.
Arguments world {E C W} s.
Arguments trace {E C W} s.

Definition M (E C W A : Type) : Type := Sys E C W → A * Sys E C W.

Section monad.
Context {E C W : Type} `{!Opener C W} `{!Driver W}.

#[export] Instance M_ret : MRet (M E C W) := λ A a s, (a, s).

#[export] Instance M_bind : MBind (M E C W) :=
  λ A B k m s, let (a, s') := m s in k a s'.

Definition getSelf : M E C W E := λ s, (self s, s).

Definition modifySelf (f : E → E) : M E C W unit :=
  λ s, (tt, mkSys (f (self s)) (world s) (trace s)).

Definition emit (ev : Event C) : M E C W unit :=
  λ s, (tt, mkSys (self s) (world s) (trace s ++ [ev])).

(** [logger.Info(msg, fields...)] and [logger.Error(msg, fields...)]
    on the entry's zap logger. *)
Definition logInfo (msg : string) (fields : list Field) : M E C W unit :=
  emit (EvInfo msg fields).
Definition logError (msg : string) (fields : list Field) : M E C W unit :=
  emit (EvError msg fields).

Definition gormOpen (dsn : string) (cfg : option C)
  : M E C W (GormDB + option GormDB * Err) :=
  λ s, let (r, w) := gorm_Open dsn cfg (world s) in
       (r, mkSys (self s) w (trace s ++ [EvOpen dsn cfg])).

Definition gormExec (db : GormDB) (sql : string) : M E C W GormDB :=
  λ s, let (r, w) := gorm_Exec db sql (world s) in
       (r, mkSys (self s) w (trace s ++ [EvExec db sql])).

Definition sqlClose (c : SqlDB) : M E C W (option Err) :=
  λ s, let (r, w) := sql_Close c (world s) in
       (r, mkSys (self s) w (trace s ++ [EvClose c])).
End monad.


(** * The later variant (rk-entry v2) *)
Module Later.

Definition ClickHouseEntryType : string := "ClickHouseEntry".

(** Modelled from the spec: the [Logger] adapter is declared in the
    package's logger file, which is not among the sources.  The spec
    gives it a delegate structured logger, a slow-query threshold, a
    minimum level and a flag for record-not-found; these are the four
    fields the registration sets.  The registration always sets the
    entry's [logger] and its [delegate], so both are taken non-nil. *)
Record Logger := mkLogger {
  delegate : ZapLogger;
  SlowThreshold : Z;
  LogLevel : gormLogger.LogLevel;
  IgnoreRecordNotFoundError : bool;
}.

(** Modelled from the spec: [plugins.PromConfig] and
    [plugins.TraceConfig] are declared in the package's plugins
    directory, which is not among the sources; the spec names them as
    the optional plugin sub-configs of a database declaration.  The
    fields are the ones the registration reads and writes. *)
Record PromConfig := mkPromConfig {
  prom_Enabled : bool; prom_DbAddr : string;
  prom_DbName : string; prom_DbType : string;
}.
Record TraceConfig := mkTraceConfig {
  trace_Enabled : bool; trace_DbAddr : string;
  trace_DbName : string; trace_DbType : string;
}.

(** Modelled from the spec: a [gorm.Plugin] value is what
    [plugins.NewProm] and [plugins.NewTrace] (not among the sources)
    build from their configuration, or a plugin of the caller. *)
Inductive Plugin :=
| NewProm (cfg : PromConfig)
| NewTrace (cfg : TraceConfig)
| UserPlugin (id : nat).

Record databaseInner := mkInner {
  name : string;
  dryRun : bool;
  autoCreate : bool;
  params : list string;
  plugins : list Plugin;
}.

(** [gorm.Config] as the entry fills it. *)
Record GormConfig := mkConfig { cfg_Logger : Logger; cfg_DryRun : bool }.

Record ClickHouseEntry := mkEntry {
  entryName : string;
  entryType : string;
  entryDescription : string;
  User : string;
  pass : string;
  logger : Logger;
  Addr : string;
  innerDbList : list databaseInner;
  GormDbMap : gmap string GormDB;
  GormConfigMap : gmap string GormConfig;
}.

(** Field assignments through the entry pointer. *)
Definition set_entryName (v : string) (e : ClickHouseEntry) :=
  mkEntry v (entryType e) (entryDescription e) (User e) (pass e) (logger e)
    (Addr e) (innerDbList e) (GormDbMap e) (GormConfigMap e).
Definition set_entryDescription (v : string) (e : ClickHouseEntry) :=
  mkEntry (entryName e) (entryType e) v (User e) (pass e) (logger e)
    (Addr e) (innerDbList e) (GormDbMap e) (GormConfigMap e).
Definition set_User (v : string) (e : ClickHouseEntry) :=
  mkEntry (entryName e) (entryType e) (entryDescription e) v (pass e)
    (logger e) (Addr e) (innerDbList e) (GormDbMap e) (GormConfigMap e).
Definition set_pass (v : string) (e : ClickHouseEntry) :=
  mkEntry (entryName e) (entryType e) (entryDescription e) (User e) v
    (logger e) (Addr e) (innerDbList e) (GormDbMap e) (GormConfigMap e).
Definition set_logger (v : Logger) (e : ClickHouseEntry) :=
  mkEntry (entryName e) (entryType e) (entryDescription e) (User e) (pass e)
    v (Addr e) (innerDbList e) (GormDbMap e) (GormConfigMap e).
Definition set_Addr (v : string) (e : ClickHouseEntry) :=
  mkEntry (entryName e) (entryType e) (entryDescription e) (User e) (pass e)
    (logger e) v (innerDbList e) (GormDbMap e) (GormConfigMap e).
Definition set_innerDbList (v : list databaseInner) (e : ClickHouseEntry) :=
  mkEntry (entryName e) (entryType e) (entryDescription e) (User e) (pass e)
    (logger e) (Addr e) v (GormDbMap e) (GormConfigMap e).
Definition set_GormDbMap (v : gmap string GormDB) (e : ClickHouseEntry) :=
  mkEntry (entryName e) (entryType e) (entryDescription e) (User e) (pass e)
    (logger e) (Addr e) (innerDbList e) v (GormConfigMap e).
Definition set_GormConfigMap (v : gmap string GormConfig)
    (e : ClickHouseEntry) :=
  mkEntry (entryName e) (entryType e) (entryDescription e) (User e) (pass e)
    (logger e) (Addr e) (innerDbList e) (GormDbMap e) v.

(** ** Options *)

(** [type Option]: a function on the entry pointer, here the entry
    after the call. *)
Definition Option := ClickHouseEntry → ClickHouseEntry.

Definition WithName (name : string) : Option :=
  λ entry, set_entryName name entry.

Definition WithDescription (description : string) : Option :=
  λ entry, set_entryDescription description entry.

Definition WithUser (user : string) : Option :=
  λ m, if nonempty user then set_User user m else m.

Definition WithPass (pass : string) : Option :=
  λ m, if nonempty pass then set_pass pass m else m.

Definition WithAddr (addr : string) : Option :=
  λ m, if nonempty addr then set_Addr addr m else m.

Definition WithDatabase (name : string) (dryRun autoCreate : bool)
    (params : list string) : Option :=
  λ m,
    if negb (nonempty name) then m
    else
      let innerDb := mkInner name dryRun autoCreate ([] ++ params) [] in
      set_innerDbList (innerDbList m ++ [innerDb]) m.

(** [plugin] is an interface value, [None] for [nil]. *)
Definition WithPlugin (name : string) (plugin : option Plugin) : Option :=
  λ entry,
    match plugin with
    | None => entry
    | Some p =>
        if bool_decide (name = EmptyString) then entry
        else
          set_innerDbList
            (map (λ inner,
                    if bool_decide (Later.name inner = name)
                    then mkInner (Later.name inner) (dryRun inner)
                           (autoCreate inner) (params inner)
                           (plugins inner ++ [p])
                    else inner)
                 (innerDbList entry))
            entry
    end.

(** [logger] is a pointer, [None] for [nil]. *)
Definition WithLogger (logger : option Logger) : Option :=
  λ m, match logger with Some l => set_logger l m | None => m end.

(** ** The host: [rkentry.GlobalAppCtx], [rklogger], [os], [filepath]

    [LoggerEntryPtr] is a [*rkentry.LoggerEntry]; the object behind it
    lives in the host state [H] and is read and written through
    [loadLoggerEntry] and [storeLoggerEntry].  [IsValidDomain] reads
    the environment of the process, [os_Getwd] its working directory;
    the other methods are the library calls of the same name. *)
Definition LoggerEntryPtr := nat.

Record ZapConfig := mkZapConfig {
  zc_Encoding : string;
  zc_OutputPaths : list string;
  zc_rest : nat;
}.

Record LoggerEntry := mkLoggerEntry {
  le_Logger : ZapLogger;
  le_LoggerConfig : ZapConfig;
  le_LumberjackConfig : option nat;
}.

Class Host (H : Type) := {
  AddEntry : ClickHouseEntry → H → H;
  GetLoggerEntry : string → H → option LoggerEntryPtr;
  GetLoggerEntryDefault : H → LoggerEntryPtr;
  loadLoggerEntry : LoggerEntryPtr → H → LoggerEntry;
  storeLoggerEntry : LoggerEntryPtr → LoggerEntry → H → H;
  IsValidDomain : string → H → bool;
  NewLumberjackConfigDefault : nat;
  NewZapLoggerWithConf : ZapConfig → option nat → H → ZapLogger + Err;
  os_Getwd : H → string;
  filepath_IsAbs : string → bool;
  filepath_ToSlash : string → string;
  filepath_Join : string → string → string;
}.

(** ** Registration from code *)
Section registration.
Context {H : Type} `{!Host H}.

Definition describe (entry : ClickHouseEntry) : string :=
  entryType entry +:+ " entry with name of " +:+ entryName entry +:+
  ", addr:" +:+ Addr entry +:+ ", user:" +:+ User entry.

(** The configuration loop at the end of the registration: one
    [gorm.Config] stored under each descriptor's name. *)
Definition defaultConfigs (entry : ClickHouseEntry) : ClickHouseEntry :=
  foldl (λ e innerDb,
           set_GormConfigMap
             (<[name innerDb := mkConfig (logger e) (dryRun innerDb)]>
                (GormConfigMap e)) e)
        entry (innerDbList entry).

(** [RegisterClickHouseEntry(opts...)]: the entry and the host after
    [AddEntry].  The registry keeps the pointer; what it is given here
    is the entry as it stands at registration. *)
Definition RegisterClickHouseEntry (opts : list Option) (h : H)
    : ClickHouseEntry * H :=
  let entry :=
    mkEntry "ClickHouse" ClickHouseEntryType "ClickHouse entry for gorm.DB"
      "default" EmptyString
      (mkLogger (le_Logger (loadLoggerEntry (GetLoggerEntryDefault h) h))
         (5000 * time_Millisecond)%Z gormLogger.Warn false)
      "localhost:9000" [] ∅ ∅ in
  let entry := foldl (λ e opt, opt e) entry opts in
  let entry :=
    if negb (nonempty (entryDescription entry))
    then set_entryDescription (describe entry) entry
    else entry in
  let entry := defaultConfigs entry in
  (entry, AddEntry entry h).
End registration.

(** ** Accessors and the diagnostic string *)

Definition GetName (entry : ClickHouseEntry) : string := entryName entry.
Definition GetType (entry : ClickHouseEntry) : string := entryType entry.
Definition GetDescription (entry : ClickHouseEntry) : string :=
  entryDescription entry.

(** [entry.GormDbMap[name]], [None] for the nil handle. *)
Definition GetDB (entry : ClickHouseEntry) (name : string) : option GormDB :=
  GormDbMap entry !! name.

(** The fields [encoding/json] sees: every exported field of the
    struct carries the tag [json:"-"], the others are unexported. *)
Definition jsonFields (entry : ClickHouseEntry) : list (string * string) :=
  [].

Section diagnostics.
Variable json_string : string → string.

Definition String (entry : ClickHouseEntry) : string :=
  let bytes := json_Marshal json_string (jsonFields entry) in
  if negb (nonempty bytes) then "{}" else bytes.
End diagnostics.

(** ** Lifecycle *)
Section lifecycle.
Context {W : Type} `{!Opener GormConfig W} `{!Driver W}.

#[local] Abbreviation Run := (M ClickHouseEntry GormConfig W).

Definition closeDB (db : option GormDB) : Run unit :=
  match db with
  | Some d =>
      match gorm_DB d with
      | inl inner => sqlClose inner ;; mret tt
      | inr _ => mret tt
      end
  | None => mret tt
  end.

(** The fields both [Bootstrap] and [Interrupt] log. *)
Definition eventFields (ctx : Context) (entry : ClickHouseEntry)
    : list Field :=
  match ctx with
  | Some (CtxString id) => [zap_String "eventId" id]
  | _ => []
  end ++
  [zap_String "entryName" (entryName entry);
   zap_String "entryType" (entryType entry)].

(** One turn of the loop of [connect]: [Some err] is the early
    [return err], [None] falls through to the next descriptor. *)
Definition connectOne (innerDb : databaseInner) : Run (option Err) :=
  entry ← getSelf;
  let credentialParams := [User entry; pass entry] in
  created ←
    (if negb (dryRun innerDb) && autoCreate innerDb then
       logInfo ("Creating database [" +:+ name innerDb +:+ "]") [] ;;
       let dsn := "tcp://" +:+ Addr entry +:+ "?" +:+
                  strings_Join credentialParams "&" in
       r ← gormOpen dsn (GormConfigMap entry !! name innerDb);
       match r with
       | inr (db, err) => closeDB db ;; mret (Some err)
       | inl db =>
           let createSQL := "CREATE DATABASE IF NOT EXISTS " +:+ name innerDb in
           db ← gormExec db createSQL;
           match Error db with
           | Some err => closeDB (Some db) ;; mret (Some err)
           | None =>
               closeDB (Some db) ;;
               logInfo ("Creating database [" +:+ name innerDb +:+
                        "] successs") [] ;;
               mret None
           end
       end
     else mret None);
  match created with
  | Some err => mret (Some err)
  | None =>
      logInfo ("Connecting to database [" +:+ name innerDb +:+ "]") [] ;;
      let params := ([name innerDb] ++ credentialParams) ++ params innerDb in
      let dsn := "tcp://" +:+ Addr entry +:+ "?" +:+ strings_Join params "&" in
      r ← gormOpen dsn (GormConfigMap entry !! name innerDb);
      match r with
      | inr (_, err) => mret (Some err)
      | inl db =>
          modifySelf (λ e, set_GormDbMap (<[name innerDb := db]> (GormDbMap e)) e) ;;
          logInfo ("Connecting to database [" +:+ name innerDb +:+
                   "] success") [] ;;
          mret None
      end
  end.

Fixpoint connectLoop (dbs : list databaseInner) : Run (option Err) :=
  match dbs with
  | [] => mret None
  | innerDb :: rest =>
      r ← connectOne innerDb;
      match r with
      | Some err => mret (Some err)
      | None => connectLoop rest
      end
  end.

Definition connect : Run (option Err) :=
  entry ← getSelf;
  connectLoop (innerDbList entry).

Definition shutdownMessage (entry : ClickHouseEntry) : Err :=
  "failed to connect to database at " +:+ User entry +:+ ":" +:+ "****" +:+
  "@" +:+ Addr entry.

Definition Bootstrap (ctx : Context) : Run (Outcome unit) :=
  entry ← getSelf;
  let fields := eventFields ctx entry in
  logInfo "Bootstrap clickHouseEntry" fields ;;
  r ← connect;
  match r with
  | Some err =>
      let fields := fields ++ [zap_Error err] in
      logError "Failed to connect to database" fields ;;
      entry ← getSelf;
      mret (ShutdownWithError (shutdownMessage entry))
  | None => mret (Returned tt)
  end.

(** The handles of the map, in the order the range loop visits them. *)
Definition handles (entry : ClickHouseEntry) : list GormDB :=
  (map_to_list (GormDbMap entry)).*2.

Fixpoint closeAll (dbs : list GormDB) : Run unit :=
  match dbs with
  | [] => mret tt
  | db :: rest => closeDB (Some db) ;; closeAll rest
  end.

Definition Interrupt (ctx : Context) : Run unit :=
  entry ← getSelf;
  closeAll (handles entry) ;;
  let fields := eventFields ctx entry in
  logInfo "Interrupt clickHouseEntry" fields.

(** The loop of [IsHealthy] over a list of handles: the first handle
    without a native connection, or whose connection does not answer
    the ping, returns [false]. *)
Fixpoint healthyAll (w : W) (dbs : list GormDB) : bool :=
  match dbs with
  | [] => true
  | gormDb :: rest =>
      match gorm_DB gormDb with
      | inr _ => false
      | inl db =>
          match sql_Ping db w with
          | Some _ => false
          | None => healthyAll w rest
          end
      end
  end.

Definition IsHealthy (entry : ClickHouseEntry) (w : W) : bool :=
  healthyAll w (handles entry).
End lifecycle.

(** ** Registration from the boot configuration *)

(** The structs the YAML is unmarshalled into ([BootConfig] is the list
    of [BootConfigE] under the key [clickhouse]). *)
Module BootDatabase.
Record t := mk {
  Name : string;
  Params : list string;
  DryRun : bool;
  AutoCreate : bool;
  Plugins_Prom : PromConfig;
  Plugins_Trace : TraceConfig;
}.
End BootDatabase.

Module BootLogger.
Record t := mk {
  Entry : string;
  Level : string;
  Encoding : string;
  OutputPaths : list string;
  SlowThresholdMs : Z;
  IgnoreRecordNotFoundError : bool;
}.
End BootLogger.

Module BootConfigE.
Record t := mk {
  Enabled : bool;
  Name : string;
  Description : string;
  Domain : string;
  User : string;
  Pass : string;
  Addr : string;
  Database : list BootDatabase.t;
  Logger : BootLogger.t;
}.
End BootConfigE.

Definition BootConfig := list BootConfigE.t.

Section yaml.
Context {H : Type} `{!Host H}.

(** The first loop of [RegisterClickHouseEntryYAML]: one turn, on the
    [configMap] built so far. *)
Definition selectStep (h : H) (configMap : gmap string BootConfigE.t)
    (e : BootConfigE.t) : gmap string BootConfigE.t :=
  if negb (BootConfigE.Enabled e) || negb (nonempty (BootConfigE.Name e))
  then configMap
  else if negb (IsValidDomain (BootConfigE.Domain e) h) then configMap
  else
    match configMap !! BootConfigE.Name e with
    | None => <[BootConfigE.Name e := e]> configMap
    | Some _ =>
        if bool_decide (BootConfigE.Domain e = EmptyString)
           || bool_decide (BootConfigE.Domain e = "*")
        then configMap
        else <[BootConfigE.Name e := e]> configMap
    end.

Definition selectBlocks (h : H) (config : BootConfig)
    : gmap string BootConfigE.t :=
  foldl (selectStep h) ∅ config.

Definition toAbsPath (p : list string) (h : H) : list string :=
  foldl (λ res x,
           if filepath_IsAbs (filepath_ToSlash x)
              || bool_decide (x = "stdout") || bool_decide (x = "stderr")
           then res ++ [x]
           else res ++ [filepath_ToSlash (filepath_Join (os_Getwd h) x)])
        [] p.

Definition logLevelOf (level : string) : gormLogger.LogLevel :=
  if bool_decide (level = "info") then gormLogger.Info
  else if bool_decide (level = "warn") then gormLogger.Warn
  else if bool_decide (level = "error") then gormLogger.Error
  else if bool_decide (level = "silent") then gormLogger.Silent
  else gormLogger.Warn.

Definition slowThresholdOf (ms : Z) : Z :=
  if (0 <? ms)%Z then wrap64 (ms * time_Millisecond) else (5000 * time_Millisecond)%Z.

(** The zap logger the adapter delegates to; [ShutdownWithError] when
    the logger with the overridden configuration cannot be built. *)
Definition resolveDelegate (lg : BootLogger.t) (h : H)
    : Outcome ZapLogger * H :=
  let loggerEntry :=
    match GetLoggerEntry (BootLogger.Entry lg) h with
    | Some p => p
    | None => GetLoggerEntryDefault h
    end in
  if bool_decide (BootLogger.Encoding lg = "json")
     || (0 <? length (BootLogger.OutputPaths lg))
  then
    let h :=
      if bool_decide (BootLogger.Encoding lg = "json") then
        let le := loadLoggerEntry loggerEntry h in
        storeLoggerEntry loggerEntry
          (mkLoggerEntry (le_Logger le)
             (mkZapConfig "json" (zc_OutputPaths (le_LoggerConfig le))
                (zc_rest (le_LoggerConfig le)))
             (le_LumberjackConfig le)) h
      else h in
    let h :=
      if (0 <? length (BootLogger.OutputPaths lg)) then
        let le := loadLoggerEntry loggerEntry h in
        storeLoggerEntry loggerEntry
          (mkLoggerEntry (le_Logger le)
             (mkZapConfig (zc_Encoding (le_LoggerConfig le))
                (toAbsPath (BootLogger.OutputPaths lg) h)
                (zc_rest (le_LoggerConfig le)))
             (le_LumberjackConfig le)) h
      else h in
    let h :=
      let le := loadLoggerEntry loggerEntry h in
      match le_LumberjackConfig le with
      | None =>
          storeLoggerEntry loggerEntry
            (mkLoggerEntry (le_Logger le) (le_LoggerConfig le)
               (Some NewLumberjackConfigDefault)) h
      | Some _ => h
      end in
    let le := loadLoggerEntry loggerEntry h in
    match NewZapLoggerWithConf (le_LoggerConfig le) (le_LumberjackConfig le) h with
    | inr err => (ShutdownWithError err, h)
    | inl newLogger => (Returned (WithCaller newLogger), h)
    end
  else
    (Returned (WithCaller (le_Logger (loadLoggerEntry loggerEntry h))), h).

(** The options of one database section, appended in order. *)
Definition databaseOptions (element : BootConfigE.t) (db : BootDatabase.t)
    : list Option :=
  [WithDatabase (BootDatabase.Name db) (BootDatabase.DryRun db)
     (BootDatabase.AutoCreate db) (BootDatabase.Params db)] ++
  (if trace_Enabled (BootDatabase.Plugins_Trace db) then
     [WithPlugin (BootDatabase.Name db)
        (Some (NewTrace (mkTraceConfig
                 (trace_Enabled (BootDatabase.Plugins_Trace db))
                 (BootConfigE.Addr element) (BootDatabase.Name db)
                 "postgresql")))]
   else []) ++
  (if prom_Enabled (BootDatabase.Plugins_Prom db) then
     [WithPlugin (BootDatabase.Name db)
        (Some (NewProm (mkPromConfig
                 (prom_Enabled (BootDatabase.Plugins_Prom db))
                 (BootConfigE.Addr element) (BootDatabase.Name db)
                 "clickhouse")))]
   else []).

Definition optionsOf (element : BootConfigE.t) (logger : Logger)
    : list Option :=
  foldl (λ opts db, opts ++ databaseOptions element db)
    [WithName (BootConfigE.Name element);
     WithDescription (BootConfigE.Description element);
     WithUser (BootConfigE.User element);
     WithPass (BootConfigE.Pass element);
     WithAddr (BootConfigE.Addr element);
     WithLogger (Some logger)]
    (BootConfigE.Database element).

(** The second loop, over the selected blocks. *)
Fixpoint registerAll (elements : list BootConfigE.t)
    (res : gmap string ClickHouseEntry) (h : H)
    : Outcome (gmap string ClickHouseEntry) * H :=
  match elements with
  | [] => (Returned res, h)
  | element :: rest =>
      let lg := BootConfigE.Logger element in
      match resolveDelegate lg h with
      | (ShutdownWithError err, h) => (ShutdownWithError err, h)
      | (Returned delegate, h) =>
          let logger :=
            mkLogger delegate
              (slowThresholdOf (BootLogger.SlowThresholdMs lg))
              (logLevelOf (BootLogger.Level lg))
              (BootLogger.IgnoreRecordNotFoundError lg) in
          let (entry, h) :=
            RegisterClickHouseEntry (optionsOf element logger) h in
          registerAll rest (<[BootConfigE.Name element := entry]> res) h
      end
  end.

(** [RegisterClickHouseEntryYAML], from the unmarshalled configuration;
    the selected blocks are visited in the order of [map_to_list]. *)
Definition RegisterClickHouseEntryYAML (config : BootConfig) (h : H)
    : Outcome (gmap string ClickHouseEntry) * H :=
  registerAll (map_to_list (selectBlocks h config)).*2 ∅ h.
End yaml.

(** ** Lookup in the registry *)

(** An [rkentry.Entry] interface value as the registry hands it back:
    an entry of this package, or an entry of another type. *)
Inductive AnyEntry :=
| IsClickHouse (entry : ClickHouseEntry)
| OtherEntry (id : nat).

(** [rkentry.GlobalAppCtx.GetEntry(entryType, name)], [None] for nil. *)
Class Registry (H : Type) := {
  GetEntry : string → string → H → option AnyEntry;
}.

Definition GetClickHouseEntry {H : Type} `{!Registry H} (name : string)
    (h : H) : option ClickHouseEntry :=
  match GetEntry ClickHouseEntryType name h with
  | Some raw =>
      match raw with
      | IsClickHouse entry => Some entry
      | OtherEntry _ => None
      end
  | None => None
  end.

(** ** Prometheus metrics *)

(** A [prometheus.Collector]. *)
Definition Collector := nat.

(** The metrics set of the Prom plugin built from a configuration
    ([v.MetricsSet.ListGauges()] and the like) and
    [registry.Register]. *)
Class Prometheus (R : Type) := {
  ListGauges : PromConfig → list Collector;
  ListCounters : PromConfig → list Collector;
  ListSummaries : PromConfig → list Collector;
  ListHistograms : PromConfig → list Collector;
  registry_Register : Collector → R → option Err * R;
}.

Section metrics.
Context {R : Type} `{!Prometheus R}.

(** One loop over a list of collectors, with its early return. *)
Fixpoint registerEach (cs : list Collector) (r : R) : option Err * R :=
  match cs with
  | [] => (None, r)
  | c :: cs =>
      match registry_Register c r with
      | (Some err, r) => (Some err, r)
      | (None, r) => registerEach cs r
      end
  end.

(** The body of the type switch for a Prom plugin: gauges, counters,
    summaries, histograms. *)
Definition registerProm (v : PromConfig) (r : R) : option Err * R :=
  match registerEach (ListGauges v) r with
  | (Some err, r) => (Some err, r)
  | (None, r) =>
      match registerEach (ListCounters v) r with
      | (Some err, r) => (Some err, r)
      | (None, r) =>
          match registerEach (ListSummaries v) r with
          | (Some err, r) => (Some err, r)
          | (None, r) => registerEach (ListHistograms v) r
          end
      end
  end.

(** The loop over the plugins of one descriptor. *)
Fixpoint registerPlugins (ps : list Plugin) (r : R) : option Err * R :=
  match ps with
  | [] => (None, r)
  | p :: ps =>
      match
        match p with
        | NewProm v => registerProm v r
        | _ => (None, r)
        end
      with
      | (Some err, r) => (Some err, r)
      | (None, r) => registerPlugins ps r
      end
  end.

(** The loop over the descriptors. *)
Fixpoint registerDescriptors (dbs : list databaseInner) (r : R)
    : option Err * R :=
  match dbs with
  | [] => (None, r)
  | innerDb :: dbs =>
      match registerPlugins (plugins innerDb) r with
      | (Some err, r) => (Some err, r)
      | (None, r) => registerDescriptors dbs r
      end
  end.

Definition RegisterPromMetrics (entry : ClickHouseEntry) (registry : R)
    : option Err * R :=
  registerDescriptors (innerDbList entry) registry.
End metrics.

End Later.

(** * The early variant ([clickhouse/boot.go], rk-entry v1) *)
Module Early.

(** [*rkentry.ZapLoggerEntry], of which the entry uses [Logger]. *)
Record ZapLoggerEntry := mkZapLoggerEntry { zle_Logger : ZapLogger }.

(** [logger.New(NewLogger(zap), logger.Config{...})]: the ORM's own
    logger with the configuration of the source, writing through the
    package's [NewLogger] (not among the sources) to the zap logger. *)
Record GormLogger := mkGormLogger {
  writer : ZapLogger;
  SlowThreshold : Z;
  LogLevel : gormLogger.LogLevel;
  IgnoreRecordNotFoundError : bool;
  Colorful : bool;
}.

Record GormConfig := mkConfig { cfg_Logger : GormLogger; cfg_DryRun : bool }.

Record databaseInner := mkInner {
  name : string;
  dryRun : bool;
  autoCreate : bool;
  params : list string;
}.

Record ClickHouseEntry := mkEntry {
  EntryName : string;
  EntryType : string;
  EntryDescription : string;
  User : string;
  pass : string;
  zapLoggerEntry : ZapLoggerEntry;
  Addr : string;
  innerDbList : list databaseInner;
  GormDbMap : gmap string GormDB;
  GormConfigMap : gmap string GormConfig;
}.

Definition set_EntryName (v : string) (e : ClickHouseEntry) :=
  mkEntry v (EntryType e) (EntryDescription e) (User e) (pass e)
    (zapLoggerEntry e) (Addr e) (innerDbList e) (GormDbMap e)
    (GormConfigMap e).
Definition set_EntryDescription (v : string) (e : ClickHouseEntry) :=
  mkEntry (EntryName e) (EntryType e) v (User e) (pass e)
    (zapLoggerEntry e) (Addr e) (innerDbList e) (GormDbMap e)
    (GormConfigMap e).
Definition set_User (v : string) (e : ClickHouseEntry) :=
  mkEntry (EntryName e) (EntryType e) (EntryDescription e) v (pass e)
    (zapLoggerEntry e) (Addr e) (innerDbList e) (GormDbMap e)
    (GormConfigMap e).
Definition set_pass (v : string) (e : ClickHouseEntry) :=
  mkEntry (EntryName e) (EntryType e) (EntryDescription e) (User e) v
    (zapLoggerEntry e) (Addr e) (innerDbList e) (GormDbMap e)
    (GormConfigMap e).
Definition set_zapLoggerEntry (v : ZapLoggerEntry) (e : ClickHouseEntry) :=
  mkEntry (EntryName e) (EntryType e) (EntryDescription e) (User e) (pass e)
    v (Addr e) (innerDbList e) (GormDbMap e) (GormConfigMap e).
Definition set_Addr (v : string) (e : ClickHouseEntry) :=
  mkEntry (EntryName e) (EntryType e) (EntryDescription e) (User e) (pass e)
    (zapLoggerEntry e) v (innerDbList e) (GormDbMap e) (GormConfigMap e).
Definition set_innerDbList (v : list databaseInner) (e : ClickHouseEntry) :=
  mkEntry (EntryName e) (EntryType e) (EntryDescription e) (User e) (pass e)
    (zapLoggerEntry e) (Addr e) v (GormDbMap e) (GormConfigMap e).
Definition set_GormDbMap (v : gmap string GormDB) (e : ClickHouseEntry) :=
  mkEntry (EntryName e) (EntryType e) (EntryDescription e) (User e) (pass e)
    (zapLoggerEntry e) (Addr e) (innerDbList e) v (GormConfigMap e).
Definition set_GormConfigMap (v : gmap string GormConfig)
    (e : ClickHouseEntry) :=
  mkEntry (EntryName e) (EntryType e) (EntryDescription e) (User e) (pass e)
    (zapLoggerEntry e) (Addr e) (innerDbList e) (GormDbMap e) v.

(** ** Options *)
Definition Option := ClickHouseEntry → ClickHouseEntry.

Definition WithName (name : string) : Option :=
  λ entry, set_EntryName name entry.

Definition WithDescription (description : string) : Option :=
  λ entry, set_EntryDescription description entry.

Definition WithUser (user : string) : Option :=
  λ m, if nonempty user then set_User user m else m.

Definition WithPass (pass : string) : Option :=
  λ m, if nonempty pass then set_pass pass m else m.

Definition WithAddr (addr : string) : Option :=
  λ m, if nonempty addr then set_Addr addr m else m.

Definition WithDatabase (name : string) (dryRun autoCreate : bool)
    (params : list string) : Option :=
  λ m,
    if negb (nonempty name) then m
    else
      let innerDb := mkInner name dryRun autoCreate ([] ++ params) in
      set_innerDbList (innerDbList m ++ [innerDb]) m.

(** [entry] is a pointer, [None] for [nil]. *)
Definition WithZapLoggerEntry (entry : option ZapLoggerEntry) : Option :=
  λ m, match entry with Some l => set_zapLoggerEntry l m | None => m end.

(** ** Registration from code *)
Class Host (H : Type) := {
  AddEntry : ClickHouseEntry → H → H;
  GetZapLoggerEntryDefault : H → ZapLoggerEntry;
}.

Section registration.
Context {H : Type} `{!Host H}.

Definition describe (entry : ClickHouseEntry) : string :=
  EntryType entry +:+ " entry with name of " +:+ EntryName entry +:+
  ", addr:" +:+ Addr entry +:+ ", user:" +:+ User entry.

Definition defaultConfigs (entry : ClickHouseEntry) : ClickHouseEntry :=
  foldl (λ e innerDb,
           set_GormConfigMap
             (<[name innerDb :=
                  mkConfig
                    (mkGormLogger (zle_Logger (zapLoggerEntry e))
                       (200 * time_Millisecond)%Z
                       gormLogger.Warn false false)
                    (dryRun innerDb)]>
                (GormConfigMap e)) e)
        entry (innerDbList entry).

Definition RegisterClickHouseEntry (opts : list Option) (h : H)
    : ClickHouseEntry * H :=
  let entry :=
    mkEntry "ClickHouse" "ClickHouse" "ClickHouse entry for gorm.DB"
      "default" EmptyString (GetZapLoggerEntryDefault h)
      "localhost:9000" [] ∅ ∅ in
  let entry := foldl (λ e opt, opt e) entry opts in
  let entry :=
    if negb (nonempty (EntryDescription entry))
    then set_EntryDescription (describe entry) entry
    else entry in
  let entry := defaultConfigs entry in
  (entry, AddEntry entry h).
End registration.

(** ** Accessors and the diagnostic string *)
Definition GetName (entry : ClickHouseEntry) : string := EntryName entry.
Definition GetType (entry : ClickHouseEntry) : string := EntryType entry.
Definition GetDescription (entry : ClickHouseEntry) : string :=
  EntryDescription entry.

Definition GetDB (entry : ClickHouseEntry) (name : string) : option GormDB :=
  GormDbMap entry !! name.

(** The fields [encoding/json] sees, in declaration order: [EntryName]
    and [EntryType] (exported, no json tag), [User] as [user], [Addr]
    as [addr]; [EntryDescription] and the maps carry [json:"-"], the
    others are unexported. *)
Definition jsonFields (entry : ClickHouseEntry) : list (string * string) :=
  [("EntryName", EntryName entry);
   ("EntryType", EntryType entry);
   ("user", User entry);
   ("addr", Addr entry)].

Section diagnostics.
Variable json_string : string → string.

Definition String (entry : ClickHouseEntry) : string :=
  let bytes := json_Marshal json_string (jsonFields entry) in
  if negb (nonempty bytes) then "{}" else bytes.
End diagnostics.

(** ** Lifecycle *)
Section lifecycle.
Context {W : Type} `{!Opener GormConfig W} `{!Driver W}.

#[local] Abbreviation Run := (M ClickHouseEntry GormConfig W).

Definition eventFields (ctx : Context) (entry : ClickHouseEntry)
    : list Field :=
  match ctx with
  | Some (CtxString id) => [zap_String "eventId" id]
  | _ => []
  end ++
  [zap_String "entryName" (EntryName entry);
   zap_String "entryType" (EntryType entry)].

(** One turn of the loop of [connect]; this variant has no [closeDB]. *)
Definition connectOne (innerDb : databaseInner) : Run (option Err) :=
  entry ← getSelf;
  let credentialParams := [User entry; pass entry] in
  created ←
    (if negb (dryRun innerDb) && autoCreate innerDb then
       logInfo ("Creating database [" +:+ name innerDb +:+ "]") [] ;;
       let dsn := "tcp://" +:+ Addr entry +:+ "?" +:+
                  strings_Join credentialParams "&" in
       r ← gormOpen dsn (GormConfigMap entry !! name innerDb);
       match r with
       | inr (_, err) => mret (Some err)
       | inl db =>
           let createSQL := "CREATE DATABASE IF NOT EXISTS " +:+ name innerDb in
           db ← gormExec db createSQL;
           match Error db with
           | Some err => mret (Some err)
           | None =>
               logInfo ("Creating database [" +:+ name innerDb +:+
                        "] successs") [] ;;
               mret None
           end
       end
     else mret None);
  match created with
  | Some err => mret (Some err)
  | None =>
      logInfo ("Connecting to database [" +:+ name innerDb +:+ "]") [] ;;
      let params := ([name innerDb] ++ credentialParams) ++ params innerDb in
      let dsn := "tcp://" +:+ Addr entry +:+ "?" +:+ strings_Join params "&" in
      r ← gormOpen dsn (GormConfigMap entry !! name innerDb);
      match r with
      | inr (_, err) => mret (Some err)
      | inl db =>
          modifySelf (λ e, set_GormDbMap (<[name innerDb := db]> (GormDbMap e)) e) ;;
          logInfo ("Connecting to database [" +:+ name innerDb +:+
                   "] success") [] ;;
          mret None
      end
  end.

Fixpoint connectLoop (dbs : list databaseInner) : Run (option Err) :=
  match dbs with
  | [] => mret None
  | innerDb :: rest =>
      r ← connectOne innerDb;
      match r with
      | Some err => mret (Some err)
      | None => connectLoop rest
      end
  end.

Definition connect : Run (option Err) :=
  entry ← getSelf;
  connectLoop (innerDbList entry).

Definition shutdownMessage (entry : ClickHouseEntry) : Err :=
  "failed to connect to database at " +:+ User entry +:+ ":" +:+ "****" +:+
  "@" +:+ Addr entry.

Definition Bootstrap (ctx : Context) : Run (Outcome unit) :=
  entry ← getSelf;
  let fields := eventFields ctx entry in
  logInfo "Bootstrap clickHouseEntry" fields ;;
  r ← connect;
  match r with
  | Some err =>
      let fields := fields ++ [zap_Error err] in
      logError "Failed to connect to database" fields ;;
      entry ← getSelf;
      mret (ShutdownWithError (shutdownMessage entry))
  | None => mret (Returned tt)
  end.

(** [Interrupt] of this variant only logs. *)
Definition Interrupt (ctx : Context) : Run unit :=
  entry ← getSelf;
  let fields := eventFields ctx entry in
  logInfo "Interrupt clickHouseEntry" fields.

Definition handles (entry : ClickHouseEntry) : list GormDB :=
  (map_to_list (GormDbMap entry)).*2.

Fixpoint healthyAll (w : W) (dbs : list GormDB) : bool :=
  match dbs with
  | [] => true
  | gormDb :: rest =>
      match gorm_DB gormDb with
      | inr _ => false
      | inl db =>
          match sql_Ping db w with
          | Some _ => false
          | None => healthyAll w rest
          end
      end
  end.

Definition IsHealthy (entry : ClickHouseEntry) (w : W) : bool :=
  healthyAll w (handles entry).
End lifecycle.

(** ** Registration from the boot configuration *)

Module BootDatabase.
Record t := mk {
  Name : string;
  Params : list string;
  DryRun : bool;
  AutoCreate : bool;
}.
End BootDatabase.

Module BootConfigE.
Record t := mk {
  Enabled : bool;
  Name : string;
  Description : string;
  Locale : string;
  User : string;
  Pass : string;
  Addr : string;
  Database : list BootDatabase.t;
  Logger_ZapLogger : string;
}.
End BootConfigE.

Definition BootConfig := list BootConfigE.t.

(** An [rkentry.Entry] interface value as the registry hands it back. *)
Inductive AnyEntry :=
| IsClickHouse (entry : ClickHouseEntry)
| OtherEntry (id : nat).

(** [rkcommon.MatchLocaleWithEnv] (it reads the environment of the
    process), [GlobalAppCtx.GetZapLoggerEntry] and
    [GlobalAppCtx.GetEntry], [None] for nil. *)
Class Boot (H : Type) := {
  MatchLocaleWithEnv : string → bool;
  GetZapLoggerEntry : string → H → option ZapLoggerEntry;
  GetEntry : string → H → option AnyEntry;
}.

Section yaml.
Context {H : Type} `{!Host H} `{!Boot H}.

Definition optionsOf (element : BootConfigE.t) (h : H) : list Option :=
  foldl (λ opts db,
           opts ++ [WithDatabase (BootDatabase.Name db)
                      (BootDatabase.DryRun db) (BootDatabase.AutoCreate db)
                      (BootDatabase.Params db)])
    [WithName (BootConfigE.Name element);
     WithDescription (BootConfigE.Description element);
     WithUser (BootConfigE.User element);
     WithPass (BootConfigE.Pass element);
     WithAddr (BootConfigE.Addr element);
     WithZapLoggerEntry
       (GetZapLoggerEntry (BootConfigE.Logger_ZapLogger element) h)]
    (BootConfigE.Database element).

(** One turn of the loop of [RegisterClickHouseEntriesWithConfig], on
    the result map and the host so far. *)
Definition registerStep (acc : gmap string ClickHouseEntry * H)
    (element : BootConfigE.t) : gmap string ClickHouseEntry * H :=
  let (res, h) := acc in
  if negb (nonempty (BootConfigE.Name element))
     || negb (MatchLocaleWithEnv (H := H) (BootConfigE.Locale element))
  then (res, h)
  else
    let (entry, h') := RegisterClickHouseEntry (optionsOf element h) h in
    (<[BootConfigE.Name element := entry]> res, h').

(** [RegisterClickHouseEntriesWithConfig], from the unmarshalled
    configuration. *)
Definition RegisterClickHouseEntriesWithConfig (config : BootConfig) (h : H)
    : gmap string ClickHouseEntry * H :=
  foldl registerStep (∅, h) config.

Definition GetClickHouseEntry (name : string) (h : H)
    : option ClickHouseEntry :=
  match GetEntry name h with
  | Some raw =>
      match raw with
      | IsClickHouse entry => Some entry
      | OtherEntry _ => None
      end
  | None => None
  end.
End yaml.

End Early.

(** * Vocabulary of the statements *)

(** The systems the methods of each variant run on. *)
Abbreviation LSys W := (Sys Later.ClickHouseEntry Later.GormConfig W).
Abbreviation ESys W := (Sys Early.ClickHouseEntry Early.GormConfig W).

Section closing.
Context {C W : Type} `{!Driver W}.

(** The native connection of a handle, when the ORM yields one. *)
Definition native (db : GormDB) : option SqlDB :=
  match gorm_DB db with inl c => Some c | inr _ => None end.

(** A handle answers: it yields its native connection and the
    connection answers the ping. *)
Definition answers (w : W) (db : GormDB) : Prop :=
  ∃ c, gorm_DB db = inl c ∧ sql_Ping c w = None.

(** What a call of [closeDB] leaves in the trace. *)
Definition closeEvents (db : option GormDB) : list (Event C) :=
  match db ≫= native with Some c => [EvClose c] | None => [] end.

(** The world after a call of [closeDB], the error of [Close]
    dropped. *)
Definition closeDB_world (db : option GormDB) (w : W) : W :=
  match db ≫= native with Some c => (sql_Close c w).2 | None => w end.

(** The DSNs of the [gorm.Open] calls of a trace, in order. *)
Definition opened (tr : list (Event C)) : list string :=
  omap (λ ev, match ev with EvOpen dsn _ => Some dsn | _ => None end) tr.

(** The connections of the [Close] calls of a trace, in order. *)
Definition closed (tr : list (Event C)) : list SqlDB :=
  omap (λ ev, match ev with EvClose c => Some c | _ => None end) tr.

(** The world after [Close] on each connection of a list, errors
    dropped. *)
Definition closeWorld (cs : list SqlDB) (w : W) : W :=
  foldl (λ w c, (sql_Close c w).2) w cs.

(** A driver that tolerates repeated and reordered [Close] calls. *)
Definition tolerant : Prop :=
  (∀ c w, (sql_Close c (sql_Close c w).2).2 = (sql_Close c w).2) ∧
  (∀ c c' w, (sql_Close c (sql_Close c' w).2).2
             = (sql_Close c' (sql_Close c w).2).2).
End closing.

Section selection.
Context {H : Type} `{!Later.Host H}.

(** A block that passes the guards of the selection loop. *)
Definition eligible (h : H) (e : Later.BootConfigE.t) : Prop :=
  Later.BootConfigE.Enabled e = true ∧
  Later.BootConfigE.Name e ≠ EmptyString ∧
  Later.IsValidDomain (Later.BootConfigE.Domain e) h = true.

#[global] Instance eligible_dec (h : H) (e : Later.BootConfigE.t)
  : Decision (eligible h e).
Proof. unfold eligible. apply _. Defined.
End selection.

(** A block whose domain is empty or the wildcard. *)
Definition wildcard (e : Later.BootConfigE.t) : Prop :=
  Later.BootConfigE.Domain e = EmptyString ∨ Later.BootConfigE.Domain e = "*".

(** What the selection loop maintains: under each name the map holds a
    block of the configuration read so far that passes the guards, and
    it holds a wildcard block only while no block of that name with a
    specific domain has passed. *)
Definition selected_from {H : Type} `{!Later.Host H} (h : H)
    (config : Later.BootConfig) (m : gmap string Later.BootConfigE.t)
    : Prop :=
  ∀ n,
    match m !! n with
    | None =>
        ∀ e, e ∈ config → eligible h e → Later.BootConfigE.Name e ≠ n
    | Some x =>
        x ∈ config ∧ eligible h x ∧ Later.BootConfigE.Name x = n ∧
        (wildcard x →
         ∀ e, e ∈ config → eligible h e → Later.BootConfigE.Name e = n →
              wildcard e)
    end.

(** A per-database declaration: name, dry-run, auto-create, params. *)
Record declaration := declare {
  decl_name : string;
  decl_dryRun : bool;
  decl_autoCreate : bool;
  decl_params : list string;
}.

Definition declaredOption (d : declaration) : Later.Option :=
  Later.WithDatabase (decl_name d) (decl_dryRun d) (decl_autoCreate d)
    (decl_params d).

Definition declaredInner (d : declaration) : Later.databaseInner :=
  Later.mkInner (decl_name d) (decl_dryRun d) (decl_autoCreate d)
    (decl_params d) [].

(** ** Vocabulary for the rest of the package *)

(** What a descriptor was declared with. *)
Definition declared (d : Later.databaseInner)
    : string * bool * bool * list string :=
  (Later.name d, Later.dryRun d, Later.autoCreate d, Later.params d).

(** The entry the registration starts from, and the entry after the
    options and the description step (before the configurations are
    created). *)
Definition Later_initial {H : Type} `{!Later.Host H} (h : H)
    : Later.ClickHouseEntry :=
  Later.mkEntry "ClickHouse" Later.ClickHouseEntryType
    "ClickHouse entry for gorm.DB" "default" EmptyString
    (Later.mkLogger
       (Later.le_Logger (Later.loadLoggerEntry (Later.GetLoggerEntryDefault h) h))
       (5000 * time_Millisecond)%Z gormLogger.Warn false)
    "localhost:9000" [] ∅ ∅.

Definition Later_described (entry : Later.ClickHouseEntry)
    : Later.ClickHouseEntry :=
  if negb (nonempty (Later.entryDescription entry))
  then Later.set_entryDescription (Later.describe entry) entry
  else entry.

Definition Early_initial {H : Type} `{!Early.Host H} (h : H)
    : Early.ClickHouseEntry :=
  Early.mkEntry "ClickHouse" "ClickHouse" "ClickHouse entry for gorm.DB"
    "default" EmptyString (Early.GetZapLoggerEntryDefault h)
    "localhost:9000" [] ∅ ∅.

Definition Early_described (entry : Early.ClickHouseEntry)
    : Early.ClickHouseEntry :=
  if negb (nonempty (Early.EntryDescription entry))
  then Early.set_EntryDescription (Early.describe entry) entry
  else entry.

(** What a database section of the boot configuration declares. *)
Definition sectionDeclared (db : Later.BootDatabase.t)
    : string * bool * bool * list string :=
  (Later.BootDatabase.Name db, Later.BootDatabase.DryRun db,
   Later.BootDatabase.AutoCreate db, Later.BootDatabase.Params db).

(** An entry that carries what a block of the boot configuration says:
    the block's name, its user and address or the defaults when they
    are empty, its password, the given logger, its description or the
    formatted one, one descriptor per database section with a name, in
    order, and no handle. *)
Definition built_from (element : Later.BootConfigE.t) (lg : Later.Logger)
    (e : Later.ClickHouseEntry) : Prop :=
  Later.GetName e = Later.BootConfigE.Name element ∧
  Later.GetType e = Later.ClickHouseEntryType ∧
  Later.User e
  = (if nonempty (Later.BootConfigE.User element)
     then Later.BootConfigE.User element else "default") ∧
  Later.pass e = Later.BootConfigE.Pass element ∧
  Later.Addr e
  = (if nonempty (Later.BootConfigE.Addr element)
     then Later.BootConfigE.Addr element else "localhost:9000") ∧
  Later.logger e = lg ∧
  Later.GetDescription e
  = (if nonempty (Later.BootConfigE.Description element)
     then Later.BootConfigE.Description element else Later.describe e) ∧
  declared <$> Later.innerDbList e
  = sectionDeclared <$>
    filter (λ db, nonempty (Later.BootDatabase.Name db))
      (Later.BootConfigE.Database element) ∧
  Later.GormDbMap e = ∅.

(** The logger adapter carries what the logger section of a block
    says. *)
Definition logger_from (lg : Later.BootLogger.t) (l : Later.Logger) : Prop :=
  Later.LogLevel l = Later.logLevelOf (Later.BootLogger.Level lg) ∧
  Later.SlowThreshold l
  = Later.slowThresholdOf (Later.BootLogger.SlowThresholdMs lg) ∧
  Later.IgnoreRecordNotFoundError l
  = Later.BootLogger.IgnoreRecordNotFoundError lg.

(** A block that leaves the encoding and the output paths of its zap
    logger alone. *)
Definition plain_logger (element : Later.BootConfigE.t) : Prop :=
  Later.BootLogger.Encoding (Later.BootConfigE.Logger element) ≠ "json" ∧
  Later.BootLogger.OutputPaths (Later.BootConfigE.Logger element) = [].

(** The options the package exports. *)
Inductive standard : Later.Option → Prop :=
| standard_WithName n : standard (Later.WithName n)
| standard_WithDescription d : standard (Later.WithDescription d)
| standard_WithUser u : standard (Later.WithUser u)
| standard_WithPass p : standard (Later.WithPass p)
| standard_WithAddr a : standard (Later.WithAddr a)
| standard_WithDatabase n dryRun autoCreate params :
    standard (Later.WithDatabase n dryRun autoCreate params)
| standard_WithPlugin n p : standard (Later.WithPlugin n p)
| standard_WithLogger l : standard (Later.WithLogger l).

(** The DSNs of [connect]: the one with the credentials only, the one
    of a descriptor, and the ones a list of descriptors asks for, in
    order. *)
Definition auxDsn (e : Later.ClickHouseEntry) : string :=
  "tcp://" +:+ Later.Addr e +:+ "?" +:+
  strings_Join [Later.User e; Later.pass e] "&".

Definition dsn (e : Later.ClickHouseEntry) (d : Later.databaseInner)
    : string :=
  "tcp://" +:+ Later.Addr e +:+ "?" +:+
  strings_Join (([Later.name d] ++ [Later.User e; Later.pass e])
                ++ Later.params d) "&".

Definition dsnsOf (e : Later.ClickHouseEntry) (d : Later.databaseInner)
    : list string :=
  (if negb (Later.dryRun d) && Later.autoCreate d then [auxDsn e] else [])
  ++ [dsn e d].

Definition dsns (e : Later.ClickHouseEntry) (l : list Later.databaseInner)
    : list string :=
  l ≫= dsnsOf e.

(** A trace in which no [gorm.Open] was given a nil configuration. *)
Definition configured {C : Type} (tr : list (Event C)) : Prop :=
  ∀ dsn, EvOpen dsn None ∉ tr.

(** A registry that hands back what was added, under its type and
    name. *)
Definition keeps_entries {H : Type} `{!Later.Host H} `{!Later.Registry H}
    : Prop :=
  ∀ e h,
    Later.GetEntry (Later.entryType e) (Later.entryName e)
      (Later.AddEntry e h)
    = Some (Later.IsClickHouse e).

Section collectors.
Context {R : Type} `{!Later.Prometheus R}.

(** The collectors [RegisterPromMetrics] goes through, in order. *)
Definition collectorsOf (p : Later.Plugin) : list Later.Collector :=
  match p with
  | Later.NewProm v =>
      Later.ListGauges v ++ Later.ListCounters v ++ Later.ListSummaries v
      ++ Later.ListHistograms v
  | _ => []
  end.

Definition collectors (e : Later.ClickHouseEntry) : list Later.Collector :=
  Later.innerDbList e ≫= (λ d, Later.plugins d ≫= collectorsOf).
End collectors.

(** A block of the early configuration that passes the guard of the
    loop. *)
Definition passes {H : Type} `{!Early.Boot H} (element : Early.BootConfigE.t)
    : bool :=
  nonempty (Early.BootConfigE.Name element)
  && Early.MatchLocaleWithEnv (H := H) (Early.BootConfigE.Locale element).

(** The descriptor a database section of the early configuration
    declares, and an entry that carries what a block says. *)
Definition Early_sectionInner (db : Early.BootDatabase.t)
    : Early.databaseInner :=
  Early.mkInner (Early.BootDatabase.Name db) (Early.BootDatabase.DryRun db)
    (Early.BootDatabase.AutoCreate db) (Early.BootDatabase.Params db).

Definition Early_built_from (element : Early.BootConfigE.t)
    (e : Early.ClickHouseEntry) : Prop :=
  Early.GetName e = Early.BootConfigE.Name element ∧
  Early.GetType e = "ClickHouse" ∧
  Early.User e
  = (if nonempty (Early.BootConfigE.User element)
     then Early.BootConfigE.User element else "default") ∧
  Early.pass e = Early.BootConfigE.Pass element ∧
  Early.Addr e
  = (if nonempty (Early.BootConfigE.Addr element)
     then Early.BootConfigE.Addr element else "localhost:9000") ∧
  Early.GetDescription e
  = (if nonempty (Early.BootConfigE.Description element)
     then Early.BootConfigE.Description element else Early.describe e) ∧
  Early.innerDbList e
  = Early_sectionInner <$>
    filter (λ db, nonempty (Early.BootDatabase.Name db))
      (Early.BootConfigE.Database element) ∧
  Early.GormDbMap e = ∅.

Definition setEnabled (b : bool) (element : Early.BootConfigE.t)
    : Early.BootConfigE.t :=
  Early.BootConfigE.mk b (Early.BootConfigE.Name element)
    (Early.BootConfigE.Description element)
    (Early.BootConfigE.Locale element) (Early.BootConfigE.User element)
    (Early.BootConfigE.Pass element) (Early.BootConfigE.Addr element)
    (Early.BootConfigE.Database element)
    (Early.BootConfigE.Logger_ZapLogger element).

(** * A simulated server and host, to run the model on *)
Module Sim.

(** [next] numbers the handles; [live] are the open native
    connections; the server refuses the DSNs of [refused] and rejects
    the statements of [rejected].  A call of [gorm.Open] with a nil
    configuration is answered like any other; the examples below never
    make one. *)
Record World := mkWorld {
  next : nat;
  live : list SqlDB;
  refused : list string;
  rejected : list string;
}.

#[global] Instance opener (C : Type) : Opener C World := {|
  gorm_Open dsn cfg w :=
    if bool_decide (dsn ∈ refused w)
    then (inr (None, "dial tcp: connection refused"), w)
    else (inl (mkGormDB (next w) None),
          mkWorld (S (next w)) (next w :: live w) (refused w) (rejected w));
|}.

#[global] Instance driver : Driver World := {|
  gorm_Exec db sql w :=
    (mkGormDB (handle db)
       (if bool_decide (sql ∈ rejected w)
        then Some "code: 497, not enough privileges" else None), w);
  gorm_DB db := inl (handle db);
  sql_Close c w :=
    (None,
     mkWorld (next w) (filter (λ x, x ≠ c) (live w)) (refused w) (rejected w));
  sql_Ping c w :=
    if bool_decide (c ∈ live w) then None else Some "sql: database is closed";
|}.

Definition fresh : World := mkWorld 0 [] [] [].

(** A server that refuses the given DSNs. *)
Definition refusing (dsns : list string) : World := mkWorld 0 [] dsns [].

(** The host: the entries added so far and the value of [DOMAIN].
    Its [filepath.Join] puts a slash between its arguments and does
    not clean the result; the paths of the examples below need no
    cleaning. *)
Record Host := mkHost {
  domainEnv : string;
  added : list Later.ClickHouseEntry;
}.

#[global] Instance host : Later.Host Host := {|
  Later.AddEntry e h := mkHost (domainEnv h) (added h ++ [e]);
  Later.GetLoggerEntry _ _ := None;
  Later.GetLoggerEntryDefault _ := 0;
  Later.loadLoggerEntry _ _ :=
    Later.mkLoggerEntry (mkZap 0 false)
      (Later.mkZapConfig "console" ["stdout"] 0) None;
  Later.storeLoggerEntry _ _ h := h;
  Later.IsValidDomain d h :=
    bool_decide (d = EmptyString) || bool_decide (d = "*")
    || bool_decide (d = domainEnv h);
  Later.NewLumberjackConfigDefault := 0;
  Later.NewZapLoggerWithConf _ _ _ := inl (mkZap 1 false);
  Later.os_Getwd _ := "/srv";
  Later.filepath_IsAbs p := bool_decide (String.prefix "/" p = true);
  Later.filepath_ToSlash p := p;
  Later.filepath_Join a b := a +:+ "/" +:+ b;
|}.

Definition prod : Host := mkHost "prod" [].

(** Blocks of a boot configuration, with nothing but the fields the
    selection reads and one database section. *)
Definition block (enabled : bool) (name domain addr : string)
    (database : list Later.BootDatabase.t) : Later.BootConfigE.t :=
  Later.BootConfigE.mk enabled name EmptyString domain EmptyString
    EmptyString addr database
    (Later.BootLogger.mk EmptyString EmptyString EmptyString [] 0 false).

Definition section (name : string) (dryRun autoCreate : bool)
    : Later.BootDatabase.t :=
  Later.BootDatabase.mk name [] dryRun autoCreate
    (Later.mkPromConfig false EmptyString EmptyString EmptyString)
    (Later.mkTraceConfig false EmptyString EmptyString EmptyString).

(** The same for the early variant. *)
Record EarlyHost := mkEarlyHost { early_added : list Early.ClickHouseEntry }.

#[global] Instance early_host : Early.Host EarlyHost := {|
  Early.AddEntry e h := mkEarlyHost (early_added h ++ [e]);
  Early.GetZapLoggerEntryDefault _ := Early.mkZapLoggerEntry (mkZap 0 false);
|}.

(** Entries registered from code, and the systems they start in. *)
Definition later_entry (opts : list Later.Option) : Later.ClickHouseEntry :=
  (Later.RegisterClickHouseEntry opts prod).1.

Definition early_entry (opts : list Early.Option) : Early.ClickHouseEntry :=
  (Early.RegisterClickHouseEntry opts (mkEarlyHost [])).1.

Definition later_sys (opts : list Later.Option) (w : World)
    : Sys Later.ClickHouseEntry Later.GormConfig World :=
  mkSys (later_entry opts) w [].

Definition early_sys (opts : list Early.Option) (w : World)
    : Sys Early.ClickHouseEntry Early.GormConfig World :=
  mkSys (early_entry opts) w [].

(** Three descriptors, the server refusing the second one. *)
Definition audit_refused
    : Sys Later.ClickHouseEntry Later.GormConfig World :=
  later_sys
    [Later.WithDatabase "user" false true [];
     Later.WithDatabase "audit" false false [];
     Later.WithDatabase "late" false false []]
    (refusing ["tcp://localhost:9000?audit&default&"]).

(** One descriptor with [autoCreate], in each variant. *)
Definition later_auto : Sys Later.ClickHouseEntry Later.GormConfig World :=
  later_sys [Later.WithDatabase "user" false true []] fresh.

Definition early_auto : Sys Early.ClickHouseEntry Early.GormConfig World :=
  early_sys [Early.WithDatabase "user" false true []] fresh.

(** A server that rejects the given statements. *)
Definition denying (sqls : list string) : World := mkWorld 0 [] [] sqls.

(** A descriptor with [autoCreate] followed by another one, on a server
    that rejects the statement of the first, in each variant. *)
Definition later_denied : Sys Later.ClickHouseEntry Later.GormConfig World :=
  later_sys
    [Later.WithDatabase "user" false true [];
     Later.WithDatabase "audit" false false []]
    (denying ["CREATE DATABASE IF NOT EXISTS user"]).

Definition early_denied : Sys Early.ClickHouseEntry Early.GormConfig World :=
  early_sys
    [Early.WithDatabase "user" false true [];
     Early.WithDatabase "audit" false false []]
    (denying ["CREATE DATABASE IF NOT EXISTS user"]).

(** One descriptor with [dryRun], in each variant. *)
Definition later_dry : Sys Later.ClickHouseEntry Later.GormConfig World :=
  later_sys [Later.WithDatabase "demo" true false []] fresh.

Definition early_dry : Sys Early.ClickHouseEntry Early.GormConfig World :=
  early_sys [Early.WithDatabase "demo" true false []] fresh.

(** The registry of the host: the last entry added under a type and a
    name. *)
#[global] Instance registry : Later.Registry Host := {|
  Later.GetEntry ty n h :=
    Later.IsClickHouse <$>
    last (filter (λ e, Later.entryType e = ty ∧ Later.entryName e = n)
            (added h));
|}.

(** The early host: one locale matches beside the wildcard one. *)
#[global] Instance early_boot : Early.Boot EarlyHost := {|
  Early.MatchLocaleWithEnv l :=
    bool_decide (l = "*::*::*::*") || bool_decide (l = "*::*::*::prod");
  Early.GetZapLoggerEntry _ _ := None;
  Early.GetEntry n h :=
    Early.IsClickHouse <$>
    last (filter (λ e, Early.EntryName e = n) (early_added h));
|}.

(** Two blocks for [user-db], the second for the domain of the host,
    and a disabled block. *)
Definition boot_config : Later.BootConfig :=
  [block true "user-db" "*" "localhost:9000" [section "user" false true];
   block true "user-db" "prod" "ch.prod:9000"
     [section "user" false true; section "audit" true false];
   block false "log-db" "*" "localhost:9000" []].

Definition early_block (enabled : bool) (name locale user addr : string)
    (database : list Early.BootDatabase.t) : Early.BootConfigE.t :=
  Early.BootConfigE.mk enabled name EmptyString locale user EmptyString
    addr database EmptyString.
End Sim.


(** * Option mutators *)

Lemma nonempty_true (s : string) : nonempty s = true ↔ s ≠ EmptyString.
Proof. destruct s; simpl; split; intros; congruence. Qed.

Lemma nonempty_false (s : string) : nonempty s = false ↔ s = EmptyString.
Proof. destruct s; simpl; split; intros; congruence. Qed.

Lemma Later_WithName_fixed (n : string) (e : Later.ClickHouseEntry) :
  Later.WithName n e = e ↔ Later.entryName e = n.
Proof.
  destruct e; unfold Later.WithName, Later.set_entryName; simpl.
  split; [intros [=]; congruence | intros <-; reflexivity].
Qed.

Lemma Later_WithDescription_fixed (d : string) (e : Later.ClickHouseEntry) :
  Later.WithDescription d e = e ↔ Later.entryDescription e = d.
Proof.
  destruct e; unfold Later.WithDescription, Later.set_entryDescription; simpl.
  split; [intros [=]; congruence | intros <-; reflexivity].
Qed.

Lemma Early_WithName_fixed (n : string) (e : Early.ClickHouseEntry) :
  Early.WithName n e = e ↔ Early.EntryName e = n.
Proof.
  destruct e; unfold Early.WithName, Early.set_EntryName; simpl.
  split; [intros [=]; congruence | intros <-; reflexivity].
Qed.

Lemma Early_WithDescription_fixed (d : string) (e : Early.ClickHouseEntry) :
  Early.WithDescription d e = e ↔ Early.EntryDescription e = d.
Proof.
  destruct e; unfold Early.WithDescription, Early.set_EntryDescription; simpl.
  split; [intros [=]; congruence | intros <-; reflexivity].
Qed.

(** C4, as stated, fails: the name mutator has no guard, so the empty
    name replaces the default name of a freshly registered entry. *)
Lemma WithName_empty_overwrites :
  Later.entryName (Sim.later_entry []) = "ClickHouse" ∧
  Later.entryName (Later.WithName EmptyString (Sim.later_entry [])) = EmptyString ∧
  Later.WithName EmptyString (Sim.later_entry []) ≠ Sim.later_entry [].
Proof.
  split; [reflexivity | split; [reflexivity |]].
  intros Heq. apply (f_equal Later.entryName) in Heq. discriminate Heq.
Qed.

(** C4, amended: in both variants the user, password, address, logger
    and per-database mutators leave the entry unchanged on an empty
    (nil) value; the name and description mutators assign
    unconditionally, so they leave the entry unchanged exactly when the
    field already holds the given value. *)
Theorem mutators_on_empty_values :
  (∀ e : Later.ClickHouseEntry,
     Later.WithUser EmptyString e = e ∧
     Later.WithPass EmptyString e = e ∧
     Later.WithAddr EmptyString e = e ∧
     Later.WithLogger None e = e ∧
     (∀ dryRun autoCreate params,
        Later.WithDatabase EmptyString dryRun autoCreate params e = e) ∧
     (∀ n, Later.WithName n e = e ↔ Later.entryName e = n) ∧
     (∀ d, Later.WithDescription d e = e ↔ Later.entryDescription e = d)) ∧
  (∀ e : Early.ClickHouseEntry,
     Early.WithUser EmptyString e = e ∧
     Early.WithPass EmptyString e = e ∧
     Early.WithAddr EmptyString e = e ∧
     Early.WithZapLoggerEntry None e = e ∧
     (∀ dryRun autoCreate params,
        Early.WithDatabase EmptyString dryRun autoCreate params e = e) ∧
     (∀ n, Early.WithName n e = e ↔ Early.EntryName e = n) ∧
     (∀ d, Early.WithDescription d e = e ↔ Early.EntryDescription e = d)).
Proof.
  split; intros e; repeat split; try reflexivity.
  - apply Later_WithName_fixed.
  - apply Later_WithName_fixed.
  - apply Later_WithDescription_fixed.
  - apply Later_WithDescription_fixed.
  - apply Early_WithName_fixed.
  - apply Early_WithName_fixed.
  - apply Early_WithDescription_fixed.
  - apply Early_WithDescription_fixed.
Qed.

(** * The diagnostic string *)

Lemma json_Marshal_nonempty (js : string → string) fields :
  nonempty (json_Marshal js fields) = true.
Proof. reflexivity. Qed.

(** C9: the password takes no part in [String()].  In both variants an
    entry and the same entry with any other password serialise to the
    same text; the later variant serialises no field at all, the early
    one exactly the name, the type, the user and the address. *)
Theorem String_ignores_pass (json_string : string → string) :
  (∀ (e : Later.ClickHouseEntry) (p : string),
     Later.String json_string (Later.set_pass p e)
     = Later.String json_string e) ∧
  (∀ e : Later.ClickHouseEntry, Later.String json_string e = "{}") ∧
  (∀ (e : Early.ClickHouseEntry) (p : string),
     Early.String json_string (Early.set_pass p e)
     = Early.String json_string e) ∧
  (∀ e : Early.ClickHouseEntry,
     Early.String json_string e
     = json_Marshal json_string
         [("EntryName", Early.EntryName e); ("EntryType", Early.EntryType e);
          ("user", Early.User e); ("addr", Early.Addr e)]).
Proof.
  repeat split; intros; reflexivity.
Qed.

(** * Health *)

Section health.
Context {W : Type} `{!Driver W}.

Lemma Later_healthyAll_true (w : W) (dbs : list GormDB) :
  Later.healthyAll w dbs = true ↔ ∀ db, db ∈ dbs → answers w db.
Proof.
  induction dbs as [|db dbs IH]; simpl.
  - split; [intros _ db Hin; inversion Hin | reflexivity].
  - destruct (gorm_DB db) as [c|err] eqn:Hdb.
    + destruct (sql_Ping c w) as [err|] eqn:Hping.
      * split; [discriminate |].
        intros Hall. destruct (Hall db) as (c' & Hc' & Hp); [left |].
        rewrite Hdb in Hc'. injection Hc' as <-. congruence.
      * rewrite IH. split.
        -- intros Hall db' [->|Hin]%elem_of_cons; [exists c; auto | auto].
        -- intros Hall db' Hin. apply Hall. by right.
    + split; [discriminate |].
      intros Hall. destruct (Hall db) as (c' & Hc' & _); [left |].
      rewrite Hdb in Hc'. discriminate.
Qed.

Lemma Early_healthyAll_true (w : W) (dbs : list GormDB) :
  Early.healthyAll w dbs = true ↔ ∀ db, db ∈ dbs → answers w db.
Proof.
  induction dbs as [|db dbs IH]; simpl.
  - split; [intros _ db Hin; inversion Hin | reflexivity].
  - destruct (gorm_DB db) as [c|err] eqn:Hdb.
    + destruct (sql_Ping c w) as [err|] eqn:Hping.
      * split; [discriminate |].
        intros Hall. destruct (Hall db) as (c' & Hc' & Hp); [left |].
        rewrite Hdb in Hc'. injection Hc' as <-. congruence.
      * rewrite IH. split.
        -- intros Hall db' [->|Hin]%elem_of_cons; [exists c; auto | auto].
        -- intros Hall db' Hin. apply Hall. by right.
    + split; [discriminate |].
      intros Hall. destruct (Hall db) as (c' & Hc' & _); [left |].
      rewrite Hdb in Hc'. discriminate.
Qed.

Lemma elem_of_values (m : gmap string GormDB) (db : GormDB) :
  db ∈ (map_to_list m).*2 ↔ ∃ n, m !! n = Some db.
Proof.
  rewrite list_elem_of_fmap. split.
  - intros ([n db'] & -> & Hin). exists n. by apply elem_of_map_to_list.
  - intros (n & Hn). exists (n, db). split; [done |].
    by apply elem_of_map_to_list.
Qed.

(** C8: in both variants [IsHealthy] is [true] exactly when every
    handle of the handle map yields its native connection and that
    connection answers the ping; one handle that fails either step
    makes the result [false]. *)
Theorem IsHealthy_iff_every_handle_answers (w : W) :
  (∀ e : Later.ClickHouseEntry,
     (Later.IsHealthy e w = true ↔
      ∀ n db, Later.GormDbMap e !! n = Some db →
              ∃ c, gorm_DB db = inl c ∧ sql_Ping c w = None) ∧
     (∀ n db, Later.GormDbMap e !! n = Some db →
              (∀ c, gorm_DB db = inl c → sql_Ping c w ≠ None) →
              Later.IsHealthy e w = false)) ∧
  (∀ e : Early.ClickHouseEntry,
     (Early.IsHealthy e w = true ↔
      ∀ n db, Early.GormDbMap e !! n = Some db →
              ∃ c, gorm_DB db = inl c ∧ sql_Ping c w = None) ∧
     (∀ n db, Early.GormDbMap e !! n = Some db →
              (∀ c, gorm_DB db = inl c → sql_Ping c w ≠ None) →
              Early.IsHealthy e w = false)).
Proof.
  assert (HL : ∀ e : Later.ClickHouseEntry,
            Later.IsHealthy e w = true ↔
            ∀ n db, Later.GormDbMap e !! n = Some db → answers w db).
  { intros e. unfold Later.IsHealthy, Later.handles.
    rewrite Later_healthyAll_true. split.
    - intros Hall n db Hn. apply Hall, elem_of_values. eauto.
    - intros Hall db (n & Hn)%elem_of_values. eauto. }
  assert (HE : ∀ e : Early.ClickHouseEntry,
            Early.IsHealthy e w = true ↔
            ∀ n db, Early.GormDbMap e !! n = Some db → answers w db).
  { intros e. unfold Early.IsHealthy, Early.handles.
    rewrite Early_healthyAll_true. split.
    - intros Hall n db Hn. apply Hall, elem_of_values. eauto.
    - intros Hall db (n & Hn)%elem_of_values. eauto. }
  split; intros e; (split; [first [apply HL | apply HE] |]).
  - intros n db Hn Hbad. apply not_true_is_false. intros Hok.
    destruct (proj1 (HL e) Hok n db Hn) as (c & Hc & Hp).
    by apply (Hbad c).
  - intros n db Hn Hbad. apply not_true_is_false. intros Hok.
    destruct (proj1 (HE e) Hok n db Hn) as (c & Hc & Hp).
    by apply (Hbad c).
Qed.
End health.

(** * Registration from code *)

Section registered.
Context {H : Type} `{!Later.Host H}.

Lemma Later_apply_declared (decls : list declaration)
    (e : Later.ClickHouseEntry) :
  foldl (λ e opt, opt e) e (declaredOption <$> decls)
  = Later.set_innerDbList
      (Later.innerDbList e ++
       (declaredInner <$> filter (λ d, nonempty (decl_name d)) decls)) e.
Proof.
  revert e. induction decls as [|d decls IH]; intros e.
  - simpl. rewrite app_nil_r. by destruct e.
  - rewrite fmap_cons. simpl foldl. rewrite IH. rewrite filter_cons.
    unfold declaredOption, Later.WithDatabase.
    destruct (decide (nonempty (decl_name d))) as [Hn|Hn].
    + apply Is_true_true in Hn. rewrite Hn. simpl.
      destruct e; simpl. rewrite <- app_assoc. reflexivity.
    + apply Is_true_false in Hn. rewrite Hn. reflexivity.
Qed.

Lemma Later_defaultConfigs_fold (l : list Later.databaseInner)
    (e : Later.ClickHouseEntry) :
  let e' :=
    foldl (λ e innerDb,
             Later.set_GormConfigMap
               (<[Later.name innerDb :=
                    Later.mkConfig (Later.logger e) (Later.dryRun innerDb)]>
                  (Later.GormConfigMap e)) e) e l in
  Later.innerDbList e' = Later.innerDbList e ∧
  Later.logger e' = Later.logger e ∧
  Later.GormDbMap e' = Later.GormDbMap e ∧
  dom (Later.GormConfigMap e')
  = dom (Later.GormConfigMap e) ∪ list_to_set (Later.name <$> l).
Proof.
  revert e. induction l as [|d l IH]; intros e; simpl.
  - repeat split. by rewrite (right_id_L ∅ (∪)).
  - specialize (IH (Later.set_GormConfigMap
                      (<[Later.name d :=
                           Later.mkConfig (Later.logger e) (Later.dryRun d)]>
                         (Later.GormConfigMap e)) e)).
    simpl in IH. destruct IH as (Hl & Hlog & Hdb & Hdom).
    repeat split; [done | done | done |].
    rewrite Hdom. simpl. rewrite dom_insert_L.
    rewrite (assoc_L (∪)). f_equal. apply (comm_L (∪)).
Qed.

Lemma Later_defaultConfigs_other (l : list Later.databaseInner)
    (e : Later.ClickHouseEntry) (n : string) :
  (∀ d, d ∈ l → Later.name d ≠ n) →
  Later.GormConfigMap
    (foldl (λ e innerDb,
              Later.set_GormConfigMap
                (<[Later.name innerDb :=
                     Later.mkConfig (Later.logger e) (Later.dryRun innerDb)]>
                   (Later.GormConfigMap e)) e) e l) !! n
  = Later.GormConfigMap e !! n.
Proof.
  revert e. induction l as [|d l IH]; intros e Hne; [reflexivity |].
  simpl. rewrite IH by (intros d' Hd'; apply Hne; by right).
  simpl. apply lookup_insert_ne, Hne. by left.
Qed.

(** The configuration stored under a name is built from the last
    descriptor of that name. *)
Lemma Later_defaultConfigs_last (l1 l2 : list Later.databaseInner)
    (d : Later.databaseInner) (e : Later.ClickHouseEntry) :
  Later.innerDbList e = l1 ++ d :: l2 →
  (∀ d', d' ∈ l2 → Later.name d' ≠ Later.name d) →
  Later.GormConfigMap (Later.defaultConfigs e) !! Later.name d
  = Some (Later.mkConfig (Later.logger e) (Later.dryRun d)).
Proof.
  intros Hl Hlast. unfold Later.defaultConfigs. rewrite Hl, foldl_app.
  simpl. rewrite Later_defaultConfigs_other by done. simpl.
  rewrite lookup_insert_eq.
  by destruct (Later_defaultConfigs_fold l1 e) as (_ & -> & _).
Qed.

Lemma declaredInner_name (l : list declaration) :
  Later.name <$> (declaredInner <$> l) = decl_name <$> l.
Proof. rewrite <- list_fmap_compose. reflexivity. Qed.

(** C7: registering a sequence of per-database declarations keeps one
    descriptor per declaration with a name, in order and without
    merging, while the configuration map gets one entry per distinct
    declared name; so a name declared twice yields two descriptors and
    one configuration entry, the one built from the last declaration
    of that name. *)
Theorem one_config_per_name_one_descriptor_per_declaration
    (h : H) (decls : list declaration) :
  let e := (Later.RegisterClickHouseEntry (declaredOption <$> decls) h).1 in
  let named := filter (λ d, nonempty (decl_name d)) decls in
  Later.innerDbList e = declaredInner <$> named ∧
  dom (Later.GormConfigMap e) = list_to_set (decl_name <$> named) ∧
  size (Later.GormConfigMap e) = length (remove_dups (decl_name <$> named)) ∧
  (∀ n, length (filter (λ i, Later.name i = n) (Later.innerDbList e))
        = length (filter (λ d, decl_name d = n) named)) ∧
  (∀ l1 d l2,
     named = l1 ++ d :: l2 →
     (∀ d', d' ∈ l2 → decl_name d' ≠ decl_name d) →
     Later.GormConfigMap e !! decl_name d
     = Some (Later.mkConfig (Later.logger e) (decl_dryRun d))).
Proof.
  intros e named.
  assert (Hlist : Later.innerDbList e = declaredInner <$> named
                  ∧ dom (Later.GormConfigMap e)
                    = list_to_set (decl_name <$> named)
                  ∧ ∀ l1 d l2,
                      named = l1 ++ d :: l2 →
                      (∀ d', d' ∈ l2 → decl_name d' ≠ decl_name d) →
                      Later.GormConfigMap e !! decl_name d
                      = Some (Later.mkConfig (Later.logger e)
                                (decl_dryRun d))).
  { subst e. unfold Later.RegisterClickHouseEntry. cbv zeta.
    rewrite Later_apply_declared. cbn [fst].
    set (e0 := Later.set_innerDbList _ _).
    set (e1 := if negb (nonempty (Later.entryDescription e0)) then _ else e0).
    assert (He1 : Later.innerDbList e1 = declaredInner <$> named
                  ∧ Later.GormConfigMap e1 = ∅).
    { subst e1. by destruct (negb _). }
    destruct He1 as [He1 Hmap].
    destruct (Later_defaultConfigs_fold (Later.innerDbList e1) e1)
      as (Hl & Hlog & _ & Hd).
    split; [| split].
    - unfold Later.defaultConfigs. by rewrite Hl, He1.
    - unfold Later.defaultConfigs.
      rewrite Hd, Hmap, He1, dom_empty_L, declaredInner_name.
      apply (left_id_L ∅ (∪)).
    - intros l1 d l2 Hsplit Hlast.
      change (decl_name d) with (Later.name (declaredInner d)).
      change (decl_dryRun d) with (Later.dryRun (declaredInner d)).
      unfold Later.defaultConfigs at 2. rewrite Hlog.
      apply (Later_defaultConfigs_last (declaredInner <$> l1)
               (declaredInner <$> l2)).
      + by rewrite He1, Hsplit, fmap_app, fmap_cons.
      + intros d' (x & -> & Hx)%list_elem_of_fmap. by apply Hlast. }
  destruct Hlist as (Hlist & Hdom & Hcfg).
  split; [done |]. split; [done |]. split; [| split; [| done]].
  - rewrite <- size_dom, Hdom.
    rewrite <- (size_list_to_set (C := gset string) (remove_dups _))
      by apply NoDup_remove_dups.
    f_equal. apply set_eq. intros n.
    by rewrite !elem_of_list_to_set, elem_of_remove_dups.
  - intros n. rewrite Hlist. clear.
    induction named as [|d l IH]; [done |].
    rewrite fmap_cons, !filter_cons. simpl.
    destruct (decide (decl_name d = n)); simpl; by rewrite IH.
Qed.
End registered.

(** * Registration from the boot configuration *)

Section selecting.
Context {H : Type} `{!Later.Host H}.

Lemma eligible_guards (h : H) (e : Later.BootConfigE.t) :
  eligible h e ↔
  negb (Later.BootConfigE.Enabled e)
  || negb (nonempty (Later.BootConfigE.Name e)) = false ∧
  negb (Later.IsValidDomain (Later.BootConfigE.Domain e) h) = false.
Proof.
  unfold eligible. rewrite orb_false_iff, !negb_false_iff, nonempty_true.
  tauto.
Qed.

Lemma selectStep_skip (h : H) m (e : Later.BootConfigE.t) :
  ¬ eligible h e → Later.selectStep h m e = m.
Proof.
  intros Hne. unfold Later.selectStep.
  destruct (_ || _) eqn:Hg; [done |].
  destruct (negb (Later.IsValidDomain _ _)) eqn:Hd; [done |].
  destruct Hne. by apply eligible_guards.
Qed.

Lemma wildcard_guard (e : Later.BootConfigE.t) :
  bool_decide (Later.BootConfigE.Domain e = EmptyString)
  || bool_decide (Later.BootConfigE.Domain e = "*") = true ↔ wildcard e.
Proof.
  unfold wildcard. rewrite orb_true_iff, !bool_decide_eq_true. tauto.
Qed.

Lemma selectStep_eligible (h : H) m (e : Later.BootConfigE.t) :
  eligible h e →
  Later.selectStep h m e =
  match m !! Later.BootConfigE.Name e with
  | None => <[Later.BootConfigE.Name e := e]> m
  | Some _ =>
      if bool_decide (Later.BootConfigE.Domain e = EmptyString)
         || bool_decide (Later.BootConfigE.Domain e = "*")
      then m else <[Later.BootConfigE.Name e := e]> m
  end.
Proof.
  intros [Hg Hd]%eligible_guards. unfold Later.selectStep.
  by rewrite Hg, Hd.
Qed.

Lemma selectBlocks_snoc (h : H) config (e : Later.BootConfigE.t) :
  Later.selectBlocks h (config ++ [e])
  = Later.selectStep h (Later.selectBlocks h config) e.
Proof. unfold Later.selectBlocks. apply foldl_snoc. Qed.

Lemma selected_from_step (h : H) config m (e : Later.BootConfigE.t) :
  selected_from h config m →
  selected_from h (config ++ [e]) (Later.selectStep h m e).
Proof.
  intros Hinv n. specialize (Hinv n).
  destruct (decide (eligible h e)) as [He|He].
  - rewrite (selectStep_eligible h m e He).
    destruct (decide (Later.BootConfigE.Name e = n)) as [<-|Hn].
    + destruct (m !! Later.BootConfigE.Name e) as [x|] eqn:Hx.
      * destruct Hinv as (Hin & Hel & Hname & Hwild).
        destruct (_ || _) eqn:Hw.
        -- rewrite Hx. apply wildcard_guard in Hw.
           repeat split; [set_solver | apply Hel | apply Hel | apply Hel
                         | done |].
           intros Hwx e' [Hin'| ->%list_elem_of_singleton]%elem_of_app;
             auto.
        -- rewrite lookup_insert_eq.
           repeat split; [set_solver | apply He | apply He | apply He |].
           intros Hwe. apply wildcard_guard in Hwe. congruence.
      * rewrite lookup_insert_eq.
        repeat split; [set_solver | apply He | apply He | apply He |].
        intros Hwe e' [Hin'| ->%list_elem_of_singleton]%elem_of_app Hel' Hn';
          [by destruct (Hinv e' Hin' Hel') | done].
    + assert (Hsame :
        match m !! Later.BootConfigE.Name e with
        | None => <[Later.BootConfigE.Name e := e]> m
        | Some _ =>
            if bool_decide (Later.BootConfigE.Domain e = EmptyString)
               || bool_decide (Later.BootConfigE.Domain e = "*")
            then m else <[Later.BootConfigE.Name e := e]> m
        end !! n = m !! n).
      { destruct (m !! Later.BootConfigE.Name e);
          [destruct (_ || _) |]; by rewrite ?lookup_insert_ne. }
      rewrite Hsame. destruct (m !! n) as [x|].
      * destruct Hinv as (Hin & Hel & Hname & Hwild).
        repeat split; [set_solver | apply Hel | apply Hel | apply Hel
                      | done |].
        intros Hwx e' [Hin'| ->%list_elem_of_singleton]%elem_of_app;
          [auto | congruence].
      * intros e' [Hin'| ->%list_elem_of_singleton]%elem_of_app;
          [auto | done].
  - rewrite (selectStep_skip h m e He). destruct (m !! n) as [x|].
    + destruct Hinv as (Hin & Hel & Hname & Hwild).
      repeat split; [set_solver | apply Hel | apply Hel | apply Hel
                    | done |].
      intros Hwx e' [Hin'| ->%list_elem_of_singleton]%elem_of_app;
        [auto | done].
    + intros e' [Hin'| ->%list_elem_of_singleton]%elem_of_app;
        [auto | done].
Qed.

Lemma selectBlocks_selected_from (h : H) (config : Later.BootConfig) :
  selected_from h config (Later.selectBlocks h config).
Proof.
  induction config as [|e config IH] using rev_ind.
  - intros n. unfold Later.selectBlocks. simpl. rewrite lookup_empty.
    intros e Hin. inversion Hin.
  - rewrite selectBlocks_snoc. by apply selected_from_step.
Qed.
End selecting.

Section selected.
Context {H : Type} `{!Later.Host H}.

(** C5: among the enabled, named blocks whose domain matches, the
    selection keeps one block per name, taken from the blocks of that
    name; when a block of that name with a specific domain matches, the
    block kept has a specific domain, and a specific block replaces a
    wildcard (or empty-domain) block selected before it. *)
Theorem specific_domain_replaces_wildcard (h : H)
    (config : Later.BootConfig) :
  (∀ n, is_Some (Later.selectBlocks h config !! n) ↔
        ∃ e, e ∈ config ∧ eligible h e ∧ Later.BootConfigE.Name e = n) ∧
  (∀ n x, Later.selectBlocks h config !! n = Some x →
          x ∈ config ∧ eligible h x ∧ Later.BootConfigE.Name x = n) ∧
  (∀ n x s, Later.selectBlocks h config !! n = Some x →
            s ∈ config → eligible h s → Later.BootConfigE.Name s = n →
            ¬ wildcard s → ¬ wildcard x) ∧
  (∀ m e p, eligible h e → ¬ wildcard e →
            m !! Later.BootConfigE.Name e = Some p → wildcard p →
            Later.selectStep h m e !! Later.BootConfigE.Name e = Some e).
Proof.
  pose proof (selectBlocks_selected_from h config) as Hinv.
  split; [| split; [| split]].
  - intros n. specialize (Hinv n). split.
    + intros [x Hx]. rewrite Hx in Hinv. exists x. tauto.
    + intros (e & Hin & Hel & Hn).
      destruct (Later.selectBlocks h config !! n); [eauto |].
      by destruct (Hinv e Hin Hel).
  - intros n x Hx. specialize (Hinv n). rewrite Hx in Hinv. tauto.
  - intros n x s Hx Hin Hel Hn Hspec Hwx. specialize (Hinv n).
    rewrite Hx in Hinv. destruct Hinv as (_ & _ & _ & Hw).
    apply Hspec. by apply (Hw Hwx s).
  - intros m e p He Hspec Hp Hwp. rewrite (selectStep_eligible h m e He), Hp.
    destruct (_ || _) eqn:Hw; [by apply wildcard_guard in Hw |].
    apply lookup_insert_eq.
Qed.

Lemma selectBlocks_app (h : H) (pre post : Later.BootConfig) :
  Later.selectBlocks h (pre ++ post)
  = foldl (Later.selectStep h) (Later.selectBlocks h pre) post.
Proof. unfold Later.selectBlocks. apply foldl_app. Qed.

(** C10: a block that is disabled or has no name is skipped by the
    selection loop before anything is built from it; the registration
    from a configuration with the block returns the same entries and
    leaves the same host as from the configuration without it. *)
Theorem disabled_or_unnamed_block_registers_nothing (h : H)
    (pre post : Later.BootConfig) (b : Later.BootConfigE.t) :
  Later.BootConfigE.Enabled b = false ∨
  Later.BootConfigE.Name b = EmptyString →
  (∀ m, Later.selectStep h m b = m) ∧
  Later.selectBlocks h (pre ++ b :: post) = Later.selectBlocks h (pre ++ post) ∧
  Later.RegisterClickHouseEntryYAML (pre ++ b :: post) h
  = Later.RegisterClickHouseEntryYAML (pre ++ post) h.
Proof.
  intros Hb.
  assert (Hskip : ∀ m, Later.selectStep h m b = m).
  { intros m. apply selectStep_skip. intros (Hen & Hname & _).
    destruct Hb; congruence. }
  assert (Hsel : Later.selectBlocks h (pre ++ b :: post)
                 = Later.selectBlocks h (pre ++ post)).
  { rewrite !selectBlocks_app. simpl. by rewrite Hskip. }
  repeat split; [done | done |].
  unfold Later.RegisterClickHouseEntryYAML. by rewrite Hsel.
Qed.
End selected.

(** A wildcard block for [user-db] followed by a block for the domain
    of the host: the second one is selected. *)
Lemma specific_domain_replaces_wildcard_witness :
  Later.selectBlocks Sim.prod
    [Sim.block true "user-db" "*" "localhost:9000" [];
     Sim.block true "user-db" "prod" "ch.prod:9000" []]
  !! "user-db"
  = Some (Sim.block true "user-db" "prod" "ch.prod:9000" []) ∧
  ¬ wildcard (Sim.block true "user-db" "prod" "ch.prod:9000" []).
Proof.
  split; [reflexivity |].
  apply (proj1 (proj2 (proj2
    (specific_domain_replaces_wildcard Sim.prod
       [Sim.block true "user-db" "*" "localhost:9000" [];
        Sim.block true "user-db" "prod" "ch.prod:9000" []])))
    "user-db" _ (Sim.block true "user-db" "prod" "ch.prod:9000" [])).
  - reflexivity.
  - apply list_elem_of_further, list_elem_of_here.
  - split; [reflexivity | split; [discriminate | reflexivity]].
  - reflexivity.
  - intros [Hw|Hw]; discriminate Hw.
Defined.

(** A disabled block between two enabled ones. *)
Lemma disabled_or_unnamed_block_registers_nothing_witness :
  Later.RegisterClickHouseEntryYAML
    ([Sim.block true "user-db" "*" "localhost:9000"
        [Sim.section "user" false true]] ++
     Sim.block false "audit-db" "*" "localhost:9000"
       [Sim.section "audit" false false] ::
     [Sim.block true "log-db" "prod" "localhost:9000" []])
    Sim.prod
  = Later.RegisterClickHouseEntryYAML
      ([Sim.block true "user-db" "*" "localhost:9000"
          [Sim.section "user" false true]] ++
       [Sim.block true "log-db" "prod" "localhost:9000" []])
      Sim.prod.
Proof.
  apply (disabled_or_unnamed_block_registers_nothing Sim.prod).
  left. reflexivity.
Defined.

(** * Connecting *)

Section connecting.
Context {W : Type} `{!Opener Later.GormConfig W} `{!Opener Early.GormConfig W}
  `{!Driver W}.

Lemma Later_closeDB_run (db : option GormDB) (s : LSys W) :
  Later.closeDB db s
  = (tt, mkSys (self s) (closeDB_world db (world s))
           (trace s ++ closeEvents db)).
Proof.
  unfold Later.closeDB, closeDB_world, closeEvents, native.
  destruct db as [d|]; simpl.
  - destruct (gorm_DB d) as [c|err]; simpl.
    + unfold mbind, M_bind, sqlClose. simpl.
      by destruct (sql_Close c (world s)).
    + unfold mret, M_ret. rewrite app_nil_r. by destruct s.
  - unfold mret, M_ret. rewrite app_nil_r. by destruct s.
Qed.

(** The turn of the loop for a descriptor that skips the auto-create
    step: one [gorm.Open] with the descriptor's DSN, the handle stored
    on success. *)
Lemma Later_connectOne_plain (d : Later.databaseInner) (s : LSys W) :
  negb (Later.dryRun d) && Later.autoCreate d = false →
  let e := self s in
  let cfg := Later.GormConfigMap e !! Later.name d in
  let dsn :=
    "tcp://" +:+ Later.Addr e +:+ "?" +:+
    strings_Join (([Later.name d] ++ [Later.User e; Later.pass e])
                  ++ Later.params d) "&" in
  let connecting :=
    EvInfo ("Connecting to database [" +:+ Later.name d +:+ "]") [] in
  let connected :=
    EvInfo ("Connecting to database [" +:+ Later.name d +:+ "] success") [] in
  Later.connectOne d s =
  match gorm_Open dsn cfg (world s) with
  | (inl db, w) =>
      (None,
       mkSys (Later.set_GormDbMap (<[Later.name d := db]> (Later.GormDbMap e)) e)
         w (trace s ++ [connecting; EvOpen dsn cfg; connected]))
  | (inr (_, err), w) =>
      (Some err, mkSys e w (trace s ++ [connecting; EvOpen dsn cfg]))
  end.
Proof.
  intros Hskip. cbv zeta. unfold Later.connectOne.
  unfold mbind, M_bind, mret, M_ret, getSelf, logInfo, emit, gormOpen,
    modifySelf.
  rewrite Hskip. cbn [self world trace].
  destruct (gorm_Open _ _ (world s)) as [[db|[db err]] w]; cbn [self world trace].
  - by rewrite <- !app_assoc.
  - by rewrite <- !app_assoc.
Qed.

Lemma Early_connectOne_plain (d : Early.databaseInner) (s : ESys W) :
  negb (Early.dryRun d) && Early.autoCreate d = false →
  let e := self s in
  let cfg := Early.GormConfigMap e !! Early.name d in
  let dsn :=
    "tcp://" +:+ Early.Addr e +:+ "?" +:+
    strings_Join (([Early.name d] ++ [Early.User e; Early.pass e])
                  ++ Early.params d) "&" in
  let connecting :=
    EvInfo ("Connecting to database [" +:+ Early.name d +:+ "]") [] in
  let connected :=
    EvInfo ("Connecting to database [" +:+ Early.name d +:+ "] success") [] in
  Early.connectOne d s =
  match gorm_Open dsn cfg (world s) with
  | (inl db, w) =>
      (None,
       mkSys (Early.set_GormDbMap (<[Early.name d := db]> (Early.GormDbMap e)) e)
         w (trace s ++ [connecting; EvOpen dsn cfg; connected]))
  | (inr (_, err), w) =>
      (Some err, mkSys e w (trace s ++ [connecting; EvOpen dsn cfg]))
  end.
Proof.
  intros Hskip. cbv zeta. unfold Early.connectOne.
  unfold mbind, M_bind, mret, M_ret, getSelf, logInfo, emit, gormOpen,
    modifySelf.
  rewrite Hskip. cbn [self world trace].
  destruct (gorm_Open _ _ (world s)) as [[db|[db err]] w]; cbn [self world trace].
  - by rewrite <- !app_assoc.
  - by rewrite <- !app_assoc.
Qed.

(** The turn of the loop for a descriptor that takes the auto-create
    step, later variant: the auxiliary connection is opened, the
    statement executed and [closeDB] called on the auxiliary handle on
    every path, before the real connection is opened. *)
Lemma Later_connectOne_auto (d : Later.databaseInner) (s : LSys W) :
  negb (Later.dryRun d) && Later.autoCreate d = true →
  let e := self s in
  let cfg := Later.GormConfigMap e !! Later.name d in
  let auxDsn :=
    "tcp://" +:+ Later.Addr e +:+ "?" +:+
    strings_Join [Later.User e; Later.pass e] "&" in
  let createSQL := "CREATE DATABASE IF NOT EXISTS " +:+ Later.name d in
  let dsn :=
    "tcp://" +:+ Later.Addr e +:+ "?" +:+
    strings_Join (([Later.name d] ++ [Later.User e; Later.pass e])
                  ++ Later.params d) "&" in
  let creating :=
    EvInfo ("Creating database [" +:+ Later.name d +:+ "]") [] in
  let created :=
    EvInfo ("Creating database [" +:+ Later.name d +:+ "] successs") [] in
  let connecting :=
    EvInfo ("Connecting to database [" +:+ Later.name d +:+ "]") [] in
  let connected :=
    EvInfo ("Connecting to database [" +:+ Later.name d +:+ "] success") [] in
  Later.connectOne d s =
  match gorm_Open auxDsn cfg (world s) with
  | (inr (aux, err), w1) =>
      (Some err,
       mkSys e (closeDB_world aux w1)
         (trace s ++ [creating; EvOpen auxDsn cfg] ++ closeEvents aux))
  | (inl aux, w1) =>
      let (aux', w2) := gorm_Exec aux createSQL w1 in
      let w3 := closeDB_world (Some aux') w2 in
      let closed :=
        trace s ++ [creating; EvOpen auxDsn cfg; EvExec aux createSQL]
        ++ closeEvents (Some aux') in
      match Error aux' with
      | Some err => (Some err, mkSys e w3 closed)
      | None =>
          match gorm_Open dsn cfg w3 with
          | (inl db, w4) =>
              (None,
               mkSys
                 (Later.set_GormDbMap
                    (<[Later.name d := db]> (Later.GormDbMap e)) e)
                 w4
                 (closed ++ [created; connecting; EvOpen dsn cfg; connected]))
          | (inr (_, err), w4) =>
              (Some err,
               mkSys e w4 (closed ++ [created; connecting; EvOpen dsn cfg]))
          end
      end
  end.
Proof.
  intros Hauto. cbv zeta. unfold Later.connectOne.
  unfold mbind at 1, M_bind at 1, getSelf. unfold mbind at 1, M_bind at 1.
  rewrite Hauto.
  unfold mbind at 1, M_bind at 1, logInfo at 1, emit at 1.
  unfold mbind at 1, M_bind at 1, gormOpen at 1. cbn [self world trace].
  destruct (gorm_Open _ _ (world s)) as [[aux|[aux err]] w1].
  - unfold mbind at 1, M_bind at 1, gormExec at 1. cbn [self world trace].
    destruct (gorm_Exec aux _ w1) as [aux' w2].
    destruct (Error aux') as [err|].
    + unfold mbind, M_bind, mret, M_ret. rewrite Later_closeDB_run.
      cbn [self world trace]. by rewrite <- !app_assoc.
    + unfold mbind at 1, M_bind at 1. rewrite Later_closeDB_run.
      unfold mbind, M_bind, mret, M_ret, logInfo, emit, gormOpen, modifySelf.
      cbn [self world trace].
      destruct (gorm_Open _ _ (closeDB_world (Some aux') w2))
        as [[db|[db err]] w4]; cbn [self world trace];
        by rewrite <- !app_assoc.
  - unfold mbind, M_bind, mret, M_ret. rewrite Later_closeDB_run.
    cbn [self world trace]. by rewrite <- !app_assoc.
Qed.

(** The same turn in the early variant: no [closeDB] on any path. *)
Lemma Early_connectOne_auto (d : Early.databaseInner) (s : ESys W) :
  negb (Early.dryRun d) && Early.autoCreate d = true →
  let e := self s in
  let cfg := Early.GormConfigMap e !! Early.name d in
  let auxDsn :=
    "tcp://" +:+ Early.Addr e +:+ "?" +:+
    strings_Join [Early.User e; Early.pass e] "&" in
  let createSQL := "CREATE DATABASE IF NOT EXISTS " +:+ Early.name d in
  let dsn :=
    "tcp://" +:+ Early.Addr e +:+ "?" +:+
    strings_Join (([Early.name d] ++ [Early.User e; Early.pass e])
                  ++ Early.params d) "&" in
  let creating :=
    EvInfo ("Creating database [" +:+ Early.name d +:+ "]") [] in
  let created :=
    EvInfo ("Creating database [" +:+ Early.name d +:+ "] successs") [] in
  let connecting :=
    EvInfo ("Connecting to database [" +:+ Early.name d +:+ "]") [] in
  let connected :=
    EvInfo ("Connecting to database [" +:+ Early.name d +:+ "] success") [] in
  Early.connectOne d s =
  match gorm_Open auxDsn cfg (world s) with
  | (inr (_, err), w1) =>
      (Some err, mkSys e w1 (trace s ++ [creating; EvOpen auxDsn cfg]))
  | (inl aux, w1) =>
      let (aux', w2) := gorm_Exec aux createSQL w1 in
      let executed :=
        trace s ++ [creating; EvOpen auxDsn cfg; EvExec aux createSQL] in
      match Error aux' with
      | Some err => (Some err, mkSys e w2 executed)
      | None =>
          match gorm_Open dsn cfg w2 with
          | (inl db, w4) =>
              (None,
               mkSys
                 (Early.set_GormDbMap
                    (<[Early.name d := db]> (Early.GormDbMap e)) e)
                 w4
                 (executed ++ [created; connecting; EvOpen dsn cfg; connected]))
          | (inr (_, err), w4) =>
              (Some err,
               mkSys e w4 (executed ++ [created; connecting; EvOpen dsn cfg]))
          end
      end
  end.
Proof.
  intros Hauto. cbv zeta. unfold Early.connectOne.
  unfold mbind at 1, M_bind at 1, getSelf. unfold mbind at 1, M_bind at 1.
  rewrite Hauto.
  unfold mbind at 1, M_bind at 1, logInfo at 1, emit at 1.
  unfold mbind at 1, M_bind at 1, gormOpen at 1. cbn [self world trace].
  destruct (gorm_Open _ _ (world s)) as [[aux|[aux err]] w1].
  - unfold mbind at 1, M_bind at 1, gormExec at 1. cbn [self world trace].
    destruct (gorm_Exec aux _ w1) as [aux' w2].
    destruct (Error aux') as [err|].
    + unfold mret, M_ret. by rewrite <- !app_assoc.
    + unfold mbind, M_bind, mret, M_ret, logInfo, emit, gormOpen, modifySelf.
      cbn [self world trace].
      destruct (gorm_Open _ _ w2) as [[db|[db err]] w4];
        cbn [self world trace]; by rewrite <- !app_assoc.
  - unfold mret, M_ret. cbn [self world trace]. by rewrite <- !app_assoc.
Qed.

(** ** The loop *)

Lemma Later_connectLoop_cons (d : Later.databaseInner) rest (s : LSys W) :
  Later.connectLoop (d :: rest) s =
  match Later.connectOne d s with
  | (Some err, s') => (Some err, s')
  | (None, s') => Later.connectLoop rest s'
  end.
Proof.
  simpl. unfold mbind, M_bind. destruct (Later.connectOne d s) as [[err|] s'];
    reflexivity.
Qed.

Lemma Later_connectLoop_app (pre post : list Later.databaseInner) (s : LSys W) :
  Later.connectLoop (pre ++ post) s =
  match Later.connectLoop pre s with
  | (Some err, s') => (Some err, s')
  | (None, s') => Later.connectLoop post s'
  end.
Proof.
  revert s. induction pre as [|d pre IH]; intros s; [reflexivity |].
  rewrite <- app_comm_cons, !Later_connectLoop_cons.
  destruct (Later.connectOne d s) as [[err|] s']; [reflexivity | apply IH].
Qed.

Lemma Early_connectLoop_cons (d : Early.databaseInner) rest (s : ESys W) :
  Early.connectLoop (d :: rest) s =
  match Early.connectOne d s with
  | (Some err, s') => (Some err, s')
  | (None, s') => Early.connectLoop rest s'
  end.
Proof.
  simpl. unfold mbind, M_bind. destruct (Early.connectOne d s) as [[err|] s'];
    reflexivity.
Qed.

(** A turn that returns an error leaves the entry as it was; a turn
    that falls through has stored a handle under the descriptor's
    name and changed nothing else. *)
Lemma Later_connectOne_self (d : Later.databaseInner) (s s' : LSys W) r :
  Later.connectOne d s = (r, s') →
  match r with
  | Some _ => self s' = self s
  | None =>
      ∃ db, self s'
            = Later.set_GormDbMap
                (<[Later.name d := db]> (Later.GormDbMap (self s))) (self s)
  end.
Proof.
  destruct (negb (Later.dryRun d) && Later.autoCreate d) eqn:Hg.
  - rewrite (Later_connectOne_auto d s Hg). cbv zeta.
    destruct (gorm_Open _ _ (world s)) as [[aux|[aux err]] w1].
    + destruct (gorm_Exec aux _ w1) as [aux' w2].
      destruct (Error aux') as [err|]; [by intros [= <- <-] |].
      destruct (gorm_Open _ _ _) as [[db|[db err]] w4];
        intros [= <- <-]; simpl; eauto.
    + by intros [= <- <-].
  - rewrite (Later_connectOne_plain d s Hg). cbv zeta.
    destruct (gorm_Open _ _ (world s)) as [[db|[db err]] w];
      intros [= <- <-]; simpl; eauto.
Qed.

Lemma Early_connectOne_self (d : Early.databaseInner) (s s' : ESys W) r :
  Early.connectOne d s = (r, s') →
  match r with
  | Some _ => self s' = self s
  | None =>
      ∃ db, self s'
            = Early.set_GormDbMap
                (<[Early.name d := db]> (Early.GormDbMap (self s))) (self s)
  end.
Proof.
  destruct (negb (Early.dryRun d) && Early.autoCreate d) eqn:Hg.
  - rewrite (Early_connectOne_auto d s Hg). cbv zeta.
    destruct (gorm_Open _ _ (world s)) as [[aux|[aux err]] w1].
    + destruct (gorm_Exec aux _ w1) as [aux' w2].
      destruct (Error aux') as [err|]; [by intros [= <- <-] |].
      destruct (gorm_Open _ _ _) as [[db|[db err]] w4];
        intros [= <- <-]; simpl; eauto.
    + by intros [= <- <-].
  - rewrite (Early_connectOne_plain d s Hg). cbv zeta.
    destruct (gorm_Open _ _ (world s)) as [[db|[db err]] w];
      intros [= <- <-]; simpl; eauto.
Qed.

Lemma Early_connectLoop_app (pre post : list Early.databaseInner) (s : ESys W) :
  Early.connectLoop (pre ++ post) s =
  match Early.connectLoop pre s with
  | (Some err, s') => (Some err, s')
  | (None, s') => Early.connectLoop post s'
  end.
Proof.
  revert s. induction pre as [|d pre IH]; intros s; [reflexivity |].
  rewrite <- app_comm_cons, !Early_connectLoop_cons.
  destruct (Early.connectOne d s) as [[err|] s']; [reflexivity | apply IH].
Qed.

(** The loop never touches the credentials of the entry. *)
Lemma Early_connectLoop_credentials (l : list Early.databaseInner)
    (s s' : ESys W) r :
  Early.connectLoop l s = (r, s') →
  Early.User (self s') = Early.User (self s) ∧
  Early.Addr (self s') = Early.Addr (self s).
Proof.
  revert s. induction l as [|d l IH]; intros s.
  - by intros [= <- <-].
  - rewrite Early_connectLoop_cons.
    destruct (Early.connectOne d s) as [[err|] s1] eqn:Hone.
    + intros [= <- <-]. apply Early_connectOne_self in Hone. by rewrite Hone.
    + intros Hloop. apply Early_connectOne_self in Hone as [db Hs1].
      destruct (IH s1 Hloop) as [-> ->]. by rewrite Hs1.
Qed.

Lemma Later_connectLoop_stores (l : list Later.databaseInner) (s s' : LSys W) :
  Later.connectLoop l s = (None, s') →
  (∀ d, d ∈ l → is_Some (Later.GormDbMap (self s') !! Later.name d)) ∧
  (∀ n, is_Some (Later.GormDbMap (self s) !! n) →
        is_Some (Later.GormDbMap (self s') !! n)) ∧
  Later.User (self s') = Later.User (self s) ∧
  Later.Addr (self s') = Later.Addr (self s).
Proof.
  revert s. induction l as [|d l IH]; intros s.
  - intros [= <-]. repeat split; [intros d Hd; inversion Hd | done].
  - rewrite Later_connectLoop_cons.
    destruct (Later.connectOne d s) as [[err|] s1] eqn:Hone; [done |].
    intros Hloop. apply Later_connectOne_self in Hone as [db Hs1].
    destruct (IH s1 Hloop) as (Hin & Hmono & Hu & Ha).
    assert (Hkeep : ∀ n, is_Some (Later.GormDbMap (self s) !! n) →
                         is_Some (Later.GormDbMap (self s1) !! n)).
    { intros n Hn. rewrite Hs1. simpl.
      destruct (decide (Later.name d = n)) as [<-|Hne];
        [rewrite lookup_insert_eq; eauto | by rewrite lookup_insert_ne]. }
    repeat split.
    + intros d' [->|Hd']%elem_of_cons; [| by apply Hin].
      apply Hmono. rewrite Hs1. simpl. rewrite lookup_insert_eq. eauto.
    + intros n Hn. by apply Hmono, Hkeep.
    + rewrite Hu, Hs1. reflexivity.
    + rewrite Ha, Hs1. reflexivity.
Qed.

(** ** Bootstrap *)

Lemma Later_Bootstrap_run (ctx : Context) (s : LSys W) :
  Later.Bootstrap ctx s =
  let fields := Later.eventFields ctx (self s) in
  match Later.connectLoop (Later.innerDbList (self s))
          (mkSys (self s) (world s)
             (trace s ++ [EvInfo "Bootstrap clickHouseEntry" fields])) with
  | (Some err, s') =>
      (ShutdownWithError (Later.shutdownMessage (self s')),
       mkSys (self s') (world s')
         (trace s' ++
          [EvError "Failed to connect to database"
             (fields ++ [zap_Error err])]))
  | (None, s') => (Returned tt, s')
  end.
Proof.
  unfold Later.Bootstrap, Later.connect.
  unfold mbind, M_bind, mret, M_ret, getSelf, logInfo, logError, emit.
  cbn [self world trace].
  by destruct (Later.connectLoop _ _) as [[err|] s'].
Qed.

Lemma Early_Bootstrap_run (ctx : Context) (s : ESys W) :
  Early.Bootstrap ctx s =
  let fields := Early.eventFields ctx (self s) in
  match Early.connectLoop (Early.innerDbList (self s))
          (mkSys (self s) (world s)
             (trace s ++ [EvInfo "Bootstrap clickHouseEntry" fields])) with
  | (Some err, s') =>
      (ShutdownWithError (Early.shutdownMessage (self s')),
       mkSys (self s') (world s')
         (trace s' ++
          [EvError "Failed to connect to database"
             (fields ++ [zap_Error err])]))
  | (None, s') => (Returned tt, s')
  end.
Proof.
  unfold Early.Bootstrap, Early.connect.
  unfold mbind, M_bind, mret, M_ret, getSelf, logInfo, logError, emit.
  cbn [self world trace].
  by destruct (Early.connectLoop _ _) as [[err|] s'].
Qed.

(** C1: when the descriptors before [d] have connected and the turn
    for [d] returns an error, [Bootstrap] ends there: its final state
    is the state that turn left, plus the error log line, so no later
    descriptor is processed; the handle map is the one the earlier
    descriptors filled, each of them still holding a handle; and the
    process is shut down with a message made of the user, four stars
    in place of the password, and the address. *)
Theorem failed_connection_aborts_Bootstrap (ctx : Context) (s s1 s2 : LSys W)
    (pre post : list Later.databaseInner) (d : Later.databaseInner)
    (err : Err) :
  Later.innerDbList (self s) = pre ++ d :: post →
  Later.connectLoop pre
    (mkSys (self s) (world s)
       (trace s ++
        [EvInfo "Bootstrap clickHouseEntry" (Later.eventFields ctx (self s))]))
  = (None, s1) →
  Later.connectOne d s1 = (Some err, s2) →
  Later.Bootstrap ctx s
  = (ShutdownWithError
       ("failed to connect to database at " +:+ Later.User (self s) +:+
        ":****@" +:+ Later.Addr (self s)),
     mkSys (self s1) (world s2)
       (trace s2 ++
        [EvError "Failed to connect to database"
           (Later.eventFields ctx (self s) ++ [zap_Error err])])) ∧
  Later.GormDbMap (self s2) = Later.GormDbMap (self s1) ∧
  (∀ d', d' ∈ pre →
         is_Some (Later.GormDbMap (self s2) !! Later.name d')) ∧
  (∀ n, is_Some (Later.GormDbMap (self s) !! n) →
        is_Some (Later.GormDbMap (self s2) !! n)) ∧
  (∀ p, Later.shutdownMessage (Later.set_pass p (self s))
        = Later.shutdownMessage (self s)).
Proof.
  intros Hlist Hpre Hone.
  pose proof (Later_connectOne_self d s1 s2 _ Hone) as Hself.
  cbv beta iota in Hself.
  destruct (Later_connectLoop_stores pre _ s1 Hpre) as (Hin & Hmono & Hu & Ha).
  cbn [self] in Hmono, Hu, Ha.
  split; [| rewrite Hself; repeat split; auto].
  rewrite Later_Bootstrap_run. cbv zeta.
  rewrite Hlist, Later_connectLoop_app, Hpre, Later_connectLoop_cons, Hone.
  rewrite Hself. unfold Later.shutdownMessage. rewrite Hu, Ha. reflexivity.
Qed.

(** C2, amended.  For a descriptor with [dryRun = false] and
    [autoCreate = true]: the later variant opens a connection with the
    credentials only, executes [CREATE DATABASE IF NOT EXISTS] for the
    descriptor's name, calls [closeDB] on the auxiliary handle, and
    only then opens the real connection; when the auxiliary open or the
    statement fails, [closeDB] is called as well and the error is
    returned.  The early variant takes the same steps without any
    close: the auxiliary handle is left as it is.  In both variants a
    failure of the auxiliary open or of the statement aborts the entire
    [Bootstrap]: the error ends the loop of [connect], and when the
    descriptors before this one have connected, [Bootstrap] shuts the
    process down in the state that step left plus the error log line,
    so neither the real connection of this descriptor nor any later
    descriptor is opened. *)
Theorem auto_create_precedes_connection
    (dl : Later.databaseInner) (sl : LSys W)
    (de : Early.databaseInner) (se : ESys W) :
  (Later.dryRun dl = false → Later.autoCreate dl = true →
   let e := self sl in
   let cfg := Later.GormConfigMap e !! Later.name dl in
   let auxDsn :=
     "tcp://" +:+ Later.Addr e +:+ "?" +:+
     strings_Join [Later.User e; Later.pass e] "&" in
   let createSQL := "CREATE DATABASE IF NOT EXISTS " +:+ Later.name dl in
   let dsn :=
     "tcp://" +:+ Later.Addr e +:+ "?" +:+
     strings_Join (([Later.name dl] ++ [Later.User e; Later.pass e])
                   ++ Later.params dl) "&" in
   let creating :=
     EvInfo ("Creating database [" +:+ Later.name dl +:+ "]") [] in
   let created :=
     EvInfo ("Creating database [" +:+ Later.name dl +:+ "] successs") [] in
   let connecting :=
     EvInfo ("Connecting to database [" +:+ Later.name dl +:+ "]") [] in
   let connected :=
     EvInfo ("Connecting to database [" +:+ Later.name dl +:+ "] success") [] in
   Later.connectOne dl sl =
   match gorm_Open auxDsn cfg (world sl) with
   | (inr (aux, err), w1) =>
       (Some err,
        mkSys e (closeDB_world aux w1)
          (trace sl ++ [creating; EvOpen auxDsn cfg] ++ closeEvents aux))
   | (inl aux, w1) =>
       let (aux', w2) := gorm_Exec aux createSQL w1 in
       let w3 := closeDB_world (Some aux') w2 in
       let closed :=
         trace sl ++ [creating; EvOpen auxDsn cfg; EvExec aux createSQL]
         ++ closeEvents (Some aux') in
       match Error aux' with
       | Some err => (Some err, mkSys e w3 closed)
       | None =>
           match gorm_Open dsn cfg w3 with
           | (inl db, w4) =>
               (None,
                mkSys
                  (Later.set_GormDbMap
                     (<[Later.name dl := db]> (Later.GormDbMap e)) e)
                  w4
                  (closed ++ [created; connecting; EvOpen dsn cfg; connected]))
           | (inr (_, err), w4) =>
               (Some err,
                mkSys e w4 (closed ++ [created; connecting; EvOpen dsn cfg]))
           end
       end
   end) ∧
  (∀ err s' rest,
     Later.connectOne dl sl = (Some err, s') →
     Later.connectLoop (dl :: rest) sl = (Some err, s')) ∧
  (Early.dryRun de = false → Early.autoCreate de = true →
   let e := self se in
   let cfg := Early.GormConfigMap e !! Early.name de in
   let auxDsn :=
     "tcp://" +:+ Early.Addr e +:+ "?" +:+
     strings_Join [Early.User e; Early.pass e] "&" in
   let createSQL := "CREATE DATABASE IF NOT EXISTS " +:+ Early.name de in
   let dsn :=
     "tcp://" +:+ Early.Addr e +:+ "?" +:+
     strings_Join (([Early.name de] ++ [Early.User e; Early.pass e])
                   ++ Early.params de) "&" in
   let creating :=
     EvInfo ("Creating database [" +:+ Early.name de +:+ "]") [] in
   let created :=
     EvInfo ("Creating database [" +:+ Early.name de +:+ "] successs") [] in
   let connecting :=
     EvInfo ("Connecting to database [" +:+ Early.name de +:+ "]") [] in
   let connected :=
     EvInfo ("Connecting to database [" +:+ Early.name de +:+ "] success") [] in
   Early.connectOne de se =
   match gorm_Open auxDsn cfg (world se) with
   | (inr (_, err), w1) =>
       (Some err, mkSys e w1 (trace se ++ [creating; EvOpen auxDsn cfg]))
   | (inl aux, w1) =>
       let (aux', w2) := gorm_Exec aux createSQL w1 in
       let executed :=
         trace se ++ [creating; EvOpen auxDsn cfg; EvExec aux createSQL] in
       match Error aux' with
       | Some err => (Some err, mkSys e w2 executed)
       | None =>
           match gorm_Open dsn cfg w2 with
           | (inl db, w4) =>
               (None,
                mkSys
                  (Early.set_GormDbMap
                     (<[Early.name de := db]> (Early.GormDbMap e)) e)
                  w4
                  (executed ++
                   [created; connecting; EvOpen dsn cfg; connected]))
           | (inr (_, err), w4) =>
               (Some err,
                mkSys e w4
                  (executed ++ [created; connecting; EvOpen dsn cfg]))
           end
       end
   end) ∧
  (∀ err s' rest,
     Early.connectOne de se = (Some err, s') →
     Early.connectLoop (de :: rest) se = (Some err, s')) ∧
  (Later.dryRun dl = false → Later.autoCreate dl = true →
   ∀ (ctx : Context) (s : LSys W) (pre post : list Later.databaseInner),
     Later.innerDbList (self s) = pre ++ dl :: post →
     Later.connectLoop pre
       (mkSys (self s) (world s)
          (trace s ++
           [EvInfo "Bootstrap clickHouseEntry"
              (Later.eventFields ctx (self s))]))
     = (None, sl) →
     let e := self sl in
     let cfg := Later.GormConfigMap e !! Later.name dl in
     let auxDsn :=
       "tcp://" +:+ Later.Addr e +:+ "?" +:+
       strings_Join [Later.User e; Later.pass e] "&" in
     let createSQL := "CREATE DATABASE IF NOT EXISTS " +:+ Later.name dl in
     let creating :=
       EvInfo ("Creating database [" +:+ Later.name dl +:+ "]") [] in
     let shutdown (err : Err) (w : W) (tr : list (Event Later.GormConfig))
         : Outcome unit * LSys W :=
       (ShutdownWithError
          ("failed to connect to database at " +:+ Later.User (self s) +:+
           ":****@" +:+ Later.Addr (self s)),
        mkSys e w
          (tr ++
           [EvError "Failed to connect to database"
              (Later.eventFields ctx (self s) ++ [zap_Error err])])) in
     (∀ aux err w1,
        gorm_Open auxDsn cfg (world sl) = (inr (aux, err), w1) →
        Later.Bootstrap ctx s
        = shutdown err (closeDB_world aux w1)
            (trace sl ++ [creating; EvOpen auxDsn cfg] ++ closeEvents aux)) ∧
     (∀ aux w1 aux' w2 err,
        gorm_Open auxDsn cfg (world sl) = (inl aux, w1) →
        gorm_Exec aux createSQL w1 = (aux', w2) →
        Error aux' = Some err →
        Later.Bootstrap ctx s
        = shutdown err (closeDB_world (Some aux') w2)
            (trace sl ++ [creating; EvOpen auxDsn cfg; EvExec aux createSQL]
             ++ closeEvents (Some aux')))) ∧
  (Early.dryRun de = false → Early.autoCreate de = true →
   ∀ (ctx : Context) (s : ESys W) (pre post : list Early.databaseInner),
     Early.innerDbList (self s) = pre ++ de :: post →
     Early.connectLoop pre
       (mkSys (self s) (world s)
          (trace s ++
           [EvInfo "Bootstrap clickHouseEntry"
              (Early.eventFields ctx (self s))]))
     = (None, se) →
     let e := self se in
     let cfg := Early.GormConfigMap e !! Early.name de in
     let auxDsn :=
       "tcp://" +:+ Early.Addr e +:+ "?" +:+
       strings_Join [Early.User e; Early.pass e] "&" in
     let createSQL := "CREATE DATABASE IF NOT EXISTS " +:+ Early.name de in
     let creating :=
       EvInfo ("Creating database [" +:+ Early.name de +:+ "]") [] in
     let shutdown (err : Err) (w : W) (tr : list (Event Early.GormConfig))
         : Outcome unit * ESys W :=
       (ShutdownWithError
          ("failed to connect to database at " +:+ Early.User (self s) +:+
           ":****@" +:+ Early.Addr (self s)),
        mkSys e w
          (tr ++
           [EvError "Failed to connect to database"
              (Early.eventFields ctx (self s) ++ [zap_Error err])])) in
     (∀ aux err w1,
        gorm_Open auxDsn cfg (world se) = (inr (aux, err), w1) →
        Early.Bootstrap ctx s
        = shutdown err w1 (trace se ++ [creating; EvOpen auxDsn cfg])) ∧
     (∀ aux w1 aux' w2 err,
        gorm_Open auxDsn cfg (world se) = (inl aux, w1) →
        gorm_Exec aux createSQL w1 = (aux', w2) →
        Error aux' = Some err →
        Early.Bootstrap ctx s
        = shutdown err w2
            (trace se ++ [creating; EvOpen auxDsn cfg; EvExec aux createSQL]))).
Proof.
  split; [| split; [| split; [| split; [| split]]]].
  - intros Hdry Hauto. apply Later_connectOne_auto. by rewrite Hdry, Hauto.
  - intros err s' rest Hone. by rewrite Later_connectLoop_cons, Hone.
  - intros Hdry Hauto. apply Early_connectOne_auto. by rewrite Hdry, Hauto.
  - intros err s' rest Hone. by rewrite Early_connectLoop_cons, Hone.
  - intros Hdry Hauto ctx s pre post Hlist Hpre. cbv zeta.
    assert (Hg : negb (Later.dryRun dl) && Later.autoCreate dl = true)
      by (by rewrite Hdry, Hauto).
    pose proof (Later_connectOne_auto dl sl Hg) as Hone. cbv zeta in Hone.
    destruct (Later_connectLoop_stores pre _ sl Hpre) as (_ & _ & Hu & Ha).
    cbn [self] in Hu, Ha.
    split.
    + intros aux err w1 Hopen. rewrite Hopen in Hone.
      rewrite Later_Bootstrap_run. cbv zeta.
      rewrite Hlist, Later_connectLoop_app, Hpre, Later_connectLoop_cons, Hone.
      cbn [self world trace]. unfold Later.shutdownMessage.
      by rewrite Hu, Ha.
    + intros aux w1 aux' w2 err Hopen Hexec Herr.
      rewrite Hopen, Hexec, Herr in Hone.
      rewrite Later_Bootstrap_run. cbv zeta.
      rewrite Hlist, Later_connectLoop_app, Hpre, Later_connectLoop_cons, Hone.
      cbn [self world trace]. unfold Later.shutdownMessage.
      by rewrite Hu, Ha.
  - intros Hdry Hauto ctx s pre post Hlist Hpre. cbv zeta.
    assert (Hg : negb (Early.dryRun de) && Early.autoCreate de = true)
      by (by rewrite Hdry, Hauto).
    pose proof (Early_connectOne_auto de se Hg) as Hone. cbv zeta in Hone.
    destruct (Early_connectLoop_credentials pre _ se _ Hpre) as (Hu & Ha).
    cbn [self] in Hu, Ha.
    split.
    + intros aux err w1 Hopen. rewrite Hopen in Hone.
      rewrite Early_Bootstrap_run. cbv zeta.
      rewrite Hlist, Early_connectLoop_app, Hpre, Early_connectLoop_cons, Hone.
      cbn [self world trace]. unfold Early.shutdownMessage.
      by rewrite Hu, Ha.
    + intros aux w1 aux' w2 err Hopen Hexec Herr.
      rewrite Hopen, Hexec, Herr in Hone.
      rewrite Early_Bootstrap_run. cbv zeta.
      rewrite Hlist, Early_connectLoop_app, Hpre, Early_connectLoop_cons, Hone.
      cbn [self world trace]. unfold Early.shutdownMessage.
      by rewrite Hu, Ha.
Qed.

(** C3, amended.  For a descriptor with [dryRun = true], in both
    variants, the turn of the loop skips the auto-create step (no
    auxiliary connection, no statement, no close) and still calls
    [gorm.Open] once, with the descriptor's DSN and the configuration
    stored under its name; when that call succeeds the handle is stored
    under the descriptor's name, otherwise the error is returned and
    the entry is unchanged. *)
Theorem dry_run_skips_only_auto_create
    (dl : Later.databaseInner) (sl : LSys W)
    (de : Early.databaseInner) (se : ESys W) :
  (Later.dryRun dl = true →
   let e := self sl in
   let cfg := Later.GormConfigMap e !! Later.name dl in
   let dsn :=
     "tcp://" +:+ Later.Addr e +:+ "?" +:+
     strings_Join (([Later.name dl] ++ [Later.User e; Later.pass e])
                   ++ Later.params dl) "&" in
   let connecting :=
     EvInfo ("Connecting to database [" +:+ Later.name dl +:+ "]") [] in
   let connected :=
     EvInfo ("Connecting to database [" +:+ Later.name dl +:+ "] success") [] in
   Later.connectOne dl sl =
   match gorm_Open dsn cfg (world sl) with
   | (inl db, w) =>
       (None,
        mkSys
          (Later.set_GormDbMap (<[Later.name dl := db]> (Later.GormDbMap e)) e)
          w (trace sl ++ [connecting; EvOpen dsn cfg; connected]))
   | (inr (_, err), w) =>
       (Some err, mkSys e w (trace sl ++ [connecting; EvOpen dsn cfg]))
   end) ∧
  (Early.dryRun de = true →
   let e := self se in
   let cfg := Early.GormConfigMap e !! Early.name de in
   let dsn :=
     "tcp://" +:+ Early.Addr e +:+ "?" +:+
     strings_Join (([Early.name de] ++ [Early.User e; Early.pass e])
                   ++ Early.params de) "&" in
   let connecting :=
     EvInfo ("Connecting to database [" +:+ Early.name de +:+ "]") [] in
   let connected :=
     EvInfo ("Connecting to database [" +:+ Early.name de +:+ "] success") [] in
   Early.connectOne de se =
   match gorm_Open dsn cfg (world se) with
   | (inl db, w) =>
       (None,
        mkSys
          (Early.set_GormDbMap (<[Early.name de := db]> (Early.GormDbMap e)) e)
          w (trace se ++ [connecting; EvOpen dsn cfg; connected]))
   | (inr (_, err), w) =>
       (Some err, mkSys e w (trace se ++ [connecting; EvOpen dsn cfg]))
   end).
Proof.
  split; intros Hdry.
  - apply Later_connectOne_plain. by rewrite Hdry.
  - apply Early_connectOne_plain. by rewrite Hdry.
Qed.

(** ** Interrupt *)

Lemma closeWorld_cons (c : SqlDB) cs (w : W) :
  closeWorld (c :: cs) w = closeWorld cs (sql_Close c w).2.
Proof. reflexivity. Qed.

Lemma Later_closeAll_run (dbs : list GormDB) (s : LSys W) :
  Later.closeAll dbs s
  = (tt, mkSys (self s) (closeWorld (omap native dbs) (world s))
           (trace s ++ (EvClose <$> omap native dbs))).
Proof.
  revert s. induction dbs as [|db dbs IH]; intros s.
  - simpl. unfold mret, M_ret. rewrite app_nil_r. by destruct s.
  - cbn [Later.closeAll]. unfold mbind, M_bind.
    rewrite Later_closeDB_run, IH. cbn [self world trace].
    assert (Hcons : omap native (db :: dbs)
                    = match native db with
                      | Some c => c :: omap native dbs
                      | None => omap native dbs
                      end) by reflexivity.
    rewrite Hcons. unfold closeDB_world, closeEvents.
    cbn [mbind option_bind].
    destruct (native db) as [c|].
    + rewrite fmap_cons, closeWorld_cons, <- app_assoc. reflexivity.
    + by rewrite app_nil_r.
Qed.

Lemma closeWorld_commute (c : SqlDB) cs (w : W) :
  tolerant →
  closeWorld cs (sql_Close c w).2 = (sql_Close c (closeWorld cs w)).2.
Proof.
  intros [_ Hcomm]. revert w. induction cs as [|c' cs IH]; intros w;
    [reflexivity |].
  rewrite !closeWorld_cons, <- IH. f_equal. apply Hcomm.
Qed.

Lemma closeWorld_twice (cs : list SqlDB) (w : W) :
  tolerant → closeWorld cs (closeWorld cs w) = closeWorld cs w.
Proof.
  intros Htol. revert w. induction cs as [|c cs IH]; intros w;
    [reflexivity |].
  rewrite !closeWorld_cons.
  rewrite <- (closeWorld_commute c cs _ Htol).
  destruct Htol as [Hidem Hcomm]. rewrite Hidem. apply IH.
Qed.

Lemma closeWorld_perm (cs cs' : list SqlDB) (w : W) :
  tolerant → cs ≡ₚ cs' → closeWorld cs w = closeWorld cs' w.
Proof.
  intros [_ Hcomm] Hperm. revert w.
  induction Hperm as [|c cs cs' _ IH|c c' cs|cs cs' cs'' _ IH1 _ IH2];
    intros w.
  - reflexivity.
  - rewrite !closeWorld_cons. apply IH.
  - rewrite !closeWorld_cons. f_equal. apply Hcomm.
  - rewrite IH1. apply IH2.
Qed.

Lemma closed_app {C : Type} (tr tr' : list (Event C)) :
  closed (tr ++ tr') = closed tr ++ closed tr'.
Proof. unfold closed. apply omap_app. Qed.

Lemma Early_connectOne_closed (d : Early.databaseInner) (s : ESys W) :
  closed (trace (Early.connectOne d s).2) = closed (trace s).
Proof.
  destruct (negb (Early.dryRun d) && Early.autoCreate d) eqn:Hg.
  - rewrite (Early_connectOne_auto d s Hg). cbv zeta.
    destruct (gorm_Open _ _ (world s)) as [[aux|[aux err]] w1].
    + destruct (gorm_Exec aux _ w1) as [aux' w2].
      destruct (Error aux') as [err|].
      * cbn [snd trace]. rewrite closed_app. apply app_nil_r.
      * destruct (gorm_Open _ _ w2) as [[db|[db err]] w4];
          cbn [snd trace]; rewrite !closed_app; cbn; by rewrite !app_nil_r.
    + cbn [snd trace]. rewrite closed_app. apply app_nil_r.
  - rewrite (Early_connectOne_plain d s Hg). cbv zeta.
    destruct (gorm_Open _ _ (world s)) as [[db|[db err]] w];
      cbn [snd trace]; rewrite closed_app; apply app_nil_r.
Qed.

Lemma Early_connectLoop_closed (l : list Early.databaseInner) (s : ESys W) :
  closed (trace (Early.connectLoop l s).2) = closed (trace s).
Proof.
  revert s. induction l as [|d l IH]; intros s; [reflexivity |].
  rewrite Early_connectLoop_cons.
  pose proof (Early_connectOne_closed d s) as Hone.
  destruct (Early.connectOne d s) as [[err|] s1]; cbn [snd] in Hone.
  - exact Hone.
  - by rewrite IH.
Qed.

Lemma Early_Bootstrap_closed (ctx : Context) (s : ESys W) :
  closed (trace (Early.Bootstrap ctx s).2) = closed (trace s).
Proof.
  rewrite Early_Bootstrap_run. cbv zeta.
  match goal with
  | |- context [Early.connectLoop ?l ?s0] =>
      pose proof (Early_connectLoop_closed l s0) as Hloop;
      destruct (Early.connectLoop l s0) as [[err|] s1]
  end; cbn [snd trace] in *.
  - rewrite closed_app, Hloop, closed_app. cbn. by rewrite !app_nil_r.
  - rewrite Hloop, closed_app. apply app_nil_r.
Qed.

(** C6, amended.  In the later variant [Interrupt] calls [Close] on
    the native connection of every handle of the handle map (every
    handle that yields one), whatever the earlier [Close] calls
    returned, logs, and returns; the entry is unchanged, so a second
    [Interrupt] does the same calls again and returns as well, and on a
    driver that tolerates repeated [Close] it leaves the world as the
    first one left it, in whatever order the handles are visited.  In the early variant [Interrupt] only logs:
    neither it nor [Bootstrap] closes anything. *)
Theorem Interrupt_closes_handles_and_repeats (ctx ctx' : Context) :
  (∀ sl : LSys W,
     let cs := omap native (Later.handles (self sl)) in
     let line c :=
       EvInfo "Interrupt clickHouseEntry" (Later.eventFields c (self sl)) in
     Later.Interrupt ctx sl
     = (tt, mkSys (self sl) (closeWorld cs (world sl))
              (trace sl ++ (EvClose <$> cs) ++ [line ctx])) ∧
     (∀ n db c, Later.GormDbMap (self sl) !! n = Some db →
                gorm_DB db = inl c → c ∈ cs) ∧
     Later.Interrupt ctx' (Later.Interrupt ctx sl).2
     = (tt, mkSys (self sl) (closeWorld cs (closeWorld cs (world sl)))
              (trace sl ++ (EvClose <$> cs) ++ [line ctx] ++
               (EvClose <$> cs) ++ [line ctx'])) ∧
     (tolerant →
      ∀ cs', cs' ≡ₚ cs →
             closeWorld cs' (closeWorld cs (world sl))
             = closeWorld cs (world sl))) ∧
  (∀ se : ESys W,
     Early.Interrupt ctx se
     = (tt, mkSys (self se) (world se)
              (trace se ++
               [EvInfo "Interrupt clickHouseEntry"
                  (Early.eventFields ctx (self se))])) ∧
     closed (trace (Early.Interrupt ctx se).2) = closed (trace se) ∧
     closed (trace (Early.Bootstrap ctx se).2) = closed (trace se)).
Proof.
  assert (Hrun : ∀ c (s : LSys W),
            Later.Interrupt c s
            = (tt, mkSys (self s)
                     (closeWorld (omap native (Later.handles (self s)))
                        (world s))
                     (trace s ++
                      (EvClose <$> omap native (Later.handles (self s))) ++
                      [EvInfo "Interrupt clickHouseEntry"
                         (Later.eventFields c (self s))]))).
  { intros c s. unfold Later.Interrupt.
    unfold mbind, M_bind, getSelf, logInfo, emit.
    rewrite Later_closeAll_run. cbn [self world trace].
    by rewrite <- app_assoc. }
  split.
  - intros sl cs line. split; [apply Hrun |]. split; [| split].
    + intros n db c Hn Hc. subst cs. apply list_elem_of_omap.
      exists db. split.
      * unfold Later.handles. apply elem_of_values. eauto.
      * unfold native. by rewrite Hc.
    + rewrite (Hrun ctx sl). cbn [snd]. rewrite (Hrun ctx').
      cbn [self world trace]. subst cs line. cbn beta.
      by rewrite <- !app_assoc.
    + intros Htol cs' Hperm.
      rewrite (closeWorld_perm cs' cs _ Htol Hperm).
      by apply closeWorld_twice.
  - intros se.
    assert (Hint : Early.Interrupt ctx se
                   = (tt, mkSys (self se) (world se)
                            (trace se ++
                             [EvInfo "Interrupt clickHouseEntry"
                                (Early.eventFields ctx (self se))]))).
    { reflexivity. }
    split; [exact Hint |]. split; [| apply Early_Bootstrap_closed].
    rewrite Hint. cbn [snd trace]. rewrite closed_app. apply app_nil_r.
Qed.
End connecting.

(** * The model on the simulated server *)

Lemma Sim_tolerant : tolerant (W := Sim.World).
Proof.
  split.
  - intros c [n l r j]. simpl. f_equal.
    induction l as [|x l IH]; [reflexivity |].
    rewrite filter_cons. destruct (decide (x ≠ c)) as [Hx|Hx].
    + rewrite filter_cons. destruct (decide (x ≠ c)); [| done].
      by rewrite IH.
    + exact IH.
  - intros c c' [n l r j]. simpl. f_equal.
    induction l as [|x l IH]; [reflexivity |].
    rewrite !filter_cons.
    destruct (decide (x ≠ c')), (decide (x ≠ c)); rewrite ?filter_cons;
      repeat (destruct (decide _); try done); by rewrite IH.
Qed.

(** The second of three descriptors is refused: the process is shut
    down, the first descriptor keeps its handle, the third is never
    opened. *)
Lemma failed_connection_aborts_Bootstrap_witness :
  (Later.Bootstrap None Sim.audit_refused).1
  = ShutdownWithError
      "failed to connect to database at default:****@localhost:9000" ∧
  is_Some (Later.GetDB
             (self (Later.connectOne (Later.mkInner "audit" false false [] [])
                      (Later.connectLoop
                         [Later.mkInner "user" false true [] []]
                         (mkSys (self Sim.audit_refused)
                            (world Sim.audit_refused)
                            [EvInfo "Bootstrap clickHouseEntry"
                               (Later.eventFields None
                                  (self Sim.audit_refused))])).2).2)
             "user") ∧
  opened (trace (Later.Bootstrap None Sim.audit_refused).2)
  = ["tcp://localhost:9000?default&"; "tcp://localhost:9000?user&default&";
     "tcp://localhost:9000?audit&default&"].
Proof.
  pose proof (failed_connection_aborts_Bootstrap None Sim.audit_refused
    (Later.connectLoop [Later.mkInner "user" false true [] []]
       (mkSys (self Sim.audit_refused) (world Sim.audit_refused)
          [EvInfo "Bootstrap clickHouseEntry"
             (Later.eventFields None (self Sim.audit_refused))])).2
    (Later.connectOne (Later.mkInner "audit" false false [] [])
       (Later.connectLoop [Later.mkInner "user" false true [] []]
          (mkSys (self Sim.audit_refused) (world Sim.audit_refused)
             [EvInfo "Bootstrap clickHouseEntry"
                (Later.eventFields None (self Sim.audit_refused))])).2).2
    [Later.mkInner "user" false true [] []]
    [Later.mkInner "late" false false [] []]
    (Later.mkInner "audit" false false [] [])
    "dial tcp: connection refused") as Habort.
  destruct Habort as (Hrun & _ & Hin & _).
  - reflexivity.
  - vm_compute. reflexivity.
  - vm_compute. reflexivity.
  - split; [by rewrite Hrun |]. split.
    + apply (Hin (Later.mkInner "user" false true [] [])).
      apply list_elem_of_here.
    + rewrite Hrun. vm_compute. reflexivity.
Defined.

(** C2, as stated, fails in the early variant: the auxiliary
    connection (number 0) and the real one are opened, no [Close] is
    ever called, and the auxiliary connection is still open when
    [Bootstrap] returns. *)
Lemma Early_auxiliary_connection_is_not_closed :
  (Early.Bootstrap None Sim.early_auto).1 = Returned tt ∧
  opened (trace (Early.Bootstrap None Sim.early_auto).2)
  = ["tcp://localhost:9000?default&"; "tcp://localhost:9000?user&default&"] ∧
  closed (trace (Early.Bootstrap None Sim.early_auto).2) = [] ∧
  Sim.live (world (Early.Bootstrap None Sim.early_auto).2) = [1; 0] ∧
  Early.GetDB (self (Early.Bootstrap None Sim.early_auto).2) "user"
  = Some (mkGormDB 1 None).
Proof. vm_compute. repeat split; reflexivity. Qed.

(** The later variant on the same configuration: connection 0 is
    closed before the real connection is opened.  On a server that
    rejects the statement, [Bootstrap] shuts the process down in both
    variants after the auxiliary connection alone was opened, the
    second descriptor untouched; the later variant has closed that
    connection, the early one has not. *)
Lemma auto_create_precedes_connection_witness :
  (Later.connectOne (Later.mkInner "user" false true [] []) Sim.later_auto).1
  = None ∧
  closed (trace (Later.connectOne (Later.mkInner "user" false true [] [])
                   Sim.later_auto).2) = [0] ∧
  Sim.live (world (Later.connectOne (Later.mkInner "user" false true [] [])
                     Sim.later_auto).2) = [1] ∧
  closed (trace (Early.connectOne (Early.mkInner "user" false true [])
                   Sim.early_auto).2) = [] ∧
  ((Later.Bootstrap None Sim.later_denied).1
   = ShutdownWithError
       "failed to connect to database at default:****@localhost:9000" ∧
   opened (trace (Later.Bootstrap None Sim.later_denied).2)
   = ["tcp://localhost:9000?default&"] ∧
   closed (trace (Later.Bootstrap None Sim.later_denied).2) = [0] ∧
   Sim.live (world (Later.Bootstrap None Sim.later_denied).2) = []) ∧
  ((Early.Bootstrap None Sim.early_denied).1
   = ShutdownWithError
       "failed to connect to database at default:****@localhost:9000" ∧
   opened (trace (Early.Bootstrap None Sim.early_denied).2)
   = ["tcp://localhost:9000?default&"] ∧
   closed (trace (Early.Bootstrap None Sim.early_denied).2) = [] ∧
   Sim.live (world (Early.Bootstrap None Sim.early_denied).2) = [0]).
Proof.
  destruct (auto_create_precedes_connection
              (Later.mkInner "user" false true [] []) Sim.later_auto
              (Early.mkInner "user" false true []) Sim.early_auto)
    as (Hlater & _ & Hearly & _).
  destruct (auto_create_precedes_connection
              (Later.mkInner "user" false true [] [])
              (mkSys (self Sim.later_denied) (world Sim.later_denied)
                 [EvInfo "Bootstrap clickHouseEntry"
                    (Later.eventFields None (self Sim.later_denied))])
              (Early.mkInner "user" false true [])
              (mkSys (self Sim.early_denied) (world Sim.early_denied)
                 [EvInfo "Bootstrap clickHouseEntry"
                    (Early.eventFields None (self Sim.early_denied))]))
    as (_ & _ & _ & _ & Hlb & Heb).
  destruct (Hlb eq_refl eq_refl None Sim.later_denied []
              [Later.mkInner "audit" false false [] []]
              eq_refl eq_refl) as [_ Hldenied].
  destruct (Heb eq_refl eq_refl None Sim.early_denied []
              [Early.mkInner "audit" false false []]
              eq_refl eq_refl) as [_ Hedenied].
  rewrite (Hlater eq_refl eq_refl), (Hearly eq_refl eq_refl).
  rewrite (Hldenied (mkGormDB 0 None)
             (Sim.mkWorld 1 [0] [] ["CREATE DATABASE IF NOT EXISTS user"])
             (mkGormDB 0 (Some "code: 497, not enough privileges"))
             (Sim.mkWorld 1 [0] [] ["CREATE DATABASE IF NOT EXISTS user"])
             "code: 497, not enough privileges"
             eq_refl eq_refl eq_refl).
  rewrite (Hedenied (mkGormDB 0 None)
             (Sim.mkWorld 1 [0] [] ["CREATE DATABASE IF NOT EXISTS user"])
             (mkGormDB 0 (Some "code: 497, not enough privileges"))
             (Sim.mkWorld 1 [0] [] ["CREATE DATABASE IF NOT EXISTS user"])
             "code: 497, not enough privileges"
             eq_refl eq_refl eq_refl).
  vm_compute. repeat split; reflexivity.
Defined.

(** C3, as stated, fails: for a descriptor with [dryRun = true] the
    connection is opened and the handle stored, in both variants. *)
Lemma dry_run_descriptor_is_opened_and_stored :
  (opened (trace (Later.Bootstrap None Sim.later_dry).2)
   = ["tcp://localhost:9000?demo&default&"] ∧
   Later.GetDB (self (Later.Bootstrap None Sim.later_dry).2) "demo"
   = Some (mkGormDB 0 None) ∧
   Sim.live (world (Later.Bootstrap None Sim.later_dry).2) = [0]) ∧
  (opened (trace (Early.Bootstrap None Sim.early_dry).2)
   = ["tcp://localhost:9000?demo&default&"] ∧
   Early.GetDB (self (Early.Bootstrap None Sim.early_dry).2) "demo"
   = Some (mkGormDB 0 None) ∧
   Sim.live (world (Early.Bootstrap None Sim.early_dry).2) = [0]).
Proof. vm_compute. repeat split; reflexivity. Qed.

Lemma dry_run_skips_only_auto_create_witness :
  (Later.connectOne (Later.mkInner "demo" true false [] []) Sim.later_dry).1
  = None ∧
  opened (trace (Later.connectOne (Later.mkInner "demo" true false [] [])
                   Sim.later_dry).2)
  = ["tcp://localhost:9000?demo&default&"] ∧
  (Early.connectOne (Early.mkInner "demo" true false []) Sim.early_dry).1
  = None.
Proof.
  destruct (dry_run_skips_only_auto_create
              (Later.mkInner "demo" true false [] []) Sim.later_dry
              (Early.mkInner "demo" true false []) Sim.early_dry)
    as (Hlater & Hearly).
  rewrite (Hlater eq_refl), (Hearly eq_refl).
  vm_compute. repeat split; reflexivity.
Defined.

(** C6, as stated, fails in the early variant: after [Bootstrap] the
    handle map holds the handle of connection 1, and after [Interrupt]
    no [Close] was called and the connection is still open and
    answering. *)
Lemma Early_Interrupt_closes_nothing :
  Early.GetDB (self (Early.Bootstrap None Sim.early_auto).2) "user"
  = Some (mkGormDB 1 None) ∧
  closed (trace (Early.Interrupt None
                   (Early.Bootstrap None Sim.early_auto).2).2) = [] ∧
  Sim.live (world (Early.Interrupt None
                     (Early.Bootstrap None Sim.early_auto).2).2) = [1; 0] ∧
  sql_Ping 1 (world (Early.Interrupt None
                       (Early.Bootstrap None Sim.early_auto).2).2) = None.
Proof. vm_compute. repeat split; reflexivity. Qed.

(** The later variant on the simulated server: the second [Interrupt]
    leaves the connections as the first one did, all closed. *)
Lemma Interrupt_closes_handles_and_repeats_witness :
  Sim.live (world (Later.Interrupt None
                     (Later.Interrupt None
                        (Later.Bootstrap None Sim.later_auto).2).2).2)
  = Sim.live (world (Later.Interrupt None
                       (Later.Bootstrap None Sim.later_auto).2).2) ∧
  Sim.live (world (Later.Interrupt None
                     (Later.Bootstrap None Sim.later_auto).2).2) = [].
Proof.
  destruct (Interrupt_closes_handles_and_repeats (W := Sim.World) None None)
    as [Hlater _].
  destruct (Hlater (Later.Bootstrap None Sim.later_auto).2)
    as (Hone & _ & Htwo & Hsame).
  rewrite Htwo, Hone. cbn [snd world].
  rewrite (Hsame Sim_tolerant _ (reflexivity _)).
  split; [reflexivity |]. vm_compute. reflexivity.
Defined.

(** * Registration, whatever the options *)

Lemma append_nonempty_r (a b : string) :
  nonempty b = true → nonempty (a +:+ b) = true.
Proof. intros Hb. destruct a; [exact Hb | reflexivity]. Qed.

Lemma Later_describe_nonempty (e : Later.ClickHouseEntry) :
  nonempty (Later.describe e) = true.
Proof. unfold Later.describe. by apply append_nonempty_r. Qed.

Lemma Early_describe_nonempty (e : Early.ClickHouseEntry) :
  nonempty (Early.describe e) = true.
Proof. unfold Early.describe. by apply append_nonempty_r. Qed.

Lemma Later_defaultConfigs_frame (e : Later.ClickHouseEntry) :
  Later.defaultConfigs e
  = Later.set_GormConfigMap (Later.GormConfigMap (Later.defaultConfigs e)) e.
Proof.
  unfold Later.defaultConfigs. generalize (Later.innerDbList e) as l.
  intros l. revert e. induction l as [|d l IH]; intros e.
  - by destruct e.
  - simpl. rewrite IH at 1. by destruct e.
Qed.

Lemma Early_defaultConfigs_frame (e : Early.ClickHouseEntry) :
  Early.defaultConfigs e
  = Early.set_GormConfigMap (Early.GormConfigMap (Early.defaultConfigs e)) e.
Proof.
  unfold Early.defaultConfigs. generalize (Early.innerDbList e) as l.
  intros l. revert e. induction l as [|d l IH]; intros e.
  - by destruct e.
  - simpl. rewrite IH at 1. by destruct e.
Qed.

Section registered_any.
Context {H : Type} `{!Later.Host H}.
Context {H' : Type} `{!Early.Host H'}.

Lemma Later_Register_unfold (opts : list Later.Option) (h : H) :
  Later.RegisterClickHouseEntry opts h
  = (Later.defaultConfigs
       (Later_described (foldl (λ e opt, opt e) (Later_initial h) opts)),
     Later.AddEntry
       (Later.defaultConfigs
          (Later_described (foldl (λ e opt, opt e) (Later_initial h) opts)))
       h).
Proof. reflexivity. Qed.

Lemma Early_Register_unfold (opts : list Early.Option) (h : H') :
  Early.RegisterClickHouseEntry opts h
  = (Early.defaultConfigs
       (Early_described (foldl (λ e opt, opt e) (Early_initial h) opts)),
     Early.AddEntry
       (Early.defaultConfigs
          (Early_described (foldl (λ e opt, opt e) (Early_initial h) opts)))
       h).
Proof. reflexivity. Qed.

Lemma Later_described_nonempty (e : Later.ClickHouseEntry) :
  Later.entryDescription (Later_described e) ≠ EmptyString.
Proof.
  unfold Later_described.
  destruct (nonempty (Later.entryDescription e)) eqn:Hd; cbn.
  - by apply nonempty_true.
  - apply nonempty_true, Later_describe_nonempty.
Qed.

Lemma Early_described_nonempty (e : Early.ClickHouseEntry) :
  Early.EntryDescription (Early_described e) ≠ EmptyString.
Proof.
  unfold Early_described.
  destruct (nonempty (Early.EntryDescription e)) eqn:Hd; cbn.
  - by apply nonempty_true.
  - apply nonempty_true, Early_describe_nonempty.
Qed.

(** X1: in both variants a registered entry never has an empty
    description, whatever the options did: an empty description is
    replaced by the formatted one before the entry is added to the
    registry, and a description that is not empty is kept. *)
Theorem registered_description_nonempty :
  (∀ (opts : list Later.Option) (h : H),
     let e := (Later.RegisterClickHouseEntry opts h).1 in
     let e0 := foldl (λ e opt, opt e) (Later_initial h) opts in
     Later.GetDescription e ≠ EmptyString ∧
     (Later.entryDescription e0 ≠ EmptyString →
      Later.GetDescription e = Later.entryDescription e0) ∧
     (Later.entryDescription e0 = EmptyString →
      Later.GetDescription e = Later.describe e0)) ∧
  (∀ (opts : list Early.Option) (h : H'),
     let e := (Early.RegisterClickHouseEntry opts h).1 in
     let e0 := foldl (λ e opt, opt e) (Early_initial h) opts in
     Early.GetDescription e ≠ EmptyString ∧
     (Early.EntryDescription e0 ≠ EmptyString →
      Early.GetDescription e = Early.EntryDescription e0) ∧
     (Early.EntryDescription e0 = EmptyString →
      Early.GetDescription e = Early.describe e0)).
Proof.
  split; intros opts h e e0.
  - assert (Hd : Later.GetDescription e
                 = Later.entryDescription (Later_described e0)).
    { subst e. rewrite Later_Register_unfold. cbn [fst].
      unfold Later.GetDescription. by rewrite Later_defaultConfigs_frame. }
    rewrite Hd. split; [apply Later_described_nonempty |].
    unfold Later_described. split.
    + intros Hne%nonempty_true. by rewrite Hne.
    + intros Hemp%nonempty_false. by rewrite Hemp.
  - assert (Hd : Early.GetDescription e
                 = Early.EntryDescription (Early_described e0)).
    { subst e. rewrite Early_Register_unfold. cbn [fst].
      unfold Early.GetDescription. by rewrite Early_defaultConfigs_frame. }
    rewrite Hd. split; [apply Early_described_nonempty |].
    unfold Early_described. split.
    + intros Hne%nonempty_true. by rewrite Hne.
    + intros Hemp%nonempty_false. by rewrite Hemp.
Qed.

Lemma last_named (n : string) (l : list Later.databaseInner) :
  (∃ d, d ∈ l ∧ Later.name d = n) →
  ∃ l1 d l2, l = l1 ++ d :: l2 ∧ Later.name d = n ∧
             ∀ d', d' ∈ l2 → Later.name d' ≠ n.
Proof.
  induction l as [|x l IH]; intros (d & Hin & Hn); [inversion Hin |].
  destruct (decide (Exists (λ d', Later.name d' = n) l)) as [Hex|Hno].
  - apply Exists_exists in Hex. destruct (IH Hex) as (l1 & d' & l2 & -> & ?).
    by exists (x :: l1), d', l2.
  - assert (Hnone : ∀ d', d' ∈ l → Later.name d' ≠ n).
    { intros d' Hd' Heq. apply Hno, Exists_exists. eauto. }
    apply elem_of_cons in Hin as [->|Hin]; [| by destruct (Hnone d Hin)].
    by exists [], x, l.
Qed.

Lemma Later_registered_config_last (opts : list Later.Option) (h : H)
    l1 d l2 :
  let e := (Later.RegisterClickHouseEntry opts h).1 in
  Later.innerDbList e = l1 ++ d :: l2 →
  (∀ d', d' ∈ l2 → Later.name d' ≠ Later.name d) →
  Later.GormConfigMap e !! Later.name d
  = Some (Later.mkConfig (Later.logger e) (Later.dryRun d)).
Proof.
  intros e. subst e. rewrite Later_Register_unfold. cbn [fst].
  set (e1 := Later_described _).
  intros Hsplit Hlast.
  rewrite Later_defaultConfigs_frame in Hsplit. cbn in Hsplit.
  rewrite (Later_defaultConfigs_frame e1) at 2. cbn.
  by apply (Later_defaultConfigs_last l1 l2).
Qed.

Lemma Later_registered_config_some (opts : list Later.Option) (h : H) d :
  let e := (Later.RegisterClickHouseEntry opts h).1 in
  d ∈ Later.innerDbList e →
  ∃ cfg, Later.GormConfigMap e !! Later.name d = Some cfg ∧
         Later.cfg_Logger cfg = Later.logger e.
Proof.
  intros e Hd.
  destruct (last_named (Later.name d) (Later.innerDbList e))
    as (l1 & d' & l2 & Hsplit & Hname & Hnone); [eauto |].
  rewrite <- Hname in Hnone. rewrite <- Hname.
  pose proof (Later_registered_config_last opts h l1 d' l2 Hsplit Hnone)
    as Hcfg.
  cbv zeta in Hcfg. fold e in Hcfg. rewrite Hcfg. eauto.
Qed.

(** X2: whatever the options, every descriptor of a registered entry
    has a configuration under its name, carrying the entry's logger;
    the configuration under a name has the dry-run flag of the last
    descriptor of that name. *)
Theorem registered_descriptors_have_configs
    (opts : list Later.Option) (h : H) :
  let e := (Later.RegisterClickHouseEntry opts h).1 in
  (∀ d, d ∈ Later.innerDbList e →
        ∃ cfg, Later.GormConfigMap e !! Later.name d = Some cfg ∧
               Later.cfg_Logger cfg = Later.logger e) ∧
  (∀ l1 d l2,
     Later.innerDbList e = l1 ++ d :: l2 →
     (∀ d', d' ∈ l2 → Later.name d' ≠ Later.name d) →
     Later.GormConfigMap e !! Later.name d
     = Some (Later.mkConfig (Later.logger e) (Later.dryRun d))).
Proof.
  intros e. split.
  - intros d. apply Later_registered_config_some.
  - intros l1 d l2. apply Later_registered_config_last.
Qed.
End registered_any.


Section registered_standard.
Context {H : Type} `{!Later.Host H}.

Lemma standard_frame (o : Later.Option) (e : Later.ClickHouseEntry) :
  standard o →
  Later.entryType (o e) = Later.entryType e ∧
  Later.GormDbMap (o e) = Later.GormDbMap e ∧
  Later.GormConfigMap (o e) = Later.GormConfigMap e.
Proof.
  intros [n|d|u|p|a|n dr ac ps|n p|l]; destruct e; cbn.
  - done.
  - done.
  - unfold Later.WithUser. by destruct (nonempty u).
  - unfold Later.WithPass. by destruct (nonempty p).
  - unfold Later.WithAddr. by destruct (nonempty a).
  - unfold Later.WithDatabase. by destruct (negb (nonempty n)).
  - unfold Later.WithPlugin. destruct p as [p|]; [| done].
    by destruct (bool_decide (n = EmptyString)).
  - by destruct l.
Qed.

Lemma standard_fold_frame (opts : list Later.Option)
    (e : Later.ClickHouseEntry) :
  Forall standard opts →
  Later.entryType (foldl (λ e opt, opt e) e opts) = Later.entryType e ∧
  Later.GormDbMap (foldl (λ e opt, opt e) e opts) = Later.GormDbMap e ∧
  Later.GormConfigMap (foldl (λ e opt, opt e) e opts) = Later.GormConfigMap e.
Proof.
  intros Hstd. revert e. induction Hstd as [|o opts Ho _ IH]; intros e;
    [done |].
  simpl. destruct (IH (o e)) as (-> & -> & ->). by apply standard_frame.
Qed.

(** X3: an entry registered with any list of the package's options has
    the type [ClickHouseEntry], no handle under any name and one
    configuration per descriptor name, no more; with no handle to
    probe, [IsHealthy] answers [true] on it in every state of the
    world. *)
Theorem registered_entry_has_no_handle (opts : list Later.Option) (h : H) :
  Forall standard opts →
  let e := (Later.RegisterClickHouseEntry opts h).1 in
  Later.GetType e = Later.ClickHouseEntryType ∧
  (∀ n, Later.GetDB e n = None) ∧
  dom (Later.GormConfigMap e)
  = list_to_set (Later.name <$> Later.innerDbList e) ∧
  (∀ (W : Type) (D : Driver W) (w : W), Later.IsHealthy e w = true).
Proof.
  intros Hstd e.
  destruct (standard_fold_frame opts (Later_initial h) Hstd)
    as (Hty & Hdb & Hcfg).
  set (e0 := foldl (λ e opt, opt e) (Later_initial h) opts) in *.
  assert (He : e = Later.defaultConfigs (Later_described e0)) by done.
  assert (Hd : Later.entryType (Later_described e0) = Later.entryType e0
               ∧ Later.GormDbMap (Later_described e0) = Later.GormDbMap e0
               ∧ Later.GormConfigMap (Later_described e0)
                 = Later.GormConfigMap e0
               ∧ Later.innerDbList (Later_described e0)
                 = Later.innerDbList e0).
  { unfold Later_described. by destruct (negb _). }
  destruct Hd as (Hty1 & Hdb1 & Hcfg1 & Hl1).
  destruct (Later_defaultConfigs_fold (Later.innerDbList (Later_described e0))
              (Later_described e0)) as (Hl & _ & Hdb2 & Hdom).
  fold (Later.defaultConfigs (Later_described e0)) in Hl, Hdb2, Hdom.
  rewrite <- He in Hl, Hdb2, Hdom.
  assert (Hmap : Later.GormDbMap e = ∅) by (by rewrite Hdb2, Hdb1, Hdb).
  split; [| split; [| split]].
  - unfold Later.GetType. rewrite He, Later_defaultConfigs_frame. cbn.
    by rewrite Hty1, Hty.
  - intros n. unfold Later.GetDB. by rewrite Hmap.
  - rewrite Hdom, Hcfg1, Hcfg, Hl. cbn. rewrite dom_empty_L.
    apply (left_id_L ∅ (∪)).
  - intros W D w. unfold Later.IsHealthy, Later.handles.
    by rewrite Hmap, map_to_list_empty.
Qed.
End registered_standard.

(** An entry registered with a name, an empty user, two databases and
    a plugin. *)
Lemma registered_entry_has_no_handle_witness :
  Later.GetDB
    (Sim.later_entry
       [Later.WithName "orders"; Later.WithUser EmptyString;
        Later.WithDatabase "user" false true [];
        Later.WithPlugin "user" (Some (Later.UserPlugin 7));
        Later.WithDatabase "audit" true false []])
    "user" = None ∧
  Later.IsHealthy
    (Sim.later_entry
       [Later.WithName "orders"; Later.WithUser EmptyString;
        Later.WithDatabase "user" false true [];
        Later.WithPlugin "user" (Some (Later.UserPlugin 7));
        Later.WithDatabase "audit" true false []])
    Sim.fresh = true.
Proof.
  destruct (registered_entry_has_no_handle
    [Later.WithName "orders"; Later.WithUser EmptyString;
     Later.WithDatabase "user" false true [];
     Later.WithPlugin "user" (Some (Later.UserPlugin 7));
     Later.WithDatabase "audit" true false []] Sim.prod)
    as (_ & Hdb & _ & Hhealthy).
  - repeat constructor.
  - split; [apply Hdb | apply Hhealthy].
Defined.

(** * Attaching plugins *)

Lemma attach_none (n : string) (p : Later.Plugin)
    (l : list Later.databaseInner) :
  (∀ d, d ∈ l → Later.name d ≠ n) →
  map (λ inner,
         if bool_decide (Later.name inner = n)
         then Later.mkInner (Later.name inner) (Later.dryRun inner)
                (Later.autoCreate inner) (Later.params inner)
                (Later.plugins inner ++ [p])
         else inner) l = l.
Proof.
  induction l as [|d l IH]; intros Hne; [reflexivity |].
  simpl. rewrite bool_decide_eq_false_2 by (apply Hne; by left).
  rewrite IH; [done |]. intros d' Hd'. apply Hne. by right.
Qed.

Lemma Later_set_innerDbList_same (e : Later.ClickHouseEntry) :
  Later.set_innerDbList (Later.innerDbList e) e = e.
Proof. by destruct e. Qed.

Lemma WithPlugin_declared (n : string) (p : option Later.Plugin)
    (e : Later.ClickHouseEntry) :
  declared <$> Later.innerDbList (Later.WithPlugin n p e)
  = declared <$> Later.innerDbList e.
Proof.
  unfold Later.WithPlugin. destruct p as [p|]; [| done].
  destruct (bool_decide (n = EmptyString)); [done |].
  destruct e as [? ? ? ? ? ? ? l ? ?]. cbn.
  induction l as [|d l IH]; [done |].
  cbn. rewrite IH. by destruct (bool_decide (Later.name d = n)).
Qed.

(** X4: [WithPlugin] never adds, drops or reorders descriptors and
    never changes what they were declared with.  With a name that no
    descriptor has it changes nothing at all, so a plugin attached
    before its database is declared is lost, while one attached after
    is kept; with a name that descriptors have, every one of them
    carries the plugin afterwards. *)
Theorem WithPlugin_attaches_by_name (n : string) (p : Later.Plugin)
    (e : Later.ClickHouseEntry) :
  declared <$> Later.innerDbList (Later.WithPlugin n (Some p) e)
  = declared <$> Later.innerDbList e ∧
  ((∀ d, d ∈ Later.innerDbList e → Later.name d ≠ n) →
   Later.WithPlugin n (Some p) e = e ∧
   ∀ dryRun autoCreate params,
     n ≠ EmptyString →
     Later.innerDbList
       (Later.WithDatabase n dryRun autoCreate params
          (Later.WithPlugin n (Some p) e))
     = Later.innerDbList e ++ [Later.mkInner n dryRun autoCreate params []] ∧
     Later.innerDbList
       (Later.WithPlugin n (Some p)
          (Later.WithDatabase n dryRun autoCreate params e))
     = Later.innerDbList e ++ [Later.mkInner n dryRun autoCreate params [p]]) ∧
  (n ≠ EmptyString →
   ∀ d, d ∈ Later.innerDbList (Later.WithPlugin n (Some p) e) →
        Later.name d = n → p ∈ Later.plugins d).
Proof.
  split; [apply WithPlugin_declared |]. split.
  - intros Hne.
    assert (Hsame : Later.WithPlugin n (Some p) e = e).
    { unfold Later.WithPlugin. destruct (bool_decide (n = EmptyString));
        [done |].
      rewrite attach_none by done. apply Later_set_innerDbList_same. }
    split; [exact Hsame |]. intros dr ac ps Hn. rewrite Hsame.
    apply nonempty_true in Hn. unfold Later.WithDatabase. rewrite Hn. cbn.
    split; [by destruct e |].
    unfold Later.WithPlugin.
    rewrite bool_decide_eq_false_2 by (by apply nonempty_true).
    destruct e as [? ? ? ? ? ? ? l ? ?]. cbn in *.
    rewrite map_app, attach_none by done. cbn.
    by rewrite bool_decide_eq_true_2.
  - intros Hn d. unfold Later.WithPlugin.
    rewrite bool_decide_eq_false_2 by done.
    destruct e as [? ? ? ? ? ? ? l ? ?]. cbn.
    intros (x & -> & Hx)%list_elem_of_fmap.
    destruct (bool_decide (Later.name x = n)) eqn:Hb; cbn.
    + intros _. apply elem_of_app. right. by left.
    + intros Hname. apply bool_decide_eq_false in Hb. done.
Qed.

(** A plugin for [user] on an entry whose only descriptor is [audit]. *)
Lemma WithPlugin_attaches_by_name_witness :
  Later.WithPlugin "user" (Some (Later.UserPlugin 7))
    (Sim.later_entry [Later.WithDatabase "audit" true false []])
  = Sim.later_entry [Later.WithDatabase "audit" true false []].
Proof.
  apply (WithPlugin_attaches_by_name "user" (Later.UserPlugin 7)
           (Sim.later_entry [Later.WithDatabase "audit" true false []])).
  intros d [->|Hd]%elem_of_cons; [discriminate | inversion Hd].
Defined.

(** * What Bootstrap leaves in the entry *)

Section bootstrapped.
Context {W : Type} `{!Opener Later.GormConfig W} `{!Opener Early.GormConfig W}
  `{!Driver W}.

Lemma Later_set_GormDbMap_same (e : Later.ClickHouseEntry) :
  Later.set_GormDbMap (Later.GormDbMap e) e = e.
Proof. by destruct e. Qed.

Lemma Early_set_GormDbMap_same (e : Early.ClickHouseEntry) :
  Early.set_GormDbMap (Early.GormDbMap e) e = e.
Proof. by destruct e. Qed.

(** The loop changes the handle map only: it keeps the handles it
    finds, and the names it adds are names of descriptors, all of them
    when it falls through. *)
Lemma Later_connectLoop_frame (l : list Later.databaseInner) (s s' : LSys W) r :
  Later.connectLoop l s = (r, s') →
  self s' = Later.set_GormDbMap (Later.GormDbMap (self s')) (self s) ∧
  dom (Later.GormDbMap (self s)) ⊆ dom (Later.GormDbMap (self s')) ∧
  dom (Later.GormDbMap (self s'))
  ⊆ dom (Later.GormDbMap (self s)) ∪ list_to_set (Later.name <$> l) ∧
  (∀ n, (∀ d, d ∈ l → Later.name d ≠ n) →
        Later.GormDbMap (self s') !! n = Later.GormDbMap (self s) !! n) ∧
  (r = None →
   dom (Later.GormDbMap (self s'))
   = dom (Later.GormDbMap (self s)) ∪ list_to_set (Later.name <$> l)).
Proof.
  revert s. induction l as [|d l IH]; intros s.
  - intros [= <- <-]. rewrite Later_set_GormDbMap_same. cbn.
    repeat split; [set_solver | set_solver | set_solver].
  - rewrite Later_connectLoop_cons.
    destruct (Later.connectOne d s) as [[err|] s1] eqn:Hone.
    + intros [= <- <-]. apply Later_connectOne_self in Hone. rewrite Hone.
      rewrite Later_set_GormDbMap_same.
      repeat split; [set_solver | set_solver | done].
    + intros Hloop. apply Later_connectOne_self in Hone as [db Hs1].
      destruct (IH s1 Hloop) as (Hself & Hsub & Hsup & Hother & Hall).
      rewrite Hs1 in Hself, Hsub, Hsup, Hother, Hall. cbn in *.
      rewrite dom_insert_L in Hsub, Hsup, Hall.
      repeat split.
      * rewrite Hself at 1. by destruct (self s).
      * set_solver.
      * set_solver.
      * intros n Hne. rewrite Hother by (intros d' Hd'; apply Hne; by right).
        apply lookup_insert_ne, Hne. by left.
      * intros Hr. rewrite (Hall Hr). set_solver.
Qed.

Lemma Early_connectLoop_frame (l : list Early.databaseInner) (s s' : ESys W) r :
  Early.connectLoop l s = (r, s') →
  self s' = Early.set_GormDbMap (Early.GormDbMap (self s')) (self s) ∧
  dom (Early.GormDbMap (self s)) ⊆ dom (Early.GormDbMap (self s')) ∧
  dom (Early.GormDbMap (self s'))
  ⊆ dom (Early.GormDbMap (self s)) ∪ list_to_set (Early.name <$> l) ∧
  (∀ n, (∀ d, d ∈ l → Early.name d ≠ n) →
        Early.GormDbMap (self s') !! n = Early.GormDbMap (self s) !! n) ∧
  (r = None →
   dom (Early.GormDbMap (self s'))
   = dom (Early.GormDbMap (self s)) ∪ list_to_set (Early.name <$> l)).
Proof.
  revert s. induction l as [|d l IH]; intros s.
  - intros [= <- <-]. rewrite Early_set_GormDbMap_same. cbn.
    repeat split; [set_solver | set_solver | set_solver].
  - rewrite Early_connectLoop_cons.
    destruct (Early.connectOne d s) as [[err|] s1] eqn:Hone.
    + intros [= <- <-]. apply Early_connectOne_self in Hone. rewrite Hone.
      rewrite Early_set_GormDbMap_same.
      repeat split; [set_solver | set_solver | done].
    + intros Hloop. apply Early_connectOne_self in Hone as [db Hs1].
      destruct (IH s1 Hloop) as (Hself & Hsub & Hsup & Hother & Hall).
      rewrite Hs1 in Hself, Hsub, Hsup, Hother, Hall. cbn in *.
      rewrite dom_insert_L in Hsub, Hsup, Hall.
      repeat split.
      * rewrite Hself at 1. by destruct (self s).
      * set_solver.
      * set_solver.
      * intros n Hne. rewrite Hother by (intros d' Hd'; apply Hne; by right).
        apply lookup_insert_ne, Hne. by left.
      * intros Hr. rewrite (Hall Hr). set_solver.
Qed.

Lemma Later_Bootstrap_loop (ctx : Context) (s : LSys W) :
  ∃ r s1,
    Later.connectLoop (Later.innerDbList (self s))
      (mkSys (self s) (world s)
         (trace s ++
          [EvInfo "Bootstrap clickHouseEntry"
             (Later.eventFields ctx (self s))])) = (r, s1) ∧
    self (Later.Bootstrap ctx s).2 = self s1 ∧
    ((Later.Bootstrap ctx s).1 = Returned tt ↔ r = None).
Proof.
  rewrite Later_Bootstrap_run. cbv zeta.
  destruct (Later.connectLoop _ _) as [[err|] s1];
    [exists (Some err), s1 | exists None, s1];
    (split; [reflexivity |]); cbn; split; done.
Qed.

Lemma Early_Bootstrap_loop (ctx : Context) (s : ESys W) :
  ∃ r s1,
    Early.connectLoop (Early.innerDbList (self s))
      (mkSys (self s) (world s)
         (trace s ++
          [EvInfo "Bootstrap clickHouseEntry"
             (Early.eventFields ctx (self s))])) = (r, s1) ∧
    self (Early.Bootstrap ctx s).2 = self s1 ∧
    ((Early.Bootstrap ctx s).1 = Returned tt ↔ r = None).
Proof.
  rewrite Early_Bootstrap_run. cbv zeta.
  destruct (Early.connectLoop _ _) as [[err|] s1];
    [exists (Some err), s1 | exists None, s1];
    (split; [reflexivity |]); cbn; split; done.
Qed.

(** X5: in both variants [Bootstrap] changes nothing of the entry but
    the handle map, whether it returns or shuts the process down; it
    never removes a handle, and the only names it adds or overwrites
    are names of descriptors, so [GetDB] on any other name answers as
    before. *)
Theorem Bootstrap_changes_only_descriptor_handles (ctx : Context) :
  (∀ s : LSys W,
     let e' := self (Later.Bootstrap ctx s).2 in
     e' = Later.set_GormDbMap (Later.GormDbMap e') (self s) ∧
     dom (Later.GormDbMap (self s)) ⊆ dom (Later.GormDbMap e') ∧
     (∀ n, (∀ d, d ∈ Later.innerDbList (self s) → Later.name d ≠ n) →
           Later.GetDB e' n = Later.GetDB (self s) n)) ∧
  (∀ s : ESys W,
     let e' := self (Early.Bootstrap ctx s).2 in
     e' = Early.set_GormDbMap (Early.GormDbMap e') (self s) ∧
     dom (Early.GormDbMap (self s)) ⊆ dom (Early.GormDbMap e') ∧
     (∀ n, (∀ d, d ∈ Early.innerDbList (self s) → Early.name d ≠ n) →
           Early.GetDB e' n = Early.GetDB (self s) n)).
Proof.
  split; intros s e'.
  - destruct (Later_Bootstrap_loop ctx s) as (r & s1 & Hloop & Hself & _).
    destruct (Later_connectLoop_frame _ _ _ _ Hloop)
      as (Hframe & Hsub & _ & Hother & _).
    subst e'. rewrite Hself. cbn in *. done.
  - destruct (Early_Bootstrap_loop ctx s) as (r & s1 & Hloop & Hself & _).
    destruct (Early_connectLoop_frame _ _ _ _ Hloop)
      as (Hframe & Hsub & _ & Hother & _).
    subst e'. rewrite Hself. cbn in *. done.
Qed.

Lemma Early_connectLoop_stores (l : list Early.databaseInner) (s s' : ESys W) :
  Early.connectLoop l s = (None, s') →
  ∀ d, d ∈ l → is_Some (Early.GormDbMap (self s') !! Early.name d).
Proof.
  intros Hloop d Hd.
  destruct (Early_connectLoop_frame _ _ _ _ Hloop) as (_ & _ & _ & _ & Hdom).
  apply elem_of_dom. rewrite (Hdom eq_refl). apply elem_of_union. right.
  apply elem_of_list_to_set, list_elem_of_fmap. eauto.
Qed.

(** X6: in both variants, when [Bootstrap] returns (no shutdown),
    [GetDB] answers a handle for the name of every descriptor, and the
    names with a handle are the ones that had one before together with
    the descriptors' names. *)
Theorem Bootstrap_returned_gives_every_handle (ctx : Context) :
  (∀ s : LSys W,
     (Later.Bootstrap ctx s).1 = Returned tt →
     (∀ d, d ∈ Later.innerDbList (self s) →
           is_Some (Later.GetDB (self (Later.Bootstrap ctx s).2)
                      (Later.name d))) ∧
     dom (Later.GormDbMap (self (Later.Bootstrap ctx s).2))
     = dom (Later.GormDbMap (self s))
       ∪ list_to_set (Later.name <$> Later.innerDbList (self s))) ∧
  (∀ s : ESys W,
     (Early.Bootstrap ctx s).1 = Returned tt →
     (∀ d, d ∈ Early.innerDbList (self s) →
           is_Some (Early.GetDB (self (Early.Bootstrap ctx s).2)
                      (Early.name d))) ∧
     dom (Early.GormDbMap (self (Early.Bootstrap ctx s).2))
     = dom (Early.GormDbMap (self s))
       ∪ list_to_set (Early.name <$> Early.innerDbList (self s))).
Proof.
  split; intros s Hret.
  - destruct (Later_Bootstrap_loop ctx s) as (r & s1 & Hloop & Hself & Hiff).
    apply Hiff in Hret. subst r. rewrite Hself.
    destruct (Later_connectLoop_frame _ _ _ _ Hloop) as (_ & _ & _ & _ & Hdom).
    split; [| exact (Hdom eq_refl)].
    intros d Hd. by apply (proj1 (Later_connectLoop_stores _ _ _ Hloop)).
  - destruct (Early_Bootstrap_loop ctx s) as (r & s1 & Hloop & Hself & Hiff).
    apply Hiff in Hret. subst r. rewrite Hself.
    destruct (Early_connectLoop_frame _ _ _ _ Hloop) as (_ & _ & _ & _ & Hdom).
    split; [| exact (Hdom eq_refl)].
    intros d Hd. by apply (Early_connectLoop_stores _ _ _ Hloop).
Qed.
End bootstrapped.

(** Two descriptors on a server that accepts every connection. *)
Lemma Bootstrap_returned_gives_every_handle_witness :
  is_Some (Later.GetDB
             (self (Later.Bootstrap None
                      (Sim.later_sys
                         [Later.WithDatabase "user" false true [];
                          Later.WithDatabase "audit" true false []]
                         Sim.fresh)).2)
             (Later.name (Later.mkInner "audit" true false [] []))) ∧
  is_Some (Early.GetDB (self (Early.Bootstrap None Sim.early_auto).2)
             (Early.name (Early.mkInner "user" false true []))).
Proof.
  destruct (Bootstrap_returned_gives_every_handle (W := Sim.World) None)
    as [Hlater Hearly].
  assert (Hl : (Later.Bootstrap None
                  (Sim.later_sys
                     [Later.WithDatabase "user" false true [];
                      Later.WithDatabase "audit" true false []]
                     Sim.fresh)).1 = Returned tt)
    by (vm_compute; reflexivity).
  assert (He : (Early.Bootstrap None Sim.early_auto).1 = Returned tt)
    by (vm_compute; reflexivity).
  destruct (Hlater _ Hl) as [Hinl _]. destruct (Hearly _ He) as [Hine _].
  split.
  - apply Hinl. apply list_elem_of_further, list_elem_of_here.
  - apply Hine. apply list_elem_of_here.
Defined.


(** * The connections Bootstrap asks for *)

Section opening.
Context {W : Type} `{!Opener Later.GormConfig W} `{!Driver W}.

Lemma opened_app {C : Type} (tr tr' : list (Event C)) :
  opened (tr ++ tr') = opened tr ++ opened tr'.
Proof. unfold opened. apply omap_app. Qed.

Lemma configured_app {C : Type} (tr tr' : list (Event C)) :
  configured (tr ++ tr') ↔ configured tr ∧ configured tr'.
Proof.
  unfold configured. split.
  - intros Hall. split; intros dsn0 Hin; apply (Hall dsn0), elem_of_app; auto.
  - intros [Hl Hr] dsn0 [Hin|Hin]%elem_of_app; [by apply (Hl dsn0) |
      by apply (Hr dsn0)].
Qed.

Lemma dsnsOf_set_GormDbMap m (e : Later.ClickHouseEntry) d :
  dsnsOf (Later.set_GormDbMap m e) d = dsnsOf e d.
Proof. reflexivity. Qed.

Lemma configured_nil {C : Type} : configured (C := C) [].
Proof. intros dsn0 Hin. inversion Hin. Qed.

Lemma configured_cons {C : Type} (ev : Event C) tr :
  (∀ dsn0, ev ≠ EvOpen dsn0 None) → configured tr → configured (ev :: tr).
Proof.
  intros Hev Htr dsn0 [Heq|Hin]%elem_of_cons;
    [by apply (Hev dsn0) | by apply (Htr dsn0)].
Qed.

(** One turn of the loop: the DSNs it opens are a prefix of the DSNs of
    the descriptor, all of them when it falls through; and it hands the
    ORM the configuration stored under the descriptor's name. *)
Lemma Later_connectOne_opened (d : Later.databaseInner) (s s' : LSys W) r :
  Later.connectOne d s = (r, s') →
  ∃ k, opened (trace s') = opened (trace s) ++ k ∧
       k `prefix_of` dsnsOf (self s) d ∧
       (r = None → k = dsnsOf (self s) d) ∧
       (is_Some (Later.GormConfigMap (self s) !! Later.name d) →
        configured (trace s) → configured (trace s')).
Proof.
  unfold dsnsOf.
  destruct (negb (Later.dryRun d) && Later.autoCreate d) eqn:Hg.
  - rewrite (Later_connectOne_auto d s Hg). cbv zeta.
    fold (auxDsn (self s)). fold (dsn (self s) d).
    unfold closeEvents.
    destruct (gorm_Open (auxDsn (self s)) _ (world s))
      as [[aux|[aux err]] w1].
    + destruct (gorm_Exec aux _ w1) as [aux' w2].
      destruct (Error aux') as [err|].
      * intros [= <- <-]. exists [auxDsn (self s)]. cbn [trace].
        rewrite opened_app.
        split; [by destruct (native aux') |].
        split; [by exists [dsn (self s) d] |]. split; [done |].
        intros [cfg Hcfg] Hconf. rewrite Hcfg.
        apply configured_app. split; [done |].
        destruct (native aux');
          repeat first [apply configured_nil
                       | apply configured_cons; [intros ?; congruence |]].
      * destruct (gorm_Open (dsn (self s) d) _ _) as [[db|[db err]] w4];
          intros [= <- <-]; exists [auxDsn (self s); dsn (self s) d];
          cbn [trace]; rewrite !opened_app.
        -- split; [rewrite <- app_assoc; by destruct (native aux') |].
           split; [done |]. split; [done |].
           intros [cfg Hcfg] Hconf. rewrite Hcfg.
           rewrite <- app_assoc. apply configured_app. split; [done |].
           apply configured_app. split;
             destruct (native aux');
             repeat first [apply configured_nil
                          | apply configured_cons; [intros ?; congruence |]].
        -- split; [rewrite <- app_assoc; by destruct (native aux') |].
           split; [done |]. split; [done |].
           intros [cfg Hcfg] Hconf. rewrite Hcfg.
           rewrite <- app_assoc. apply configured_app. split; [done |].
           apply configured_app. split;
             destruct (native aux');
             repeat first [apply configured_nil
                          | apply configured_cons; [intros ?; congruence |]].
    + intros [= <- <-]. exists [auxDsn (self s)]. cbn [trace].
      rewrite opened_app.
      split; [by destruct (aux ≫= native) |].
      split; [by exists [dsn (self s) d] |]. split; [done |].
      intros [cfg Hcfg] Hconf. rewrite Hcfg.
      apply configured_app. split; [done |].
      destruct (aux ≫= native);
        repeat first [apply configured_nil
                     | apply configured_cons; [intros ?; congruence |]].
  - rewrite (Later_connectOne_plain d s Hg). cbv zeta.
    fold (dsn (self s) d).
    destruct (gorm_Open (dsn (self s) d) _ (world s)) as [[db|[db err]] w];
      intros [= <- <-]; exists [dsn (self s) d]; cbn [trace];
      rewrite opened_app;
      (split; [done |]); (split; [done |]); (split; [done |]);
      intros [cfg Hcfg] Hconf; rewrite Hcfg;
      (apply configured_app; split; [done |]);
      repeat first [apply configured_nil
                   | apply configured_cons; [intros ?; congruence |]].
Qed.

Lemma dsns_cons (e : Later.ClickHouseEntry) d l :
  dsns e (d :: l) = dsnsOf e d ++ dsns e l.
Proof. reflexivity. Qed.

Lemma Later_connectLoop_opened (l : list Later.databaseInner)
    (s s' : LSys W) r :
  Later.connectLoop l s = (r, s') →
  ∃ k, opened (trace s') = opened (trace s) ++ k ∧
       k `prefix_of` dsns (self s) l ∧
       (r = None → k = dsns (self s) l) ∧
       ((∀ d, d ∈ l →
              is_Some (Later.GormConfigMap (self s) !! Later.name d)) →
        configured (trace s) → configured (trace s')).
Proof.
  revert s. induction l as [|d l IH]; intros s.
  - intros [= <- <-]. exists []. rewrite app_nil_r. done.
  - rewrite Later_connectLoop_cons, dsns_cons.
    destruct (Later.connectOne d s) as [[err|] s1] eqn:Hone.
    + intros [= <- <-].
      destruct (Later_connectOne_opened d s s1 _ Hone)
        as (k & Hk & Hpre & _ & Hconf).
      exists k. split; [done |]. split; [by apply prefix_app_r |].
      split; [done |]. intros Hall. apply Hconf, Hall. by left.
    + intros Hloop.
      destruct (Later_connectOne_opened d s s1 _ Hone)
        as (k & Hk & _ & Hall & Hconf).
      rewrite (Hall eq_refl) in Hk. clear Hall.
      apply Later_connectOne_self in Hone as [db Hs1].
      destruct (IH s1 Hloop) as (k' & Hk' & Hpre' & Hall' & Hconf').
      rewrite Hs1 in Hpre', Hall', Hconf'.
      change (dsns (Later.set_GormDbMap ?m ?e) l) with (dsns e l)
        in Hpre', Hall'.
      cbn in Hconf'.
      exists (dsnsOf (self s) d ++ k'). split; [| split; [| split]].
      * by rewrite Hk', Hk, app_assoc.
      * by apply prefix_app.
      * intros Hr. by rewrite (Hall' Hr).
      * intros Hcfg Htr. apply Hconf'.
        -- intros d' Hd'. apply Hcfg. by right.
        -- apply Hconf; [apply Hcfg; by left | done].
Qed.

(** X7: the connections [Bootstrap] asks the ORM for are, in order,
    those of the descriptors: for each descriptor the DSN with the
    credentials only when the descriptor is not dry-run and asks for
    auto-create, then the DSN with the database name, the credentials
    and the parameters.  A run that is shut down has asked for a prefix
    of that list; a run that returns has asked for all of it. *)
Theorem Bootstrap_opens_the_descriptors_dsns (ctx : Context) (s : LSys W) :
  ∃ k,
    opened (trace (Later.Bootstrap ctx s).2) = opened (trace s) ++ k ∧
    k `prefix_of` dsns (self s) (Later.innerDbList (self s)) ∧
    ((Later.Bootstrap ctx s).1 = Returned tt →
     k = dsns (self s) (Later.innerDbList (self s))).
Proof.
  rewrite Later_Bootstrap_run. cbv zeta.
  destruct (Later.connectLoop _ _) as [r s1] eqn:Hloop.
  destruct (Later_connectLoop_opened _ _ _ _ Hloop)
    as (k & Hk & Hpre & Hall & _).
  cbn [self trace] in Hk, Hpre, Hall.
  rewrite opened_app in Hk. cbn in Hk. rewrite app_nil_r in Hk.
  exists k. destruct r as [err|]; cbn [fst snd trace].
  - rewrite opened_app, Hk. cbn. rewrite app_nil_r. done.
  - split; [done |]. split; [done |]. intros _. by apply Hall.
Qed.
End opening.

Section opening_registered.
Context {W : Type} `{!Opener Later.GormConfig W} `{!Driver W}.
Context {H : Type} `{!Later.Host H}.

(** X8: when [Bootstrap] runs on an entry as the registration returned
    it, whatever the options were, no call of [gorm.Open] is given a
    nil configuration: every descriptor finds the configuration the
    registration stored under its name. *)
Theorem Bootstrap_after_registration_never_opens_unconfigured
    (opts : list Later.Option) (h : H) (w : W) (ctx : Context) :
  configured
    (trace (Later.Bootstrap ctx
              (mkSys (Later.RegisterClickHouseEntry opts h).1 w [])).2).
Proof.
  rewrite Later_Bootstrap_run. cbv zeta. cbn [self world trace].
  destruct (Later.connectLoop _ _) as [r s1] eqn:Hloop.
  destruct (Later_connectLoop_opened _ _ _ _ Hloop) as (_ & _ & _ & _ & Hconf).
  cbn [self trace] in Hconf.
  assert (Hs1 : configured (trace s1)).
  { apply Hconf.
    - intros d Hd.
      destruct (Later_registered_config_some opts h d Hd) as (cfg & -> & _).
      eauto.
    - apply configured_cons; [intros ?; congruence | apply configured_nil]. }
  destruct r as [err|]; cbn [snd trace]; [| done].
  apply configured_app. split; [done |].
  apply configured_cons; [intros ?; congruence | apply configured_nil].
Qed.
End opening_registered.

(** The DSNs of two descriptors, the first with auto-create; the
    password is empty. *)
Lemma Bootstrap_opens_the_descriptors_dsns_witness :
  opened (trace (Later.Bootstrap None
                   (Sim.later_sys
                      [Later.WithDatabase "user" false true [];
                       Later.WithDatabase "audit" true false ["x=1"]]
                      Sim.fresh)).2)
  = ["tcp://localhost:9000?default&"; "tcp://localhost:9000?user&default&";
     "tcp://localhost:9000?audit&default&&x=1"].
Proof.
  destruct (Bootstrap_opens_the_descriptors_dsns (W := Sim.World) None
              (Sim.later_sys
                 [Later.WithDatabase "user" false true [];
                  Later.WithDatabase "audit" true false ["x=1"]]
                 Sim.fresh)) as (k & Hk & _ & Hall).
  rewrite Hk, Hall; [| vm_compute; reflexivity].
  vm_compute. reflexivity.
Defined.


(** * Registration from the boot configuration: the parts *)

Section yaml_parts.
Context {H : Type} `{!Later.Host H}.

Lemma toAbsPath_fold (h : H) (p acc : list string) :
  foldl (λ res x,
           if Later.filepath_IsAbs (Later.filepath_ToSlash x)
              || bool_decide (x = "stdout") || bool_decide (x = "stderr")
           then res ++ [x]
           else res ++
                [Later.filepath_ToSlash
                   (Later.filepath_Join (Later.os_Getwd h) x)])
    acc p
  = acc ++
    map (λ x,
           if Later.filepath_IsAbs (Later.filepath_ToSlash x)
              || bool_decide (x = "stdout") || bool_decide (x = "stderr")
           then x
           else Later.filepath_ToSlash
                  (Later.filepath_Join (Later.os_Getwd h) x)) p.
Proof.
  revert acc. induction p as [|x p IH]; intros acc; simpl.
  - by rewrite app_nil_r.
  - rewrite IH. destruct (_ || _); by rewrite <- app_assoc.
Qed.

(** X9: [toAbsPath] answers one path per path given, in the same
    order, and works path by path; [stdout], [stderr] and the paths
    that are absolute come back as they are, every other path comes
    back joined to the working directory. *)
Theorem toAbsPath_path_by_path (h : H) (p q : list string) :
  length (Later.toAbsPath p h) = length p ∧
  Later.toAbsPath (p ++ q) h = Later.toAbsPath p h ++ Later.toAbsPath q h ∧
  (∀ i x, p !! i = Some x →
          (Later.filepath_IsAbs (Later.filepath_ToSlash x) = true
           ∨ x = "stdout" ∨ x = "stderr" →
           Later.toAbsPath p h !! i = Some x) ∧
          (Later.filepath_IsAbs (Later.filepath_ToSlash x) = false →
           x ≠ "stdout" → x ≠ "stderr" →
           Later.toAbsPath p h !! i
           = Some (Later.filepath_ToSlash
                     (Later.filepath_Join (Later.os_Getwd h) x)))).
Proof.
  unfold Later.toAbsPath. rewrite !toAbsPath_fold. cbn [app].
  split; [apply length_map |]. split; [apply map_app |].
  intros i x Hx. change map with (@fmap list _) at 1 2.
  rewrite !list_lookup_fmap, Hx. cbn. split.
  - intros [Habs|[->| ->]].
    + by rewrite Habs.
    + by rewrite orb_true_r.
    + by rewrite orb_true_r.
  - intros Habs Hout Herr. rewrite Habs.
    by rewrite !bool_decide_eq_false_2.
Qed.

Lemma wrap64_id (z : Z) :
  wrap64 z = z ↔ (- 2 ^ 63 ≤ z < 2 ^ 63)%Z.
Proof.
  unfold wrap64.
  pose proof (Z.mod_pos_bound (z + 2 ^ 63) (2 ^ 64) ltac:(lia)) as Hb.
  split.
  - intros Heq. lia.
  - intros Hz. rewrite Z.mod_small by lia. lia.
Qed.

(** X10: the logger the YAML registration builds.  A level other than
    [info], [error] and [silent] (compared as written) gives the level
    [Warn]; a slow threshold that is not positive gives five seconds,
    and a positive one gives that many milliseconds exactly when it is
    at most 9223372036854, beyond which the 64-bit duration wraps. *)
Theorem yaml_logger_level_and_threshold (level : string) (ms : Z) :
  (level ≠ "info" → level ≠ "error" → level ≠ "silent" →
   Later.logLevelOf level = gormLogger.Warn) ∧
  (ms ≤ 0 → Later.slowThresholdOf ms = 5000000000)%Z ∧
  (0 < ms →
   (Later.slowThresholdOf ms = ms * 1000000 ↔ ms ≤ 9223372036854))%Z.
Proof.
  split; [| split].
  - intros Hi He Hs. unfold Later.logLevelOf.
    rewrite (bool_decide_eq_false_2 _ Hi), (bool_decide_eq_false_2 _ He),
      (bool_decide_eq_false_2 _ Hs).
    by destruct (bool_decide (level = "warn")).
  - intros Hms. unfold Later.slowThresholdOf.
    destruct (0 <? ms)%Z eqn:Hlt; [apply Z.ltb_lt in Hlt; lia | done].
  - intros Hms. unfold Later.slowThresholdOf, time_Millisecond.
    destruct (0 <? ms)%Z eqn:Hlt; [| apply Z.ltb_ge in Hlt; lia].
    rewrite wrap64_id. lia.
Qed.
End yaml_parts.

(** A threshold of two seconds, and a level in capitals. *)
Lemma yaml_logger_level_and_threshold_witness :
  Later.logLevelOf "INFO" = gormLogger.Warn ∧
  Later.slowThresholdOf 2000 = 2000000000%Z.
Proof.
  destruct (yaml_logger_level_and_threshold "INFO" 2000)
    as (Hlevel & _ & Hms).
  split.
  - apply Hlevel; discriminate.
  - apply Hms; lia.
Defined.

(** Three output paths on the simulated host, whose working directory
    is [/srv]. *)
Lemma toAbsPath_path_by_path_witness :
  Later.toAbsPath ["stdout"; "logs/db.log"; "/var/log/db.log"] Sim.prod !! 0
  = Some "stdout".
Proof.
  apply (proj1 (proj2 (proj2
    (toAbsPath_path_by_path Sim.prod
       ["stdout"; "logs/db.log"; "/var/log/db.log"] [])) 0 "stdout"
    eq_refl)).
  right. left. reflexivity.
Defined.

(** * Registration from the boot configuration: the entries *)

Section yaml_entries.
Context {H : Type} `{!Later.Host H}.

Lemma fold_append_bind {A B : Type} (f : B → list A) (l : list B)
    (acc : list A) :
  foldl (λ acc x, acc ++ f x) acc l = acc ++ (l ≫= f).
Proof.
  revert acc. induction l as [|x l IH]; intros acc; cbn.
  - by rewrite app_nil_r.
  - by rewrite IH, app_assoc.
Qed.

Lemma WithPlugin_frame (n : string) (p : option Later.Plugin)
    (e : Later.ClickHouseEntry) :
  Later.WithPlugin n p e
  = Later.set_innerDbList (Later.innerDbList (Later.WithPlugin n p e)) e.
Proof.
  unfold Later.WithPlugin. destruct p as [p|]; [| by destruct e].
  destruct (bool_decide (n = EmptyString)); by destruct e.
Qed.

(** The options of one database section: they touch the descriptors
    only, and add the section's descriptor when the section has a
    name. *)
Lemma databaseOptions_apply (element : Later.BootConfigE.t)
    (db : Later.BootDatabase.t) (e : Later.ClickHouseEntry) :
  let e' := foldl (λ e opt, opt e) e (Later.databaseOptions element db) in
  e' = Later.set_innerDbList (Later.innerDbList e') e ∧
  declared <$> Later.innerDbList e'
  = (declared <$> Later.innerDbList e) ++
    (if nonempty (Later.BootDatabase.Name db) then [sectionDeclared db]
     else []).
Proof.
  assert (Hdb : ∀ e0 : Later.ClickHouseEntry,
            let e1 := Later.WithDatabase (Later.BootDatabase.Name db)
                        (Later.BootDatabase.DryRun db)
                        (Later.BootDatabase.AutoCreate db)
                        (Later.BootDatabase.Params db) e0 in
            e1 = Later.set_innerDbList (Later.innerDbList e1) e0 ∧
            declared <$> Later.innerDbList e1
            = (declared <$> Later.innerDbList e0) ++
              (if nonempty (Later.BootDatabase.Name db)
               then [sectionDeclared db] else [])).
  { intros e0. unfold Later.WithDatabase.
    destruct (nonempty (Later.BootDatabase.Name db)); cbn.
    - split; [by destruct e0 |]. by rewrite fmap_app.
    - split; [by destruct e0 |]. by rewrite app_nil_r. }
  assert (Hpl : ∀ n p (e0 e1 : Later.ClickHouseEntry),
            e1 = Later.set_innerDbList (Later.innerDbList e1) e0 →
            Later.WithPlugin n p e1
            = Later.set_innerDbList
                (Later.innerDbList (Later.WithPlugin n p e1)) e0).
  { intros n p e0 e1 He1. rewrite (WithPlugin_frame n p e1) at 1.
    rewrite He1 at 2. by destruct e0. }
  intros e'. subst e'. unfold Later.databaseOptions.
  destruct (Hdb e) as [Hframe Hdecl].
  destruct (Later.trace_Enabled _), (Later.prom_Enabled _); cbn [app foldl].
  - split; [by apply Hpl, Hpl | by rewrite !WithPlugin_declared].
  - split; [by apply Hpl | by rewrite !WithPlugin_declared].
  - split; [by apply Hpl | by rewrite !WithPlugin_declared].
  - done.
Qed.

Lemma databaseOptions_fold (element : Later.BootConfigE.t)
    (dbs : list Later.BootDatabase.t) (e : Later.ClickHouseEntry) :
  let e' :=
    foldl (λ e opt, opt e) e (dbs ≫= Later.databaseOptions element) in
  e' = Later.set_innerDbList (Later.innerDbList e') e ∧
  declared <$> Later.innerDbList e'
  = (declared <$> Later.innerDbList e) ++
    (sectionDeclared <$>
     filter (λ db, nonempty (Later.BootDatabase.Name db)) dbs).
Proof.
  revert e. induction dbs as [|db dbs IH]; intros e; cbv zeta.
  - cbn. rewrite app_nil_r. split; [by destruct e | done].
  - cbn [mbind list_bind]. rewrite foldl_app.
    destruct (databaseOptions_apply element db e) as [Hframe Hdecl].
    cbv zeta in Hframe, Hdecl.
    set (e1 := foldl (λ e opt, opt e) e (Later.databaseOptions element db))
      in *.
    destruct (IH e1) as [Hframe' Hdecl']. cbv zeta in Hframe', Hdecl'.
    split.
    + rewrite Hframe' at 1. rewrite Hframe at 2. by destruct e.
    + rewrite Hdecl', Hdecl, filter_cons, <- app_assoc. f_equal.
      destruct (decide (nonempty (Later.BootDatabase.Name db))) as [Hn|Hn].
      * apply Is_true_true in Hn. by rewrite Hn.
      * apply Is_true_false in Hn. by rewrite Hn.
Qed.

(** The entry the registration builds from a block and a logger. *)
Lemma Later_registered_built_from (element : Later.BootConfigE.t)
    (lg : Later.Logger) (h : H) :
  built_from element lg
    (Later.RegisterClickHouseEntry (Later.optionsOf element lg) h).1.
Proof.
  rewrite Later_Register_unfold. cbn [fst].
  unfold Later.optionsOf. rewrite fold_append_bind, foldl_app.
  match goal with
  | |- context [foldl ?f (Later_initial h) ?l] =>
      set (e0 := foldl f (Later_initial h) l)
  end.
  destruct (databaseOptions_fold element (Later.BootConfigE.Database element)
              e0) as [Hframe Hdecl].
  cbv zeta in Hframe, Hdecl.
  set (e1 := foldl (λ e opt, opt e) e0
               (Later.BootConfigE.Database element
                ≫= Later.databaseOptions element)) in *.
  assert (He0 : Later.entryName e0 = Later.BootConfigE.Name element
                ∧ Later.entryType e0 = Later.ClickHouseEntryType
                ∧ Later.User e0
                  = (if nonempty (Later.BootConfigE.User element)
                     then Later.BootConfigE.User element else "default")
                ∧ Later.pass e0 = Later.BootConfigE.Pass element
                ∧ Later.Addr e0
                  = (if nonempty (Later.BootConfigE.Addr element)
                     then Later.BootConfigE.Addr element
                     else "localhost:9000")
                ∧ Later.logger e0 = lg
                ∧ Later.entryDescription e0
                  = Later.BootConfigE.Description element
                ∧ Later.innerDbList e0 = []
                ∧ Later.GormDbMap e0 = ∅).
  { subst e0. cbn.
    unfold Later.WithAddr, Later.WithPass, Later.WithUser.
    destruct (nonempty (Later.BootConfigE.User element)),
      (nonempty (Later.BootConfigE.Pass element)) eqn:Hp,
      (nonempty (Later.BootConfigE.Addr element)); cbn;
      repeat split; by apply nonempty_false in Hp. }
  destruct He0 as (Hn & Hty & Hu & Hp & Ha & Hlg & Hd & Hl & Hm).
  rewrite Hl in Hdecl. cbn [fmap list_fmap app] in Hdecl.
  assert (He1 : Later.entryName e1 = Later.entryName e0
                ∧ Later.entryType e1 = Later.entryType e0
                ∧ Later.User e1 = Later.User e0
                ∧ Later.pass e1 = Later.pass e0
                ∧ Later.Addr e1 = Later.Addr e0
                ∧ Later.logger e1 = Later.logger e0
                ∧ Later.entryDescription e1 = Later.entryDescription e0
                ∧ Later.GormDbMap e1 = Later.GormDbMap e0).
  { rewrite Hframe. by destruct e0. }
  destruct He1 as (Hn1 & Hty1 & Hu1 & Hp1 & Ha1 & Hlg1 & Hd1 & Hm1).
  rewrite Later_defaultConfigs_frame.
  unfold built_from, Later.GetName, Later.GetType, Later.GetDescription,
    Later_described, Later.describe.
  rewrite Hd1, Hd.
  destruct (nonempty (Later.BootConfigE.Description element)) eqn:Hdesc;
    cbn; rewrite ?Hn1, ?Hty1, ?Hu1, ?Hp1, ?Ha1, ?Hlg1, ?Hm1, ?Hd1, ?Hd;
    repeat split; done.
Qed.

Lemma registerAll_result (els : list Later.BootConfigE.t)
    (res res' : gmap string Later.ClickHouseEntry) (h h' : H) :
  Later.registerAll els res h = (Returned res', h') →
  dom res' = dom res ∪ list_to_set (Later.BootConfigE.Name <$> els) ∧
  ∀ n e, res' !! n = Some e →
         res !! n = Some e ∨
         ∃ el lg, el ∈ els ∧ Later.BootConfigE.Name el = n ∧
                  built_from el lg e ∧
                  logger_from (Later.BootConfigE.Logger el) lg.
Proof.
  revert res h. induction els as [|el els IH]; intros res h.
  - intros [= <- <-]. split; [| by left]. cbn.
    by rewrite (right_id_L ∅ (∪)).
  - cbn [Later.registerAll].
    destruct (Later.resolveDelegate _ h) as [[delegate|err] h1]; [| done].
    set (lg := Later.mkLogger delegate _ _ _).
    pose proof (Later_registered_built_from el lg h1) as Hbuilt.
    destruct (Later.RegisterClickHouseEntry (Later.optionsOf el lg) h1)
      as [entry h2].
    intros Hrest. destruct (IH _ _ Hrest) as [Hdom Hval]. split.
    + rewrite Hdom, dom_insert_L. cbn. set_solver.
    + intros n e Hn. destruct (Hval n e Hn) as [Hres|(el' & lg' & Hin & ?)].
      * destruct (decide (Later.BootConfigE.Name el = n)) as [<-|Hne].
        -- rewrite lookup_insert_eq in Hres. injection Hres as <-.
           right. exists el, lg. split; [by left |].
           split; [done |]. split; [exact Hbuilt | done].
        -- rewrite lookup_insert_ne in Hres by done. by left.
      * right. exists el', lg'. split; [by right | done].
Qed.

Lemma selectBlocks_names (h : H) (config : Later.BootConfig) k el :
  (k, el) ∈ map_to_list (Later.selectBlocks h config) →
  Later.BootConfigE.Name el = k ∧ el ∈ config.
Proof.
  intros Hin%elem_of_map_to_list.
  pose proof (selectBlocks_selected_from h config k) as Hinv.
  rewrite Hin in Hinv. tauto.
Qed.

(** X11: when the registration from the boot configuration returns,
    the map it returns has one entry per selected name, and the entry
    under a name carries what the selected block of that name says:
    the name itself, the block's user and address (the defaults when
    empty), its password, its description (the formatted one when
    empty), one descriptor per database section with a name, in order,
    no handle yet, and a logger with the level, threshold and
    record-not-found flag of the block's logger section. *)
Theorem yaml_registration_entries (config : Later.BootConfig) (h h' : H)
    (res : gmap string Later.ClickHouseEntry) :
  Later.RegisterClickHouseEntryYAML config h = (Returned res, h') →
  dom res = dom (Later.selectBlocks h config) ∧
  ∀ n e, res !! n = Some e →
         ∃ el lg, Later.selectBlocks h config !! n = Some el ∧
                  built_from el lg e ∧
                  logger_from (Later.BootConfigE.Logger el) lg.
Proof.
  unfold Later.RegisterClickHouseEntryYAML. intros Hrun.
  destruct (registerAll_result _ _ _ _ _ Hrun) as [Hdom Hval]. split.
  - rewrite Hdom, dom_empty_L, (left_id_L ∅ (∪)).
    apply set_eq. intros n.
    rewrite elem_of_list_to_set, elem_of_dom, list_elem_of_fmap. split.
    + intros (el & -> & ([k el'] & -> & Hin)%list_elem_of_fmap).
      destruct (selectBlocks_names h config k el' Hin) as [<- _].
      apply elem_of_map_to_list in Hin. eauto.
    + intros [el Hel]. exists el.
      apply elem_of_map_to_list in Hel as Hin.
      destruct (selectBlocks_names h config n el Hin) as [Hname _].
      split; [done |]. apply list_elem_of_fmap. by exists (n, el).
  - intros n e Hn.
    destruct (Hval n e Hn) as [Hemp|(el & lg & Hin & Hname & Hb & Hl)];
      [by rewrite lookup_empty in Hemp |].
    apply list_elem_of_fmap in Hin as ([k el'] & -> & Hin).
    destruct (selectBlocks_names h config k el' Hin) as [Hk _].
    cbn in Hname. rewrite Hname in Hk. subst k.
    apply elem_of_map_to_list in Hin. eauto.
Qed.

Lemma resolveDelegate_plain (element : Later.BootConfigE.t) (h : H) :
  plain_logger element →
  ∃ delegate,
    Later.resolveDelegate (Later.BootConfigE.Logger element) h
    = (Returned delegate, h).
Proof.
  intros [Henc Hpaths]. unfold Later.resolveDelegate.
  rewrite (bool_decide_eq_false_2 _ Henc), Hpaths. cbn. eauto.
Qed.

Lemma registerAll_plain (els : list Later.BootConfigE.t)
    (res : gmap string Later.ClickHouseEntry) (h : H) :
  (∀ el, el ∈ els → plain_logger el) →
  ∃ res' h', Later.registerAll els res h = (Returned res', h').
Proof.
  revert res h. induction els as [|el els IH]; intros res h Hplain.
  - cbn. eauto.
  - cbn [Later.registerAll].
    destruct (resolveDelegate_plain el h) as [delegate ->];
      [apply Hplain; by left |].
    destruct (Later.RegisterClickHouseEntry _ h) as [entry h2].
    apply IH. intros el' Hel'. apply Hplain. by right.
Qed.

(** X12: the registration from the boot configuration shuts the
    process down only over a logger override: when no block asks for
    the json encoding or for output paths, it returns. *)
Theorem yaml_registration_returns (config : Later.BootConfig) (h : H) :
  (∀ el, el ∈ config → plain_logger el) →
  ∃ res h', Later.RegisterClickHouseEntryYAML config h = (Returned res, h').
Proof.
  intros Hplain. unfold Later.RegisterClickHouseEntryYAML.
  apply registerAll_plain.
  intros el ([k el'] & -> & Hin)%list_elem_of_fmap.
  apply Hplain. by apply (selectBlocks_names h config k el').
Qed.
End yaml_entries.

(** The simulated boot configuration has no logger override. *)
Lemma yaml_registration_returns_witness :
  ∃ res h',
    Later.RegisterClickHouseEntryYAML Sim.boot_config Sim.prod
    = (Returned res, h').
Proof.
  apply (yaml_registration_returns Sim.boot_config Sim.prod).
  intros el Hel.
  repeat (apply elem_of_cons in Hel as [->|Hel];
          [split; [discriminate | reflexivity] |]).
  inversion Hel.
Defined.

(** On the simulated boot configuration one entry is returned, for
    [user-db]. *)
Lemma yaml_registration_entries_witness :
  match (Later.RegisterClickHouseEntryYAML Sim.boot_config Sim.prod).1 with
  | Returned res => dom res = {[ "user-db" ]}
  | ShutdownWithError _ => False
  end.
Proof.
  destruct (Later.RegisterClickHouseEntryYAML Sim.boot_config Sim.prod)
    as [[res|err] h'] eqn:Hrun; cbn [fst].
  - destruct (yaml_registration_entries _ _ _ _ Hrun) as [Hdom _].
    rewrite Hdom. vm_compute. reflexivity.
  - vm_compute in Hrun. discriminate Hrun.
Defined.

(** * The early registration from the boot configuration *)

Section early_yaml.
Context {H : Type} `{!Early.Host H} `{!Early.Boot H}.

Lemma Early_registerStep_skip (acc : gmap string Early.ClickHouseEntry * H)
    (el : Early.BootConfigE.t) :
  passes (H := H) el = false → Early.registerStep acc el = acc.
Proof.
  unfold passes, Early.registerStep. destruct acc as [res h].
  intros Hp. apply andb_false_iff in Hp as [Hn|Hl].
  - by rewrite Hn.
  - rewrite Hl. by rewrite orb_true_r.
Qed.

Lemma Early_registerStep_pass (res : gmap string Early.ClickHouseEntry)
    (h : H) (el : Early.BootConfigE.t) :
  passes (H := H) el = true →
  Early.registerStep (res, h) el
  = (<[Early.BootConfigE.Name el :=
         (Early.RegisterClickHouseEntry (Early.optionsOf el h) h).1]> res,
     (Early.RegisterClickHouseEntry (Early.optionsOf el h) h).2).
Proof.
  unfold passes, Early.registerStep.
  intros [Hn Hl]%andb_true_iff. rewrite Hn, Hl. cbn.
  by destruct (Early.RegisterClickHouseEntry (Early.optionsOf el h) h).
Qed.

Lemma Early_register_filter (config : list Early.BootConfigE.t)
    (acc : gmap string Early.ClickHouseEntry * H) :
  foldl Early.registerStep acc config
  = foldl Early.registerStep acc
      (filter (λ el, passes (H := H) el) config).
Proof.
  revert acc. induction config as [|el config IH]; intros acc; [done |].
  rewrite filter_cons. cbn [foldl].
  destruct (decide (passes (H := H) el)) as [Hp|Hp].
  - cbn [foldl]. apply IH.
  - apply Is_true_false in Hp. rewrite Early_registerStep_skip by done.
    apply IH.
Qed.

(** X13: the early registration from the boot configuration never
    reads the [enabled] flag: with every flag set to any value the
    same entries are registered.  What makes it skip a block is an
    empty name or a locale that does not match, and a skipped block
    leaves the returned map and the host as they were. *)
Theorem early_registration_ignores_enabled (config : Early.BootConfig)
    (h : H) (b : bool) :
  Early.RegisterClickHouseEntriesWithConfig (setEnabled b <$> config) h
  = Early.RegisterClickHouseEntriesWithConfig config h ∧
  Early.RegisterClickHouseEntriesWithConfig config h
  = Early.RegisterClickHouseEntriesWithConfig
      (filter (λ el, passes (H := H) el) config) h.
Proof.
  unfold Early.RegisterClickHouseEntriesWithConfig. split.
  - rewrite foldl_fmap. reflexivity.
  - apply Early_register_filter.
Qed.

Lemma Early_databases_fold (dbs : list Early.BootDatabase.t)
    (e : Early.ClickHouseEntry) :
  foldl (λ e opt, opt e) e
    (dbs ≫= λ db,
       [Early.WithDatabase (Early.BootDatabase.Name db)
          (Early.BootDatabase.DryRun db) (Early.BootDatabase.AutoCreate db)
          (Early.BootDatabase.Params db)])
  = Early.set_innerDbList
      (Early.innerDbList e ++
       (Early_sectionInner <$>
        filter (λ db, nonempty (Early.BootDatabase.Name db)) dbs)) e.
Proof.
  revert e. induction dbs as [|db dbs IH]; intros e.
  - cbn. rewrite app_nil_r. by destruct e.
  - cbn [mbind list_bind app foldl]. rewrite IH, filter_cons.
    unfold Early.WithDatabase.
    destruct (decide (nonempty (Early.BootDatabase.Name db))) as [Hn|Hn].
    + apply Is_true_true in Hn. rewrite Hn. cbn.
      destruct e; cbn. by rewrite <- app_assoc.
    + apply Is_true_false in Hn. by rewrite Hn.
Qed.

Lemma Early_registered_built_from (el : Early.BootConfigE.t) (h : H) :
  Early_built_from el
    (Early.RegisterClickHouseEntry (Early.optionsOf el h) h).1.
Proof.
  rewrite Early_Register_unfold. cbn [fst].
  unfold Early.optionsOf.
  rewrite (fold_append_bind
             (λ db, [Early.WithDatabase (Early.BootDatabase.Name db)
                       (Early.BootDatabase.DryRun db)
                       (Early.BootDatabase.AutoCreate db)
                       (Early.BootDatabase.Params db)])).
  rewrite foldl_app, Early_databases_fold.
  rewrite Early_defaultConfigs_frame.
  unfold Early_built_from, Early.GetName, Early.GetType,
    Early.GetDescription, Early_described, Early.describe. cbn.
  unfold Early.WithAddr, Early.WithPass, Early.WithUser,
    Early.WithZapLoggerEntry, Early.WithDescription, Early.WithName.
  destruct (Early.GetZapLoggerEntry _ h),
    (nonempty (Early.BootConfigE.User el)),
    (nonempty (Early.BootConfigE.Pass el)) eqn:Hp,
    (nonempty (Early.BootConfigE.Addr el)); cbn;
    destruct (nonempty (Early.BootConfigE.Description el)); cbn;
    repeat split; try done; try (symmetry; by apply nonempty_false in Hp).
Qed.

Lemma Early_fold_result (config : list Early.BootConfigE.t)
    (res : gmap string Early.ClickHouseEntry) (h : H) :
  let r := foldl Early.registerStep (res, h) config in
  dom r.1
  = dom res ∪
    list_to_set (Early.BootConfigE.Name <$>
                 filter (λ el, passes (H := H) el) config) ∧
  (∀ n e, r.1 !! n = Some e →
          res !! n = Some e ∨
          ∃ el, el ∈ config ∧ passes (H := H) el = true ∧
                Early.BootConfigE.Name el = n ∧ Early_built_from el e) ∧
  (∀ n, (∀ el, el ∈ config → passes (H := H) el = true →
               Early.BootConfigE.Name el ≠ n) →
        r.1 !! n = res !! n) ∧
  (∀ pre el post,
     config = pre ++ el :: post →
     passes (H := H) el = true →
     (∀ el', el' ∈ post → passes (H := H) el' = true →
             Early.BootConfigE.Name el' ≠ Early.BootConfigE.Name el) →
     ∃ e, r.1 !! Early.BootConfigE.Name el = Some e ∧ Early_built_from el e).
Proof.
  revert res h. induction config as [|x config IH]; intros res h; cbv zeta.
  - cbn. split; [by rewrite (right_id_L ∅ (∪)) |].
    split; [by left |]. split; [done |].
    intros [|? ?] el post Heq; discriminate Heq.
  - cbn [foldl]. rewrite filter_cons.
    destruct (decide (passes (H := H) x)) as [Hp|Hp].
    + apply Is_true_true in Hp. rewrite (Early_registerStep_pass _ _ _ Hp).
      pose proof (Early_registered_built_from x h) as Hbuilt.
      destruct (Early.RegisterClickHouseEntry (Early.optionsOf x h) h)
        as [entry h1]. cbn [fst snd] in *.
      destruct (IH (<[Early.BootConfigE.Name x := entry]> res) h1)
        as (Hdom & Hval & Hother & Hlast).
      split; [| split; [| split]].
      * rewrite Hdom, dom_insert_L. cbn. set_solver.
      * intros n e Hn. destruct (Hval n e Hn) as [Hres|(el & Hin & ?)].
        -- destruct (decide (Early.BootConfigE.Name x = n)) as [<-|Hne].
           ++ rewrite lookup_insert_eq in Hres. injection Hres as <-.
              right. exists x. split; [by left | done].
           ++ rewrite lookup_insert_ne in Hres by done. by left.
        -- right. exists el. split; [by right | done].
      * intros n Hnone. rewrite Hother.
        -- apply lookup_insert_ne. apply Hnone; [by left | done].
        -- intros el Hel. apply Hnone. by right.
      * intros [|y pre] el post Heq Hpass Hnone.
        -- injection Heq as <- <-. exists entry. split; [| done].
           rewrite Hother by done. apply lookup_insert_eq.
        -- injection Heq as <- ->. by apply (Hlast pre el post).
    + apply Is_true_false in Hp. rewrite (Early_registerStep_skip _ _ Hp).
      destruct (IH res h) as (Hdom & Hval & Hother & Hlast).
      split; [done |]. split; [| split].
      * intros n e Hn. destruct (Hval n e Hn) as [Hres|(el & Hin & ?)];
          [by left |].
        right. exists el. split; [by right | done].
      * intros n Hnone. apply Hother. intros el Hel. apply Hnone. by right.
      * intros [|y pre] el post Heq Hpass Hnone.
        -- injection Heq as <- <-. congruence.
        -- injection Heq as <- ->. by apply (Hlast pre el post).
Qed.

Lemma Early_fold_registered (config : list Early.BootConfigE.t)
    (res : gmap string Early.ClickHouseEntry) (h : H) :
  ∃ entries,
    Forall2 Early_built_from (filter (λ el, passes (H := H) el) config)
      entries ∧
    foldl Early.registerStep (res, h) config
    = (foldl (λ m p, <[Early.BootConfigE.Name p.1 := p.2]> m) res
         (zip (filter (λ el, passes (H := H) el) config) entries),
       foldl (λ h e, Early.AddEntry e h) h entries).
Proof.
  revert res h. induction config as [|x config IH]; intros res h.
  - exists []. split; [constructor | done].
  - cbn [foldl]. rewrite filter_cons.
    destruct (decide (passes (H := H) x)) as [Hp|Hp].
    + apply Is_true_true in Hp. rewrite (Early_registerStep_pass _ _ _ Hp).
      pose proof (Early_registered_built_from x h) as Hbuilt.
      rewrite Early_Register_unfold in Hbuilt |- *. cbn [fst snd] in *.
      set (entry := Early.defaultConfigs _) in *.
      destruct (IH (<[Early.BootConfigE.Name x := entry]> res)
                  (Early.AddEntry entry h)) as (entries & Hall & Hrun).
      exists (entry :: entries). split; [by constructor |].
      by rewrite Hrun.
    + apply Is_true_false in Hp. rewrite (Early_registerStep_skip _ _ Hp).
      apply IH.
Qed.

(** X14: the early registration returns one entry per name of a block
    with a name and a matching locale.  Blocks are not selected among:
    each of them is registered in turn, and under a name the returned
    map holds the entry of the last such block, built from what that
    block says (name, user and address or their defaults, password,
    description, one descriptor per database section with a name, no
    handle).  The registry is given one entry per such block, in the
    order of the configuration, same-named blocks included, and the
    returned map is made of these very entries, each put under the name
    of its block in that order. *)
Theorem early_registration_last_block_wins (config : Early.BootConfig)
    (h : H) :
  let res := (Early.RegisterClickHouseEntriesWithConfig config h).1 in
  dom res
  = list_to_set (Early.BootConfigE.Name <$>
                 filter (λ el, passes (H := H) el)
                   (config : list Early.BootConfigE.t)) ∧
  (∀ n e, res !! n = Some e →
          ∃ el, el ∈ config ∧ passes (H := H) el = true ∧
                Early.BootConfigE.Name el = n ∧ Early_built_from el e) ∧
  (∀ pre el post,
     config = pre ++ el :: post →
     passes (H := H) el = true →
     (∀ el', el' ∈ post → passes (H := H) el' = true →
             Early.BootConfigE.Name el' ≠ Early.BootConfigE.Name el) →
     ∃ e, res !! Early.BootConfigE.Name el = Some e ∧ Early_built_from el e) ∧
  (∃ entries,
     Forall2 Early_built_from
       (filter (λ el, passes (H := H) el) (config : list Early.BootConfigE.t))
       entries ∧
     (Early.RegisterClickHouseEntriesWithConfig config h).2
     = foldl (λ h e, Early.AddEntry e h) h entries ∧
     res
     = foldl (λ m p, <[Early.BootConfigE.Name p.1 := p.2]> m) ∅
         (zip (filter (λ el, passes (H := H) el)
                 (config : list Early.BootConfigE.t)) entries)).
Proof.
  intros res. subst res. unfold Early.RegisterClickHouseEntriesWithConfig.
  destruct (Early_fold_result config ∅ h) as (Hdom & Hval & _ & Hlast).
  split; [| split; [| split]].
  - rewrite Hdom, dom_empty_L. apply (left_id_L ∅ (∪)).
  - intros n e Hn. destruct (Hval n e Hn) as [Hemp|?]; [| done].
    by rewrite lookup_empty in Hemp.
  - exact Hlast.
  - destruct (Early_fold_registered config ∅ h) as (entries & Hall & Hrun).
    exists entries. split; [exact Hall |]. by rewrite Hrun.
Qed.
End early_yaml.

Lemma Sim_early_added (entries : list Early.ClickHouseEntry)
    (h : Sim.EarlyHost) :
  Sim.early_added (foldl (λ h e, Early.AddEntry e h) h entries)
  = Sim.early_added h ++ entries.
Proof.
  revert h. induction entries as [|e entries IH]; intros h; cbn.
  - by rewrite app_nil_r.
  - rewrite IH. cbn. by rewrite <- app_assoc.
Qed.

(** Two blocks named [user-db] with matching locales, the first
    disabled: both are added to the registry, and the entry returned
    carries the address of the second. *)
Lemma early_registration_last_block_wins_witness :
  (∃ e,
     (Early.RegisterClickHouseEntriesWithConfig
        [Sim.early_block false "user-db" "*::*::*::*" "alice" "ch1:9000" [];
         Sim.early_block true "user-db" "*::*::*::prod" EmptyString
           "ch2:9000" []]
        (Sim.mkEarlyHost [])).1 !! "user-db" = Some e ∧
     Early.Addr e = "ch2:9000" ∧ Early.User e = "default") ∧
  ∃ e1 e2,
    Sim.early_added
      (Early.RegisterClickHouseEntriesWithConfig
         [Sim.early_block false "user-db" "*::*::*::*" "alice" "ch1:9000" [];
          Sim.early_block true "user-db" "*::*::*::prod" EmptyString
            "ch2:9000" []]
         (Sim.mkEarlyHost [])).2 = [e1; e2] ∧
    Early.Addr e1 = "ch1:9000" ∧ Early.Addr e2 = "ch2:9000".
Proof.
  destruct (early_registration_last_block_wins
    [Sim.early_block false "user-db" "*::*::*::*" "alice" "ch1:9000" [];
     Sim.early_block true "user-db" "*::*::*::prod" EmptyString
       "ch2:9000" []] (Sim.mkEarlyHost []))
    as (_ & _ & Hlast & entries & Hall & Hhost & _).
  split.
  - destruct (Hlast
      [Sim.early_block false "user-db" "*::*::*::*" "alice" "ch1:9000" []]
      (Sim.early_block true "user-db" "*::*::*::prod" EmptyString
         "ch2:9000" [])
      []) as (e & He & Hb).
    + reflexivity.
    + reflexivity.
    + intros el' Hel'. inversion Hel'.
    + exists e. split; [exact He |].
      destruct Hb as (_ & _ & Hu & _ & Ha & _). split; [exact Ha | exact Hu].
  - rewrite Hhost, Sim_early_added. cbn [Sim.early_added app].
    change (filter _ _) with
      [Sim.early_block false "user-db" "*::*::*::*" "alice" "ch1:9000" [];
       Sim.early_block true "user-db" "*::*::*::prod" EmptyString
         "ch2:9000" []] in Hall.
    inversion Hall as [|el1 e1 l1 r1 Hb1 Hrest]; subst.
    inversion Hrest as [|el2 e2 l2 r2 Hb2 Hnil]; subst.
    inversion Hnil; subst.
    exists e1, e2. split; [reflexivity |].
    destruct Hb1 as (_ & _ & _ & _ & Ha1 & _).
    destruct Hb2 as (_ & _ & _ & _ & Ha2 & _).
    split; [exact Ha1 | exact Ha2].
Defined.

(** ** Looking a registered entry up again *)

Section lookup.
Context {H : Type} `{!Later.Host H} `{!Later.Registry H}.

Lemma Later_registered_type (opts : list Later.Option) (h : H) :
  Forall standard opts →
  Later.entryType (Later.RegisterClickHouseEntry opts h).1
  = Later.ClickHouseEntryType.
Proof.
  intros Hstd. rewrite Later_Register_unfold. cbn [fst].
  rewrite Later_defaultConfigs_frame.
  destruct (standard_fold_frame opts (Later_initial h) Hstd) as (Hty & _).
  unfold Later_described. destruct (negb _); cbn; exact Hty.
Qed.

(** X15: on a registry that hands back what was added under its type
    and name, an entry registered with any list of the package's
    options is the one [GetClickHouseEntry] returns for its name, right
    after the registration: no option moves it to another type. *)
Theorem registered_entry_is_found (opts : list Later.Option) (h : H) :
  keeps_entries (H := H) →
  Forall standard opts →
  let r := Later.RegisterClickHouseEntry opts h in
  Later.GetClickHouseEntry (Later.GetName r.1) r.2 = Some r.1.
Proof.
  intros Hkeep Hstd r.
  pose proof (Later_registered_type opts h Hstd) as Hty. fold r in Hty.
  assert (Hr : r.2 = Later.AddEntry r.1 h).
  { subst r. by rewrite Later_Register_unfold. }
  unfold Later.GetClickHouseEntry, Later.GetName.
  by rewrite Hr, <- Hty, Hkeep.
Qed.
End lookup.

Lemma Sim_keeps_entries : keeps_entries (H := Sim.Host).
Proof.
  intros e h. cbn. rewrite filter_app, filter_cons_True, filter_nil by done.
  by rewrite last_snoc.
Qed.

Lemma registered_entry_is_found_witness :
  Later.GetClickHouseEntry "orders"
    (Later.RegisterClickHouseEntry
       [Later.WithName "orders"; Later.WithDatabase "user" false true []]
       Sim.prod).2
  = Some (Sim.later_entry
            [Later.WithName "orders"; Later.WithDatabase "user" false true []]).
Proof.
  apply (registered_entry_is_found
           [Later.WithName "orders"; Later.WithDatabase "user" false true []]
           Sim.prod Sim_keeps_entries).
  repeat constructor.
Defined.

(** ** Prometheus metrics *)

Section metrics_flat.
Context {R : Type} `{!Later.Prometheus R}.

Lemma registerEach_app (cs1 cs2 : list Later.Collector) (r : R) :
  Later.registerEach (cs1 ++ cs2) r
  = match Later.registerEach cs1 r with
    | (Some err, r) => (Some err, r)
    | (None, r) => Later.registerEach cs2 r
    end.
Proof.
  revert r. induction cs1 as [|c cs1 IH]; intros r; [done |].
  cbn. destruct (Later.registry_Register c r) as [[err|] r']; [done |].
  apply IH.
Qed.

Lemma registerProm_flat (v : Later.PromConfig) (r : R) :
  Later.registerProm v r
  = Later.registerEach (collectorsOf (R := R) (Later.NewProm v)) r.
Proof.
  unfold Later.registerProm, collectorsOf.
  rewrite registerEach_app.
  destruct (Later.registerEach (Later.ListGauges v) r) as [[?|] r1]; [done |].
  rewrite registerEach_app.
  destruct (Later.registerEach (Later.ListCounters v) r1) as [[?|] r2];
    [done |].
  rewrite registerEach_app.
  by destruct (Later.registerEach (Later.ListSummaries v) r2) as [[?|] r3].
Qed.

Lemma registerPlugins_flat (ps : list Later.Plugin) (r : R) :
  Later.registerPlugins ps r
  = Later.registerEach (ps ≫= collectorsOf (R := R)) r.
Proof.
  revert r. induction ps as [|p ps IH]; intros r; [done |].
  cbn [Later.registerPlugins mbind list_bind]. rewrite registerEach_app.
  destruct p as [v|v|id].
  - rewrite registerProm_flat.
    destruct (Later.registerEach _ r) as [[?|] r1]; [done | apply IH].
  - apply IH.
  - apply IH.
Qed.

(** X16: [RegisterPromMetrics] is one pass over the collectors of the
    Prom plugins of the entry: descriptor by descriptor, plugin by
    plugin, gauges then counters then summaries then histograms.  It
    returns the error of the first collector the registry refuses and
    offers it no collector after that one; plugins of another kind
    contribute nothing. *)
Theorem RegisterPromMetrics_single_pass (entry : Later.ClickHouseEntry)
    (registry : R) :
  Later.RegisterPromMetrics entry registry
  = Later.registerEach (collectors (R := R) entry) registry.
Proof.
  unfold Later.RegisterPromMetrics, collectors.
  generalize (Later.innerDbList entry) as dbs. intros dbs. revert registry.
  induction dbs as [|d dbs IH]; intros r; [done |].
  cbn [Later.registerDescriptors mbind list_bind]. rewrite registerEach_app.
  rewrite registerPlugins_flat.
  destruct (Later.registerEach _ r) as [[?|] r1]; [done | apply IH].
Qed.
End metrics_flat.
